(** * The vega-backtester simulation engine: a shallow embedding

    Source: [src/lib/polygon.ts], which holds the Polygon client
    ([fetchMinuteData]) and, after it, the two variants of the class
    [BacktestingEngine] (the one that always synthesises results, and the one
    that fetches bars first and falls back on synthesis), and
    [src/types/strategy.ts].  What the two variants share word for word is
    modelled once.

    Modelling conventions.
    - A JavaScript [number] is a value of [num]: an exact rational, or one of
      [+Infinity], [-Infinity], [NaN].  Arithmetic on finite values is exact
      (binary64 rounding and overflow are abstracted away); the special values
      follow ECMAScript.  Zero carries no sign: a division of a non-zero finite
      number by zero takes the sign of the dividend.
    - [Math.sqrt] on positive finite arguments and [Math.pow] on a positive
      finite base with a finite non-integer exponent have irrational results in
      general; both are left to the runtime ([sqrt_pos], [pow_pos]) and every
      statement holds for all choices of them.
    - A [Date] is its time value in milliseconds since the epoch, valid dates
      only; local time is UTC (no daylight saving), so [setDate (getDate + 1)]
      adds 86400000 ms.
    - The network is a state [World] with a transition [httpFetch]; the engine's
      only mutable field is [seed].  Effects are threaded by the monad [M]. *)

From Stdlib Require Import ZArith QArith Qround Qabs List String Ascii Bool Lia Lqa.
From Stdlib Require Import DecimalString Sorted.
Import ListNotations.

Set Implicit Arguments.

(** ** JavaScript numbers *)

Module JsNum.

Open Scope Q_scope.

Inductive num : Type :=
| Fin (q : Q)
| PInf
| NInf
| NaN.

Definition fin (q : Q) : num := Fin (Qred q).

Definition ofZ (z : Z) : num := Fin (inject_Z z).

Definition ofNat (n : nat) : num := ofZ (Z.of_nat n).

(** [Number.isFinite]. *)
Definition isFinite (x : num) : bool :=
  match x with Fin _ => true | _ => false end.

Definition isNaN (x : num) : bool :=
  match x with NaN => true | _ => false end.

Definition sign (x : num) : comparison :=
  match x with
  | Fin q => q ?= 0
  | PInf => Gt
  | NInf => Lt
  | NaN => Eq
  end.

Definition sign_mul (a b : comparison) : comparison :=
  match a, b with
  | Eq, _ | _, Eq => Eq
  | Gt, Gt | Lt, Lt => Gt
  | _, _ => Lt
  end.

Definition inf_of_sign (c : comparison) : num :=
  match c with Gt => PInf | Lt => NInf | Eq => NaN end.

Definition neg (x : num) : num :=
  match x with
  | Fin q => fin (- q)
  | PInf => NInf
  | NInf => PInf
  | NaN => NaN
  end.

Definition add (x y : num) : num :=
  match x, y with
  | NaN, _ | _, NaN => NaN
  | Fin a, Fin b => fin (a + b)
  | PInf, NInf | NInf, PInf => NaN
  | PInf, _ | _, PInf => PInf
  | NInf, _ | _, NInf => NInf
  end.

Definition sub (x y : num) : num :=
  match x, y with
  | NaN, _ | _, NaN => NaN
  | Fin a, Fin b => fin (a - b)
  | PInf, PInf | NInf, NInf => NaN
  | PInf, _ | _, NInf => PInf
  | NInf, _ | _, PInf => NInf
  end.

Definition mul (x y : num) : num :=
  match x, y with
  | NaN, _ | _, NaN => NaN
  | Fin a, Fin b => fin (a * b)
  | _, _ => inf_of_sign (sign_mul (sign x) (sign y))
  end.

Definition div (x y : num) : num :=
  match x, y with
  | NaN, _ | _, NaN => NaN
  | Fin a, Fin b =>
      if Qeq_bool b 0 then inf_of_sign (a ?= 0) else fin (a / b)
  | Fin _, _ => Fin 0
  | _, Fin b => inf_of_sign (sign_mul (sign x) (if Qle_bool 0 b then Gt else Lt))
  | _, _ => NaN
  end.

(** The relational operators; every comparison with [NaN] is false. *)
Definition le (x y : num) : bool :=
  match x, y with
  | NaN, _ | _, NaN => false
  | Fin a, Fin b => Qle_bool a b
  | NInf, _ | _, PInf => true
  | _, _ => false
  end.

Definition lt (x y : num) : bool :=
  match x, y with
  | NaN, _ | _, NaN => false
  | Fin a, Fin b => negb (Qle_bool b a)
  | PInf, _ | _, NInf => false
  | _, _ => true
  end.

Definition gt (x y : num) : bool := lt y x.
Definition ge (x y : num) : bool := le y x.

(** [Math.abs], [Math.floor], [Math.ceil]. *)
Definition abs (x : num) : num :=
  match x with
  | Fin q => fin (Qabs q)
  | PInf | NInf => PInf
  | NaN => NaN
  end.

Definition floor (x : num) : num :=
  match x with Fin q => ofZ (Qfloor q) | _ => x end.

Definition ceil (x : num) : num :=
  match x with Fin q => ofZ (Qceiling q) | _ => x end.

(** Truncation towards zero, and the remainder operator [%], whose result
    takes the sign of the dividend. *)
Definition Qtrunc (q : Q) : Z := Z.quot (Qnum q) (Zpos (Qden q)).

Definition rem (x y : num) : num :=
  match x, y with
  | Fin a, Fin b =>
      if Qeq_bool b 0 then NaN else fin (a - b * inject_Z (Qtrunc (a / b)))
  | Fin a, (PInf | NInf) => Fin a
  | _, _ => NaN
  end.

(** [ToBoolean] on a number, and the idiom [x || d]. *)
Definition truthy (x : num) : bool :=
  match x with
  | Fin q => negb (Qeq_bool q 0)
  | NaN => false
  | _ => true
  end.

Definition orDefault (x d : num) : num := if truthy x then x else d.

(** [Math.max(...xs)] and [Math.min(...xs)]. *)
Definition max2 (x y : num) : num :=
  match x, y with
  | NaN, _ | _, NaN => NaN
  | _, _ => if lt x y then y else x
  end.

Definition min2 (x y : num) : num :=
  match x, y with
  | NaN, _ | _, NaN => NaN
  | _, _ => if lt y x then y else x
  end.

Definition maxList (xs : list num) : num := fold_left max2 xs NInf.
Definition minList (xs : list num) : num := fold_left min2 xs PInf.

(** [xs.reduce((sum, x) => sum + x, 0)]. *)
Definition sum (xs : list num) : num := fold_left add xs (Fin 0).

Definition isInteger (q : Q) : bool := Qeq_bool (inject_Z (Qfloor q)) q.

Definition isOdd (q : Q) : bool := isInteger q && Z.odd (Qfloor q).

Section Runtime.

(** What the runtime computes where the exact result may be irrational. *)
Variable sqrt_pos : Q -> Q.
Variable pow_pos : Q -> Q -> Q.

(** [Math.sqrt]. *)
Definition sqrt (x : num) : num :=
  match x with
  | Fin q =>
      match q ?= 0 with
      | Lt => NaN
      | Eq => Fin 0
      | Gt => fin (sqrt_pos q)
      end
  | PInf => PInf
  | NInf | NaN => NaN
  end.

(** [Math.pow], after ECMAScript's Number::exponentiate. *)
Definition pow (b e : num) : num :=
  match e with
  | NaN => NaN
  | Fin y =>
      if Qeq_bool y 0 then Fin 1 else
      match b with
      | NaN => NaN
      | PInf => if Qle_bool 0 y then PInf else Fin 0
      | NInf => if Qle_bool 0 y then (if isOdd y then NInf else PInf) else Fin 0
      | Fin x =>
          match x ?= 0 with
          | Eq => if Qle_bool 0 y then Fin 0 else PInf
          | Lt => if isInteger y then fin (Qpower x (Qfloor y)) else NaN
          | Gt => if isInteger y then fin (Qpower x (Qfloor y)) else fin (pow_pos x y)
          end
      end
  | PInf =>
      match b with
      | NaN => NaN
      | _ => match abs b with
             | Fin a => match a ?= 1 with Gt => PInf | Eq => NaN | Lt => Fin 0 end
             | _ => PInf
             end
      end
  | NInf =>
      match b with
      | NaN => NaN
      | _ => match abs b with
             | Fin a => match a ?= 1 with Gt => Fin 0 | Eq => NaN | Lt => PInf end
             | _ => Fin 0
             end
      end
  end.

End Runtime.

(** Equality of values (rationals up to [Qeq]). *)
Definition eqv (x y : num) : Prop :=
  match x, y with
  | Fin a, Fin b => a == b
  | PInf, PInf | NInf, NInf | NaN, NaN => True
  | _, _ => False
  end.

Lemma eqv_refl x : eqv x x.
Proof. destruct x; simpl; auto with qarith. Qed.

Lemma eqv_sym x y : eqv x y -> eqv y x.
Proof. destruct x, y; simpl; auto with qarith. Qed.

Lemma eqv_trans x y z : eqv x y -> eqv y z -> eqv x z.
Proof.
  destruct x, y, z; simpl; try tauto. intros H1 H2. now rewrite H1.
Qed.

Lemma lt_fin a b : lt (Fin a) (Fin b) = true <-> a < b.
Proof.
  simpl. rewrite negb_true_iff. split.
  - intro H. apply Qnot_le_lt. intro L. apply Qle_bool_iff in L. congruence.
  - intro H. destruct (Qle_bool b a) eqn:E; auto.
    apply Qle_bool_iff in E. exfalso. lra.
Qed.

Lemma le_fin a b : le (Fin a) (Fin b) = true <-> a <= b.
Proof. simpl. apply Qle_bool_iff. Qed.

Lemma lt_fin_false a b : lt (Fin a) (Fin b) = false <-> b <= a.
Proof.
  simpl. rewrite negb_false_iff. apply Qle_bool_iff.
Qed.

Lemma le_fin_false a b : le (Fin a) (Fin b) = false <-> b < a.
Proof.
  simpl. split.
  - intro H. apply Qnot_le_lt. intro L. apply Qle_bool_iff in L. congruence.
  - intro H. destruct (Qle_bool a b) eqn:E; auto.
    apply Qle_bool_iff in E. exfalso. lra.
Qed.

Lemma Qeq_bool_false_neq a b : Qeq_bool a b = false -> ~ a == b.
Proof. intros H E. apply Qeq_bool_iff in E. congruence. Qed.

End JsNum.

Import JsNum.
Open Scope string_scope.
Open Scope list_scope.
Open Scope Z_scope.

(** Number literals of the source, written as rationals. *)
Notation "# q" := (Fin q%Q) (at level 5, q at level 1, format "# q").

(** ** Data model ([src/types/strategy.ts], [src/lib/polygon.ts]) *)

Inductive StrategyType : Type :=
| microscalping
| momentum
| mean_reversion
| breakout
| gap_and_go
| news_scalping.

(** The entry and exit conditions; of the entry conditions the engine reads the
    two thresholds only. *)
Record EntryConditions : Type := {
  volumeThreshold : num;
  relativeVolume : option num;
  priceChangeThreshold : num;
  maxSpread : option num
}.

Record ExitConditions : Type := {
  timeBasedExit : bool;
  maxHoldTime : num;
  trailingStop : bool;
  trailingStopPercent : num
}.

(** ["HH:MM"] after [split(':').map(Number)]; [None] stands for the empty
    string, which [||] replaces by the default. *)
Record TradingHours : Type := {
  th_start : option (num * num);
  th_end : option (num * num)
}.

Record StrategyParameters : Type := {
  maxPositions : num;
  positionSize : num;
  riskPerTrade : num;
  maxDailyTrades : num;
  stopLoss : num;
  stopLossDollar : option num;
  stopLossATR : option num;
  takeProfit : num;
  takeProfitDollar : option num;
  maxDrawdownLimit : num;
  entryConditions : EntryConditions;
  exitConditions : ExitConditions;
  commissionPerTrade : num;
  slippageBuffer : num;
  tradingHours : TradingHours;
  avoidNewsMinutes : num
}.

Record Strategy : Type := {
  id : string;
  name : string;
  description : string;
  type : StrategyType;
  parameters : StrategyParameters;
  tickers : list string;
  isActive : bool
}.

Record PolygonBar : Type := {
  o : num;
  h : num;
  l : num;
  c : num;
  v : num;
  t : Z
}.

Inductive ExitReason : Type :=
| stop_loss
| take_profit
| time_exit
| trailing_stop.

Record Trade : Type := {
  tradeId : string;
  ticker : string;
  entryTime : Z;
  exitTime : Z;
  entryPrice : num;
  exitPrice : num;
  quantity : num;
  pnl : num;
  pnlPercent : num;
  fees : num;
  slippage : num;
  reason : ExitReason;
  holdTime : num
}.

Record EquityPoint : Type := {
  date : Z;
  equity : num;
  ret_ : num
}.

Record PerformanceMetrics : Type := {
  totalReturn : num;
  annualizedReturn : num;
  sharpeRatio : num;
  maxDrawdown : num;
  winRate : num;
  profitFactor : num;
  totalTrades : num;
  avgTradeReturn : num;
  bestTrade : num;
  worstTrade : num;
  avgHoldTime : num;
  volatility : num;
  calmarRatio : num;
  sortinoRatio : num
}.

(** [toISOString()] of a date, whole or cut at ['T']. *)
Inductive IsoString : Type :=
| IsoDateTime (d : Z)
| IsoDate (d : Z).

Record BacktestResult : Type := {
  strategyId : string;
  r_capital : num;
  r_startDate : IsoString;
  r_endDate : IsoString;
  performance : PerformanceMetrics;
  trades : list Trade;
  equityCurve : list EquityPoint;
  drawdownCurve : list unit;
  monthlyReturns : list unit
}.

Inductive Mode : Type := single | multi.

(** The engine's fields; [seed], the only one assigned after construction, is
    kept in the threaded state. *)
Record Engine : Type := {
  capital : num;
  strategies : list Strategy;
  startDate : Z;
  endDate : Z;
  mode : Mode
}.

Inductive Side : Type := buy | sell.

(** ** Dates *)

Definition DAY : Z := 1000 * 60 * 60 * 24.

(** 0 is Sunday; 1 January 1970 was a Thursday. *)
Definition getDay (d : Z) : Z := (d / DAY + 4) mod 7.
Definition getHours (d : Z) : Z := (d mod DAY) / 3600000.
Definition getMinutes (d : Z) : Z := (d mod 3600000) / 60000.

(** [d.setDate(d.getDate() + i)]. *)
Definition addDays (d i : Z) : Z := d + i * DAY.

(** [d.setHours(0, 0, 0, 0)] and [d.setHours(23, 59, 59, 999)]. *)
Definition startOfDay (d : Z) : Z := d - d mod DAY.
Definition endOfDay (d : Z) : Z := d - d mod DAY + (DAY - 1).

Definition isWeekend (d : Z) : bool := (getDay d =? 0) || (getDay d =? 6).

(** ** Rule evaluator and trade simulator (identical in both variants) *)

(** [data.slice(from, to)] for [0 <= from <= to]. *)
Definition slice {A} (data : list A) (from to : nat) : list A :=
  firstn (to - from) (skipn from data).

Definition microscalpingEntry (data : list PolygonBar) (index : nat) : bool :=
  match nth_error data index, nth_error data (index - 1) with
  | Some current, Some prev =>
      let volumeRatio := div (v current) (v prev) in
      gt volumeRatio #1.5 && gt (c current) (c prev)
  | _, _ => false
  end.

Definition momentumEntry (data : list PolygonBar) (index : nat) : bool :=
  if (index <? 5)%nat then false else
  match nth_error data index, nth_error data (index - 1) with
  | Some current, Some prev =>
      let avgVolume := div (sum (map v (slice data (index - 5) index))) #5 in
      gt (v current) (mul avgVolume #1.2) && gt (c current) (c prev)
  | _, _ => false
  end.

Definition meanReversionEntry (data : list PolygonBar) (index : nat) : bool :=
  if (index <? 20)%nat then false else
  match nth_error data index with
  | Some current =>
      let sma20 := div (sum (map c (slice data (index - 20) index))) #20 in
      lt (c current) (mul sma20 #0.98)
  | None => false
  end.

(** [data[index]] is read inside the array by every caller; outside it the
    source would raise a [TypeError], and the model answers [false]. *)
Definition shouldEnter (strategy : Strategy) (data : list PolygonBar) (index : nat) : bool :=
  if (index <? 20)%nat then false else
  let params := parameters strategy in
  match nth_error data index, nth_error data (index - 1) with
  | Some currentBar, Some prevBar =>
      if lt (v currentBar) (orDefault (volumeThreshold (entryConditions params)) #100000)
      then false else
      let priceChange := div (sub (c currentBar) (c prevBar)) (c prevBar) in
      if lt (abs priceChange)
            (div (orDefault (priceChangeThreshold (entryConditions params)) #0.1) #100)
      then false else
      match type strategy with
      | microscalping => microscalpingEntry data index
      | momentum => momentumEntry data index
      | mean_reversion => meanReversionEntry data index
      | _ => false
      end
  | _, _ => false
  end.

Definition setReason (position : Trade) (r : ExitReason) : Trade :=
  {| tradeId := tradeId position; ticker := ticker position;
     entryTime := entryTime position; exitTime := exitTime position;
     entryPrice := entryPrice position; exitPrice := exitPrice position;
     quantity := quantity position; pnl := pnl position;
     pnlPercent := pnlPercent position; fees := fees position;
     slippage := slippage position; reason := r;
     holdTime := holdTime position |}.

(** [shouldExit] answers and, when it answers [true], has assigned
    [position.reason]; the model returns the position as it is afterwards. *)
Definition shouldExit (strategy : Strategy) (position : Trade)
    (currentBar : PolygonBar) (currentTime : Z) : bool * Trade :=
  let params := parameters strategy in
  let currentPrice := c currentBar in
  let entryPrice := entryPrice position in
  let stopLossPrice :=
    mul entryPrice (sub #1 (div (orDefault (stopLoss params) #2) #100)) in
  if le currentPrice stopLossPrice then (true, setReason position stop_loss) else
  let takeProfitPrice :=
    mul entryPrice (add #1 (div (orDefault (takeProfit params) #3) #100)) in
  if ge currentPrice takeProfitPrice then (true, setReason position take_profit) else
  let holdTime := div (ofZ (currentTime - entryTime position)) (ofZ (1000 * 60)) in
  if timeBasedExit (exitConditions params)
     && ge holdTime (orDefault (maxHoldTime (exitConditions params)) #60)
  then (true, setReason position time_exit) else
  (* if (params.exitConditions?.trailingStop) { /* Implementation would go here */ } *)
  if trailingStop (exitConditions params) then (false, position) else
  (false, position).

Definition calculatePositionSize (capital positionSizePercent price : num) : num :=
  let positionValue := mul capital (div positionSizePercent #100) in
  floor (div positionValue price).

Definition calculateEntryPrice (bar : PolygonBar) (side : Side) : num :=
  let spread := #0.01 in
  match side with
  | buy => add (c bar) (div spread #2)
  | sell => sub (c bar) (div spread #2)
  end.

Definition calculateSlippage (price quantity : num) : num :=
  mul (mul price quantity) #0.001.

Definition timeString (z : Z) : string := NilZero.string_of_int (Z.to_int z).

(** The position opened on an entry signal. *)
Definition openPosition (strategy : Strategy) (ticker : string) (bar : PolygonBar)
    (currentEquity : num) : Trade :=
  let params := parameters strategy in
  let time := t bar in
  let positionSize :=
    calculatePositionSize currentEquity (orDefault (positionSize params) #20) (c bar) in
  let entryPrice := calculateEntryPrice bar buy in
  {| tradeId := (ticker ++ "-" ++ timeString time)%string;
     ticker := ticker;
     entryTime := time;
     exitTime := time;
     entryPrice := entryPrice;
     exitPrice := #0;
     quantity := positionSize;
     pnl := #0;
     pnlPercent := #0;
     fees := orDefault (commissionPerTrade params) #0.001;
     slippage := calculateSlippage entryPrice positionSize;
     reason := time_exit;
     holdTime := #0 |}.

(** The assignments made to a position when it is closed at [bar]. *)
Definition closePosition (position : Trade) (bar : PolygonBar) (r : ExitReason) : Trade :=
  let exitPrice := calculateEntryPrice bar sell in
  let holdTime := div (ofZ (t bar - entryTime position)) (ofZ (1000 * 60)) in
  let pnl :=
    sub (sub (mul (sub exitPrice (entryPrice position)) (quantity position))
             (fees position))
        (slippage position) in
  {| tradeId := tradeId position; ticker := ticker position;
     entryTime := entryTime position;
     exitTime := t bar;
     entryPrice := entryPrice position;
     exitPrice := exitPrice;
     quantity := quantity position;
     pnl := pnl;
     pnlPercent := mul (div pnl (mul (entryPrice position) (quantity position))) #100;
     fees := fees position; slippage := slippage position;
     reason := r;
     holdTime := holdTime |}.

(** One iteration of the bar loop of [simulateTickerTrading]. *)
Definition tickerStep (strategy : Strategy) (ticker : string) (dayData : list PolygonBar)
    (currentEquity : num) (i : nat) (bar : PolygonBar)
    (st : list Trade * option Trade) : list Trade * option Trade :=
  let '(trades, position) := st in
  let position :=
    match position with
    | None =>
        if shouldEnter strategy dayData i
        then Some (openPosition strategy ticker bar currentEquity)
        else None
    | Some p => Some p
    end in
  match position with
  | Some p =>
      let '(exit, p) := shouldExit strategy p bar (t bar) in
      if exit then (trades ++ [closePosition p bar (reason p)], None)
      else (trades, Some p)
  | None => (trades, None)
  end.

Fixpoint tickerLoop (strategy : Strategy) (ticker : string) (dayData : list PolygonBar)
    (currentEquity : num) (bars : list PolygonBar) (i : nat)
    (st : list Trade * option Trade) : list Trade * option Trade :=
  match bars with
  | [] => st
  | bar :: rest =>
      tickerLoop strategy ticker dayData currentEquity rest (S i)
        (tickerStep strategy ticker dayData currentEquity i bar st)
  end.

Definition simulateTickerTrading (strategy : Strategy) (ticker : string)
    (dayData : list PolygonBar) (currentEquity : num) : list Trade :=
  let '(trades, position) :=
    tickerLoop strategy ticker dayData currentEquity dayData 0%nat ([], None) in
  match position, nth_error dayData (List.length dayData - 1) with
  | Some p, Some lastBar => trades ++ [closePosition p lastBar time_exit]
  | _, _ => trades
  end.

(** ** Performance analyzer *)

Definition lengthNum {A} (xs : list A) : num := ofNat (List.length xs).

Definition getEmptyMetrics : PerformanceMetrics :=
  {| totalReturn := #0; annualizedReturn := #0; sharpeRatio := #0;
     maxDrawdown := #0; winRate := #0; profitFactor := #0; totalTrades := #0;
     avgTradeReturn := #0; bestTrade := #0; worstTrade := #0; avgHoldTime := #0;
     volatility := #0; calmarRatio := #0; sortinoRatio := #0 |}.

(** The loop over the curve that tracks the running peak and the largest
    drawdown, in percent. *)
Definition drawdownStep (st : num * num) (point : EquityPoint) : num * num :=
  let '(maxDrawdown, peak) := st in
  let peak := if gt (equity point) peak then equity point else peak in
  let drawdown := mul (div (sub peak (equity point)) peak) #100 in
  let maxDrawdown := if gt drawdown maxDrawdown then drawdown else maxDrawdown in
  (maxDrawdown, peak).

Section Analyzer.

Variable sqrt_pos : Q -> Q.
Variable pow_pos : Q -> Q -> Q.

Abbreviation sqrt := (JsNum.sqrt sqrt_pos).
Abbreviation pow := (JsNum.pow pow_pos).

(** The analyzer of the fetching variant (the class declares the method
    twice; the later declaration, this one, is the one in force). *)
Definition calculatePerformanceMetrics (this : Engine) (trades : list Trade)
    (equityCurve : list EquityPoint) : PerformanceMetrics :=
  match trades with
  | [] => getEmptyMetrics
  | _ =>
    let totalReturn :=
      match nth_error equityCurve (List.length equityCurve - 1) with
      | Some point => sub (equity point) (capital this)
      | None => #0
      end in
    let totalReturnPercent := mul (div totalReturn (capital this)) #100 in
    let winningTrades := filter (fun trade => gt (pnl trade) #0) trades in
    let losingTrades := filter (fun trade => lt (pnl trade) #0) trades in
    let winRate := mul (div (lengthNum winningTrades) (lengthNum trades)) #100 in
    let grossProfit := sum (map pnl winningTrades) in
    let grossLoss := abs (sum (map pnl losingTrades)) in
    let profitFactor := if gt grossLoss #0 then div grossProfit grossLoss else #0 in
    let bestTrade := maxList (map pnl trades) in
    let worstTrade := minList (map pnl trades) in
    let avgTradeReturn := div (sum (map pnl trades)) (lengthNum trades) in
    let avgHoldTime := div (sum (map holdTime trades)) (lengthNum trades) in
    let maxDrawdown := fst (fold_left drawdownStep equityCurve (#0, capital this)) in
    let returns := map ret_ equityCurve in
    let avgReturn := div (sum returns) (lengthNum returns) in
    let variance :=
      div (sum (map (fun ret => pow (sub ret avgReturn) #2) returns))
          (lengthNum returns) in
    let volatility := sqrt variance in
    let sharpeRatio := if gt volatility #0 then div avgReturn volatility else #0 in
    let days := div (ofZ (endDate this - startDate this)) (ofZ DAY) in
    let annualizedReturn :=
      if gt days #0
      then mul (sub (pow (add #1 (div totalReturnPercent #100)) (div #365 days)) #1) #100
      else #0 in
    let calmarRatio :=
      if gt maxDrawdown #0 then div annualizedReturn maxDrawdown else #0 in
    let negativeReturns := filter (fun ret => lt ret #0) returns in
    let downsideDeviation :=
      match negativeReturns with
      | [] => #0
      | _ => sqrt (div (sum (map (fun ret => pow ret #2) negativeReturns))
                       (lengthNum negativeReturns))
      end in
    let sortinoRatio :=
      if gt downsideDeviation #0 then div avgReturn downsideDeviation else #0 in
    {| totalReturn := totalReturnPercent;
       annualizedReturn := annualizedReturn;
       sharpeRatio := sharpeRatio;
       maxDrawdown := maxDrawdown;
       winRate := winRate;
       profitFactor := profitFactor;
       totalTrades := lengthNum trades;
       avgTradeReturn := avgTradeReturn;
       bestTrade := bestTrade;
       worstTrade := worstTrade;
       avgHoldTime := avgHoldTime;
       volatility := volatility;
       calmarRatio := calmarRatio;
       sortinoRatio := sortinoRatio |}
  end.

(** [equityCurve.slice(1).map((point, i) => (point.equity -
    equityCurve[i].equity) / equityCurve[i].equity)]. *)
Fixpoint periodReturns (equityCurve : list EquityPoint) : list num :=
  match equityCurve with
  | prev :: (point :: _) as rest =>
      div (sub (equity point) (equity prev)) (equity prev) :: periodReturns rest
  | _ => []
  end.

(** The analyzer of the synthetic variant, with the drawdown passed in (the
    same text is the earlier, shadowed declaration of the fetching variant). *)
Definition calculatePerformanceMetrics3 (this : Engine) (trades : list Trade)
    (equityCurve : list EquityPoint) (maxDrawdown : num) : PerformanceMetrics :=
  match trades with
  | [] => getEmptyMetrics
  | _ =>
    let totalReturn :=
      div (sub (match nth_error equityCurve (List.length equityCurve - 1) with
                | Some point => equity point
                | None => NaN
                end) (capital this)) (capital this) in
    let winningTrades := filter (fun t => gt (pnl t) #0) trades in
    let losingTrades := filter (fun t => lt (pnl t) #0) trades in
    let winRate := mul (div (lengthNum winningTrades) (lengthNum trades)) #100 in
    let avgWin :=
      match winningTrades with
      | [] => #0
      | _ => div (sum (map pnl winningTrades)) (lengthNum winningTrades)
      end in
    let avgLoss :=
      match losingTrades with
      | [] => #0
      | _ => abs (div (sum (map pnl losingTrades)) (lengthNum losingTrades))
      end in
    let profitFactor :=
      if gt avgLoss #0
      then div (mul avgWin (lengthNum winningTrades))
               (mul avgLoss (lengthNum losingTrades))
      else #0 in
    let returns := periodReturns equityCurve in
    let avgReturn := div (sum returns) (lengthNum returns) in
    let variance :=
      div (sum (map (fun r => pow (sub r avgReturn) #2) returns)) (lengthNum returns) in
    let volatility := sqrt (mul variance #252) in
    let riskFreeRate := #0.02 in
    let sharpeRatio :=
      if gt volatility #0 then div (sub totalReturn riskFreeRate) volatility else #0 in
    {| totalReturn := mul totalReturn #100;
       annualizedReturn := mul totalReturn #100;
       sharpeRatio := sharpeRatio;
       maxDrawdown := mul maxDrawdown #100;
       winRate := winRate;
       profitFactor := profitFactor;
       totalTrades := lengthNum trades;
       avgTradeReturn := div (sum (map pnl trades)) (lengthNum trades);
       bestTrade := maxList (map pnl trades);
       worstTrade := minList (map pnl trades);
       avgHoldTime := div (sum (map holdTime trades)) (lengthNum trades);
       volatility := mul volatility #100;
       calmarRatio := if gt maxDrawdown #0 then div totalReturn maxDrawdown else #0;
       sortinoRatio := sharpeRatio |}
  end.

End Analyzer.

(** ** Calendar and per-day simulation *)

(** The [while (currentDate <= this.endDate)] loop of [getTradingDays]; [None]
    when the fuel runs out before the loop ends. *)
Fixpoint getTradingDaysLoop (fuel : nat) (currentDate endDate : Z)
    (tradingDays : list Z) : option (list Z) :=
  if currentDate <=? endDate then
    match fuel with
    | O => None
    | S fuel =>
        let tradingDays :=
          if negb (getDay currentDate =? 0) && negb (getDay currentDate =? 6)
          then tradingDays ++ [currentDate] else tradingDays in
        getTradingDaysLoop fuel (addDays currentDate 1) endDate tradingDays
    end
  else Some tradingDays.

(** Enough fuel for any range: one iteration per started day. *)
Definition tradingDaysFuel (this : Engine) : nat :=
  Z.to_nat ((endDate this - startDate this) / DAY + 1).

Definition getTradingDays (this : Engine) : list Z :=
  match getTradingDaysLoop (tradingDaysFuel this) (startDate this) (endDate this) [] with
  | Some tradingDays => tradingDays
  | None => []
  end.

Definition isMarketOpen (date : Z) (tradingHours : TradingHours) : bool :=
  let day := getDay date in
  if (day =? 0) || (day =? 6) then false else
  let '(startHour, startMin) :=
    match th_start tradingHours with Some hm => hm | None => (#9, #30) end in
  let '(endHour, endMin) :=
    match th_end tradingHours with Some hm => hm | None => (#16, #0) end in
  let currentHour := ofZ (getHours date) in
  let currentMin := ofZ (getMinutes date) in
  let startTime := add (mul startHour #60) startMin in
  let endTime := add (mul endHour #60) endMin in
  let currentTime := add (mul currentHour #60) currentMin in
  ge currentTime startTime && le currentTime endTime.

Definition getDayData (data : list PolygonBar) (date : Z) : list PolygonBar :=
  let dayStart := startOfDay date in
  let dayEnd := endOfDay date in
  filter (fun bar => (dayStart <=? t bar) && (t bar <=? dayEnd)) data.

(** [Map<string, PolygonBar[]>]: insertion order, a repeated key keeps its place. *)
Definition TickerData : Type := list (string * list PolygonBar).

Fixpoint mapSet (m : TickerData) (k : string) (d : list PolygonBar) : TickerData :=
  match m with
  | [] => [(k, d)]
  | (k', d') :: rest =>
      if String.eqb k' k then (k', d) :: rest else (k', d') :: mapSet rest k d
  end.

Definition simulateTradingDay (strategy : Strategy) (tickerData : TickerData)
    (date : Z) (currentEquity : num) : list Trade :=
  let params := parameters strategy in
  if negb (isMarketOpen date (tradingHours params)) then [] else
  fold_left
    (fun trades '(ticker, data) =>
       let dayData := getDayData data date in
       match dayData with
       | [] => trades
       | _ => trades ++ simulateTickerTrading strategy ticker dayData currentEquity
       end)
    tickerData [].

(** ** The quote simulation of the Polygon client *)

Module Spread.

Record t : Type := {
  bid : num;
  ask : num;
  slippage : num
}.

End Spread.

Definition calculateSpreadAndSlippage (price volume : num) (ticker : string) : Spread.t :=
  let baseSpread :=
    if lt price #10 then #0.01 else if lt price #50 then #0.02 else #0.05 in
  let volumeFactor := max2 #0.5 (min2 #2 (div #1000000 volume)) in
  let spread := mul baseSpread volumeFactor in
  let bid := sub price (div spread #2) in
  let ask := add price (div spread #2) in
  let slippage := min2 #0.1 (mul (div volume #1000000) #0.05) in
  {| Spread.bid := bid; Spread.ask := ask; Spread.slippage := slippage |}.

(** ** Effects: the seed, the network, exceptions *)

Inductive outcome (A : Type) : Type :=
| Ret (a : A)
| Throw (e : string).

Arguments Ret {A} a.
Arguments Throw {A} e.

(** What [fetch] resolves to: the status line and the body read by [json()]. *)
Record PolygonResponse : Type := {
  results : option (list PolygonBar);
  status : string
}.

Record Response : Type := {
  http_status : Z;
  ok : bool;
  json : outcome PolygonResponse
}.

Section Effects.

Variable World : Type.

Record State : Type := {
  seed : num;
  world : World
}.

Definition M (A : Type) : Type := State -> outcome A * State.

Definition ret {A} (a : A) : M A := fun s => (Ret a, s).

Definition throw {A} (e : string) : M A := fun s => (Throw e, s).

Definition bind {A B} (m : M A) (k : A -> M B) : M B :=
  fun s =>
    match m s with
    | (Ret a, s') => k a s'
    | (Throw e, s') => (Throw e, s')
    end.

(** [try { m } catch (error) { handler }]. *)
Definition tryCatch {A} (m : M A) (handler : string -> M A) : M A :=
  fun s =>
    match m s with
    | (Ret a, s') => (Ret a, s')
    | (Throw e, s') => handler e s'
    end.

End Effects.

Arguments ret {World A} a.
Arguments throw {World A} e.
Arguments bind {World A B} m k.
Arguments tryCatch {World A} m handler.

Notation "x <- m ;; k" := (bind m (fun x => k))
  (at level 61, m at next level, right associativity).

(** ** The engine *)

(** [s.charCodeAt(0)]: [NaN] on the empty string. *)
Definition charCodeAt0 (s : string) : num :=
  match s with
  | EmptyString => NaN
  | String ch _ => ofNat (nat_of_ascii ch)
  end.

Definition createSeed (this : Engine) : num :=
  let strategyHash :=
    fold_left
      (fun hash strategy =>
         add (add hash (charCodeAt0 (id strategy))) (lengthNum (tickers strategy)))
      (strategies this) #0 in
  let dateHash := add (ofZ (startDate this)) (ofZ (endDate this)) in
  rem (add (add strategyHash dateHash) (capital this)) #2147483647.

Definition lcgNext (seed : num) : num :=
  rem (add (mul seed #1664525) #1013904223) #2147483647.

Section Engine.

Variable sqrt_pos : Q -> Q.
Variable pow_pos : Q -> Q -> Q.
Variable World : Type.

(** [fetch(url)] for the aggregates of a ticker between two dates: it
    resolves to a response or rejects, and may change the world. *)
Variable httpFetch : string -> IsoString -> IsoString -> World -> outcome Response * World.

Abbreviation M := (M World).

(** [new BacktestingEngine(capital, strategies, startDate, endDate, mode)]
    leaves the state with the seed of [createSeed]. *)
Definition construct (this : Engine) (w : World) : State World :=
  {| seed := createSeed this; world := w |}.

Definition seededRandom : M num :=
  fun s =>
    let seed := lcgNext (seed s) in
    (Ret (div seed #2147483647), {| seed := seed; world := world s |}).

Definition fetch (ticker : string) (from to : IsoString) : M Response :=
  fun s =>
    let '(r, w) := httpFetch ticker from to (world s) in
    (r, {| seed := seed s; world := w |}).

(** [fetchMinuteData]; [fuel] bounds the recursion on [retryCount], which
    stops at 3. *)
Fixpoint fetchMinuteDataFrom (fuel : nat) (ticker : string) (from to : IsoString)
    (retryCount : nat) : M (list PolygonBar) :=
  response <- fetch ticker from to ;;
  if http_status response =? 429 then
    if (retryCount <? 3)%nat then
      match fuel with
      | S fuel => fetchMinuteDataFrom fuel ticker from to (retryCount + 1)
      | O => throw "Rate limited"
      end
    else throw "Rate limited"
  else if negb (ok response) then throw "HTTP error"
  else
    match json response with
    | Throw e => throw e
    | Ret data =>
        if negb (String.eqb (status data) "OK") then throw "Polygon API error"
        else ret (match results data with Some bars => bars | None => [] end)
    end.

Definition fetchMinuteData (ticker : string) (from to : IsoString) : M (list PolygonBar) :=
  fetchMinuteDataFrom 3 ticker from to 0.

Definition fetchTickerData (this : Engine) (ticker : string) : M (list PolygonBar) :=
  tryCatch
    (fetchMinuteData ticker (IsoDate (startDate this)) (IsoDate (endDate this)))
    (fun _ => ret []).

(** *** Synthetic results *)

Definition getStrategyBaseReturn (strategyType : StrategyType) : M num :=
  r1 <- seededRandom ;;
  r2 <- seededRandom ;;
  r3 <- seededRandom ;;
  r4 <- seededRandom ;;
  r5 <- seededRandom ;;
  r6 <- seededRandom ;;
  let returns :=
    match strategyType with
    | microscalping => add #0.05 (mul r1 #0.15)
    | momentum => add #0.08 (mul r2 #0.20)
    | mean_reversion => add #0.03 (mul r3 #0.12)
    | breakout => add #0.06 (mul r4 #0.18)
    | gap_and_go => add #0.10 (mul r5 #0.25)
    | news_scalping => add #0.07 (mul r6 #0.22)
    end in
  ret (orDefault returns #0.05).

Definition getStrategyHoldTime (strategyType : StrategyType) : M num :=
  r1 <- seededRandom ;;
  r2 <- seededRandom ;;
  r3 <- seededRandom ;;
  r4 <- seededRandom ;;
  r5 <- seededRandom ;;
  r6 <- seededRandom ;;
  let holdTimes :=
    match strategyType with
    | microscalping => add #5 (mul r1 #10)
    | momentum => add #30 (mul r2 #60)
    | mean_reversion => add #60 (mul r3 #120)
    | breakout => add #45 (mul r4 #90)
    | gap_and_go => add #15 (mul r5 #30)
    | news_scalping => add #10 (mul r6 #20)
    end in
  ret (orDefault holdTimes #30).

(** The body of [for (let i = 0; i <= days; i++)], run [n] more times. *)
Fixpoint mockEquityLoop (this : Engine) (n : nat) (i : Z) (currentEquity : num)
    (equityCurve : list EquityPoint) : M (list EquityPoint) :=
  match n with
  | O => ret equityCurve
  | S n =>
      let date := addDays (startDate this) i in
      r <- seededRandom ;;
      let dailyReturn := mul (sub r #0.5) #0.02 in
      let currentEquity := mul currentEquity (add #1 dailyReturn) in
      mockEquityLoop this n (i + 1) currentEquity
        (equityCurve ++
         [{| date := date; equity := currentEquity;
             ret_ := div (sub currentEquity (capital this)) (capital this) |}])
  end.

Definition generateMockEquityCurve (this : Engine) (totalReturn : num) : M (list EquityPoint) :=
  let days := Qceiling (inject_Z (endDate this - startDate this) / inject_Z DAY) in
  mockEquityLoop this (Z.to_nat (days + 1)) 0 (capital this) [].

Definition generateMockBacktestResult (this : Engine) (strategy : Strategy) : M BacktestResult :=
  let isSingleSession := match mode this with single => true | multi => false end in
  let sessionMultiplier := if isSingleSession then #0.1 else #1 in
  base <- getStrategyBaseReturn (type strategy) ;;
  let baseReturn := mul base (if isSingleSession then #0.1 else #1) in
  r <- seededRandom ;;
  let volatility := add #0.15 (mul r #0.1) in
  r <- seededRandom ;;
  let maxDrawdown := add #0.05 (mul r #0.1) in
  r <- seededRandom ;;
  let winRate := add #0.45 (mul r #0.3) in
  r <- seededRandom ;;
  let totalTrades := floor (mul (add #50 (mul r #200)) sessionMultiplier) in
  r <- seededRandom ;;
  let profitFactor := add #0.8 (mul r #1.5) in
  r <- seededRandom ;;
  let bestTrade := add #50 (mul r #200) in
  r <- seededRandom ;;
  let worstTrade := neg (add #20 (mul r #100)) in
  avgHoldTime <- getStrategyHoldTime (type strategy) ;;
  let performance :=
    {| totalReturn := mul baseReturn #100;
       annualizedReturn := mul baseReturn #100;
       sharpeRatio := div baseReturn volatility;
       maxDrawdown := mul maxDrawdown #100;
       winRate := mul winRate #100;
       profitFactor := profitFactor;
       totalTrades := totalTrades;
       avgTradeReturn := div baseReturn totalTrades;
       bestTrade := bestTrade;
       worstTrade := worstTrade;
       avgHoldTime := avgHoldTime;
       volatility := mul volatility #100;
       calmarRatio := div baseReturn maxDrawdown;
       sortinoRatio := div baseReturn (mul volatility #0.8) |} in
  equityCurve <- generateMockEquityCurve this (div (totalReturn performance) #100) ;;
  ret {| strategyId := id strategy;
         r_capital := capital this;
         r_startDate := IsoDateTime (startDate this);
         r_endDate := IsoDateTime (endDate this);
         performance := performance;
         trades := [];
         equityCurve := equityCurve;
         drawdownCurve := [];
         monthlyReturns := [] |}.

(** *** Simulation on fetched bars *)

Definition dayStep (this : Engine) (strategy : Strategy) (tickerData : TickerData)
    (st : list Trade * list EquityPoint * num) (date : Z)
    : list Trade * list EquityPoint * num :=
  let '(trades, equityCurve, currentEquity) := st in
  let dayTrades := simulateTradingDay strategy tickerData date currentEquity in
  let dayPnL := sum (map pnl dayTrades) in
  let currentEquity := add currentEquity dayPnL in
  (trades ++ dayTrades,
   equityCurve ++
     [{| date := date; equity := currentEquity;
         ret_ := mul (div (sub currentEquity (capital this)) (capital this)) #100 |}],
   currentEquity).

Definition performRealBacktest (this : Engine) (strategy : Strategy)
    (tickerData : TickerData) : M BacktestResult :=
  let tradingDays := getTradingDays this in
  let '(trades, equityCurve, _) :=
    fold_left (dayStep this strategy tickerData) tradingDays ([], [], capital this) in
  let performance := calculatePerformanceMetrics sqrt_pos pow_pos this trades equityCurve in
  ret {| strategyId := id strategy;
         r_capital := capital this;
         r_startDate := IsoDate (startDate this);
         r_endDate := IsoDate (endDate this);
         performance := performance;
         trades := trades;
         equityCurve := equityCurve;
         drawdownCurve := [];
         monthlyReturns := [] |}.

(** The loop of [backtestStrategy] over the tickers. *)
Fixpoint fetchAll (this : Engine) (tickers : list string) (tickerData : TickerData)
    : M TickerData :=
  match tickers with
  | [] => ret tickerData
  | ticker :: rest =>
      data <- fetchTickerData this ticker ;;
      fetchAll this rest
        (match data with
         | [] => tickerData
         | _ => mapSet tickerData ticker data
         end)
  end.

Definition backtestStrategy (this : Engine) (strategy : Strategy) : M BacktestResult :=
  tryCatch
    (tickerData <- fetchAll this (tickers strategy) [] ;;
     match tickerData with
     | [] => generateMockBacktestResult this strategy
     | _ => performRealBacktest this strategy tickerData
     end)
    (fun _ => generateMockBacktestResult this strategy).

(** The loop of [runBacktest], parametrised by the variant's
    [backtestStrategy]. *)
Fixpoint runLoop (backtest : Strategy -> M BacktestResult) (todo : list Strategy)
    (results : list BacktestResult) : M (list BacktestResult) :=
  match todo with
  | [] => ret results
  | strategy :: rest =>
      result <- backtest strategy ;;
      runLoop backtest rest (results ++ [result])
  end.

Definition runBacktest (this : Engine) : M (list BacktestResult) :=
  runLoop (backtestStrategy this) (strategies this) [].

(** The synthetic variant: [backtestStrategy] goes straight to the
    generator. *)
Definition backtestStrategySynthetic (this : Engine) (strategy : Strategy) : M BacktestResult :=
  generateMockBacktestResult this strategy.

Definition runBacktestSynthetic (this : Engine) : M (list BacktestResult) :=
  runLoop (backtestStrategySynthetic this) (strategies this) [].

End Engine.

(** * Example data

    A runtime, two networks and a few strategies, bars and engines, for the
    concrete evaluations further down. *)

Module Examples.

(** A runtime: square roots rounded down to 32 fractional bits, non-integer
    powers interpolated linearly between the two nearest integer powers. *)
Definition sqrtDown (q : Q) : Q :=
  Qmake (Z.sqrt (Qnum q * 2 ^ 64 / Zpos (Qden q))) (2 ^ 32).

Definition powInterpolated (b e : Q) : Q :=
  (Qpower b (Qfloor e) * (1 + (e - inject_Z (Qfloor e)) * (b - 1)))%Q.

(** A network that is down, and one that serves the same bars for every
    ticker. *)
Definition offline (ticker : string) (from to : IsoString) (w : unit)
    : outcome Response * unit :=
  (Throw "Failed to fetch", w).

Definition serving (bars : list PolygonBar) (ticker : string) (from to : IsoString) (w : unit)
    : outcome Response * unit :=
  (Ret {| http_status := 200; ok := true;
          json := Ret {| results := Some bars; status := "OK" |} |}, w).

(** A network that is down as well, and counts the requests it refuses. *)
Definition offlineCounting (ticker : string) (from to : IsoString) (w : nat)
    : outcome Response * nat :=
  (Throw "Failed to fetch", S w).

Definition exEntry (volume : num) : EntryConditions :=
  {| volumeThreshold := volume; relativeVolume := None;
     priceChangeThreshold := #0.5; maxSpread := None |}.

Definition exExit : ExitConditions :=
  {| timeBasedExit := true; maxHoldTime := #60;
     trailingStop := true; trailingStopPercent := #1 |}.

Definition exHours : TradingHours :=
  {| th_start := Some (#9, #30); th_end := Some (#16, #0) |}.

Definition exParameters (volume risk slip : num) : StrategyParameters :=
  {| maxPositions := #5; positionSize := #25; riskPerTrade := risk;
     maxDailyTrades := #10; stopLoss := #1.5; stopLossDollar := None;
     stopLossATR := None; takeProfit := #3; takeProfitDollar := None;
     maxDrawdownLimit := #10; entryConditions := exEntry volume;
     exitConditions := exExit; commissionPerTrade := #1; slippageBuffer := slip;
     tradingHours := exHours; avoidNewsMinutes := #15 |}.

Definition exStrategy (ident : string) (ty : StrategyType) (tks : list string) (volume : num)
    : Strategy :=
  {| id := ident; name := "Example"; description := ""; type := ty;
     parameters := exParameters volume #150 #0.15; tickers := tks; isActive := true |}.

Definition meanReversion1 : Strategy :=
  exStrategy "mean-reversion-1" mean_reversion ["AAPL"] #250000.

(** The same with the volume threshold configured as 0. *)
Definition meanReversionAnyVolume : Strategy :=
  exStrategy "mean-reversion-1" mean_reversion ["AAPL"] #0.

(** The same trading five tickers, a quarter of the equity each. *)
Definition meanReversionFive : Strategy :=
  exStrategy "mean-reversion-1" mean_reversion ["AAPL"; "MSFT"; "NVDA"; "TSLA"; "AMD"] #250000.

(** A strategy whose [id] is the empty string. *)
Definition momentumNoId : Strategy := exStrategy "" momentum ["AAPL"] #250000.

(** A scalper with a dollar risk per trade and a slippage buffer. *)
Definition scalper (risk slip : num) : Strategy :=
  {| id := "microscalping-1"; name := "Example"; description := ""; type := microscalping;
     parameters := exParameters #250000 risk slip; tickers := ["AAPL"]; isActive := true |}.

Definition microscalping1 : Strategy :=
  exStrategy "microscalping-1" microscalping ["AAPL"] #250000.

(** Monday 15 January 2024, 00:00 and 10:00 UTC; the Saturday before. *)
Definition monday : Z := 1705276800000.
Definition monday10 : Z := monday + 10 * 3600000.
Definition saturday : Z := monday - 2 * DAY.

(** One-minute bars from Monday 10:00: twenty flat at 100, then a dip and a
    last bar. *)
Definition barAt (i : Z) (price volume : num) : PolygonBar :=
  {| o := price; h := price; l := price; c := price; v := volume;
     t := monday10 + i * 60000 |}.

Definition flatBars (n : nat) (price volume : num) : list PolygonBar :=
  map (fun i => barAt (Z.of_nat i) price volume) (seq 0 n).

Definition exDay (volume dip last : num) : list PolygonBar :=
  flatBars 20 #100 volume ++ [barAt 20 dip volume; barAt 21 last volume].

Definition exEngine (cap : num) (strats : list Strategy) (from to : Z) : Engine :=
  {| capital := cap; strategies := strats; startDate := from; endDate := to; mode := multi |}.

Definition exTrade (p : num) : Trade :=
  {| tradeId := "AAPL-0"; ticker := "AAPL"; entryTime := monday10;
     exitTime := monday10 + 60000; entryPrice := #100; exitPrice := #101;
     quantity := #10; pnl := p; pnlPercent := #1; fees := #1; slippage := #1;
     reason := take_profit; holdTime := #1 |}.

End Examples.

(** * Properties *)

(** ** Reasoning about the monad *)

Section Returns.

Variable World : Type.

(** [m] ends normally from every state, with a result that satisfies [P]. *)
Definition returns {A} (m : M World A) (P : A -> Prop) : Prop :=
  forall s, exists a s', m s = (Ret a, s') /\ P a.

Lemma returns_ret {A} (a : A) (P : A -> Prop) : P a -> returns (ret a) P.
Proof. intros H s. exists a, s. split; [reflexivity | exact H]. Qed.

Lemma returns_bind {A B} (m : M World A) (k : A -> M World B) P Q :
  returns m P -> (forall a, P a -> returns (k a) Q) -> returns (bind m k) Q.
Proof.
  intros Hm Hk s. destruct (Hm s) as (a & s' & E & Pa).
  destruct (Hk a Pa s') as (b & s'' & E' & Qb).
  exists b, s''. unfold bind. rewrite E. split; assumption.
Qed.

Lemma returns_weaken {A} (m : M World A) (P Q : A -> Prop) :
  returns m P -> (forall a, P a -> Q a) -> returns m Q.
Proof.
  intros Hm HPQ s. destruct (Hm s) as (a & s' & E & Pa).
  exists a, s'. auto.
Qed.

(** A handler that returns makes the whole [try] return, whatever the body does. *)
Lemma returns_tryCatch {A} (m : M World A) handler (P : A -> Prop) :
  (forall s a s', m s = (Ret a, s') -> P a) ->
  (forall e, returns (handler e) P) ->
  returns (tryCatch m handler) P.
Proof.
  intros Hm Hh s. unfold tryCatch.
  destruct (m s) as [[a | e] s'] eqn:E.
  - exists a, s'. split; [reflexivity | eauto].
  - apply Hh.
Qed.

End Returns.

Section EngineTotal.

Variable sqrt_pos : Q -> Q.
Variable pow_pos : Q -> Q -> Q.
Variable World : Type.
Variable httpFetch : string -> IsoString -> IsoString -> World -> outcome Response * World.

Lemma seededRandom_returns : returns (seededRandom (World := World)) (fun _ => True).
Proof. intros s. eexists _, _. split; [reflexivity | exact I]. Qed.

Ltac draw := eapply returns_bind; [apply seededRandom_returns | intros ? _].

Lemma getStrategyBaseReturn_returns ty :
  returns (getStrategyBaseReturn (World := World) ty) (fun _ => True).
Proof. unfold getStrategyBaseReturn. do 6 draw. now apply returns_ret. Qed.

Lemma getStrategyHoldTime_returns ty :
  returns (getStrategyHoldTime (World := World) ty) (fun _ => True).
Proof. unfold getStrategyHoldTime. do 6 draw. now apply returns_ret. Qed.

(** The synthetic curve has as many points as the loop has iterations. *)
Lemma mockEquityLoop_returns this n : forall i eq curve,
  returns (mockEquityLoop (World := World) this n i eq curve)
    (fun out => List.length out = (List.length curve + n)%nat).
Proof.
  induction n as [| n IH]; intros i eq curve; simpl.
  - apply returns_ret. lia.
  - draw. eapply returns_weaken; [apply IH |].
    intros out ->. rewrite length_app. simpl. lia.
Qed.

(** Number of iterations of the synthetic curve's loop: [i] from 0 to
    [ceil ((endDate - startDate) / DAY)] inclusive. *)
Definition mockDays (this : Engine) : nat :=
  Z.to_nat (Qceiling (inject_Z (endDate this - startDate this) / inject_Z DAY) + 1).

Lemma generateMockEquityCurve_returns this x :
  returns (generateMockEquityCurve (World := World) this x)
    (fun out => List.length out = mockDays this).
Proof.
  unfold generateMockEquityCurve.
  eapply returns_weaken; [apply mockEquityLoop_returns |].
  intros out ->. reflexivity.
Qed.

Lemma generateMockBacktestResult_returns this strategy :
  returns (generateMockBacktestResult (World := World) this strategy)
    (fun r => strategyId r = id strategy /\ r_capital r = capital this
              /\ trades r = [] /\ List.length (equityCurve r) = mockDays this).
Proof.
  unfold generateMockBacktestResult.
  eapply returns_bind; [apply getStrategyBaseReturn_returns | intros ? _].
  do 7 draw.
  eapply returns_bind; [apply getStrategyHoldTime_returns | intros ? _].
  eapply returns_bind; [apply generateMockEquityCurve_returns | intros curve Hc].
  apply returns_ret. simpl. auto.
Qed.

(** The fuel of [fetchMinuteData] is enough: with at least [3 - retryCount]
    left the recursion never runs out, and more fuel changes nothing. *)
Lemma fetchMinuteDataFrom_fuel fuel : forall fuel' ticker from to retryCount s,
  (3 <= retryCount + fuel)%nat -> (3 <= retryCount + fuel')%nat ->
  fetchMinuteDataFrom httpFetch fuel ticker from to retryCount s
  = fetchMinuteDataFrom httpFetch fuel' ticker from to retryCount s.
Proof.
  induction fuel as [| fuel IH]; intros fuel' ticker from to retryCount s H H';
    destruct fuel' as [| fuel']; simpl; unfold bind;
    destruct (fetch httpFetch ticker from to s) as [[response | e] s1]; try reflexivity;
    destruct (http_status response =? 429); try reflexivity;
    destruct (retryCount <? 3)%nat eqn:E; try reflexivity;
    apply Nat.ltb_lt in E; try lia.
  apply IH; lia.
Qed.

Lemma fetchTickerData_returns this ticker :
  returns (fetchTickerData httpFetch this ticker) (fun _ => True).
Proof.
  unfold fetchTickerData. apply returns_tryCatch; [auto |].
  intros e. now apply returns_ret.
Qed.

Lemma fetchAll_returns this tickers : forall tickerData,
  returns (fetchAll httpFetch this tickers tickerData) (fun _ => True).
Proof.
  induction tickers as [| ticker rest IH]; intros tickerData; simpl.
  - now apply returns_ret.
  - eapply returns_bind; [apply fetchTickerData_returns | intros data _]. apply IH.
Qed.

Lemma performRealBacktest_returns this strategy tickerData :
  returns (performRealBacktest (World := World) sqrt_pos pow_pos this strategy tickerData)
    (fun r => strategyId r = id strategy /\ r_capital r = capital this).
Proof.
  unfold performRealBacktest.
  destruct (fold_left _ _ _) as [[trades curve] eq].
  apply returns_ret. simpl. auto.
Qed.

Lemma backtestStrategy_returns this strategy :
  returns (backtestStrategy sqrt_pos pow_pos httpFetch this strategy)
    (fun r => strategyId r = id strategy /\ r_capital r = capital this).
Proof.
  assert (Hmock : returns (generateMockBacktestResult (World := World) this strategy)
                    (fun r => strategyId r = id strategy /\ r_capital r = capital this)).
  { eapply returns_weaken; [apply generateMockBacktestResult_returns |].
    intros r (H1 & H2 & _). auto. }
  intros s. unfold backtestStrategy, tryCatch.
  assert (Hbody : returns
    (tickerData <- fetchAll httpFetch this (tickers strategy) [] ;;
     match tickerData with
     | [] => generateMockBacktestResult this strategy
     | _ => performRealBacktest sqrt_pos pow_pos this strategy tickerData
     end) (fun r => strategyId r = id strategy /\ r_capital r = capital this)).
  { eapply returns_bind; [apply fetchAll_returns | intros td _].
    destruct td; [exact Hmock | apply performRealBacktest_returns]. }
  destruct (Hbody s) as (r & s' & E & Hr). rewrite E. eauto.
Qed.

Lemma runLoop_returns (backtest : Strategy -> M World BacktestResult) (P : BacktestResult -> Prop) :
  (forall strategy, returns (backtest strategy) (fun r => strategyId r = id strategy /\ P r)) ->
  forall todo results,
    returns (runLoop backtest todo results)
      (fun out => map strategyId out = map strategyId results ++ map id todo
                  /\ (Forall P results -> Forall P out)).
Proof.
  intros Hb. induction todo as [| strategy rest IH]; intros results; simpl.
  - apply returns_ret. rewrite app_nil_r. auto.
  - eapply returns_bind; [apply Hb | intros r [Hr HP]].
    eapply returns_weaken; [apply IH |].
    intros out [-> HF]. split.
    + rewrite map_app, <- app_assoc. simpl. now rewrite Hr.
    + intros Hres. apply HF. apply Forall_app. split; [exact Hres | constructor; auto].
Qed.

Lemma runBacktest_returns this :
  returns (runBacktest sqrt_pos pow_pos httpFetch this)
    (fun out => map strategyId out = map id (strategies this)
                /\ Forall (fun r => r_capital r = capital this) out).
Proof.
  eapply returns_weaken;
    [apply (runLoop_returns (backtestStrategy sqrt_pos pow_pos httpFetch this)
              (fun r => r_capital r = capital this)
              (backtestStrategy_returns this) (strategies this) []) |].
  intros out [E HF]. split; [exact E | apply HF; constructor].
Qed.


(** C4, amended.  The engine validates nothing: for an end date before the
    start date, or a capital that is not positive, [runBacktest] still ends
    normally with one result per strategy, each computed from the capital as
    given. *)
Theorem runBacktest_accepts_invalid_input (this : Engine) (s : State World) :
  endDate this < startDate this \/ le (capital this) #0 = true ->
  exists results s',
    runBacktest sqrt_pos pow_pos httpFetch this s = (Ret results, s')
    /\ List.length results = List.length (strategies this)
    /\ Forall (fun r => r_capital r = capital this) results.
Proof.
  intros _. destruct (runBacktest_returns this s) as (out & s' & E & Hout & Hcap).
  exists out, s'. repeat split; auto.
  rewrite <- (length_map strategyId out), Hout. apply length_map.
Qed.

End EngineTotal.

(** ** Determinism *)

Section Alike.

(** Two environments, each with its own network, and a relation between
    their states. *)
Variables World1 World2 : Type.
Variable R : World1 -> World2 -> Prop.

Definition agree (s1 : State World1) (s2 : State World2) : Prop :=
  seed s1 = seed s2 /\ R (world s1) (world s2).

(** Two computations that, from agreeing states, end alike in agreeing states. *)
Definition alike {A} (m1 : M World1 A) (m2 : M World2 A) : Prop :=
  forall s1 s2, agree s1 s2 ->
    fst (m1 s1) = fst (m2 s2) /\ agree (snd (m1 s1)) (snd (m2 s2)).

Lemma alike_ret {A} (a : A) : alike (ret a) (ret a).
Proof. intros s1 s2 H. simpl. auto. Qed.

Lemma alike_throw {A} e : alike (throw (A := A) e) (throw e).
Proof. intros s1 s2 H. simpl. auto. Qed.

Lemma alike_bind {A B} (m1 : M World1 A) (m2 : M World2 A) k1 (k2 : A -> M World2 B) :
  alike m1 m2 -> (forall a, alike (k1 a) (k2 a)) -> alike (bind m1 k1) (bind m2 k2).
Proof.
  intros Hm Hk s1 s2 H. unfold bind.
  destruct (Hm s1 s2 H) as [E Hs].
  destruct (m1 s1) as [o1 s1'], (m2 s2) as [o2 s2']. simpl in *. subst o2.
  destruct o1 as [a | e]; [apply Hk; exact Hs | simpl; auto].
Qed.

Lemma alike_tryCatch {A} (m1 : M World1 A) (m2 : M World2 A) h1 h2 :
  alike m1 m2 -> (forall e, alike (h1 e) (h2 e)) -> alike (tryCatch m1 h1) (tryCatch m2 h2).
Proof.
  intros Hm Hh s1 s2 H. unfold tryCatch.
  destruct (Hm s1 s2 H) as [E Hs].
  destruct (m1 s1) as [o1 s1'], (m2 s2) as [o2 s2']. simpl in *. subst o2.
  destruct o1 as [a | e]; [simpl; auto | apply Hh; exact Hs].
Qed.

Lemma alike_seededRandom : alike (seededRandom (World := World1)) (seededRandom (World := World2)).
Proof.
  intros s1 s2 [Hseed Hw]. unfold seededRandom. simpl. rewrite Hseed.
  repeat split; auto.
Qed.

Ltac alike_step :=
  first [ apply alike_ret | apply alike_seededRandom | apply alike_bind; [| intros ?] ].

Lemma alike_getStrategyBaseReturn ty :
  alike (getStrategyBaseReturn (World := World1) ty) (getStrategyBaseReturn ty).
Proof. unfold getStrategyBaseReturn. repeat alike_step. Qed.

Lemma alike_getStrategyHoldTime ty :
  alike (getStrategyHoldTime (World := World1) ty) (getStrategyHoldTime ty).
Proof. unfold getStrategyHoldTime. repeat alike_step. Qed.

Lemma alike_mockEquityLoop this n : forall i eq curve,
  alike (mockEquityLoop (World := World1) this n i eq curve) (mockEquityLoop this n i eq curve).
Proof.
  induction n as [| n IH]; intros i eq curve; simpl.
  - apply alike_ret.
  - apply alike_bind; [apply alike_seededRandom | intros r; apply IH].
Qed.

Lemma alike_generateMockBacktestResult this strategy :
  alike (generateMockBacktestResult (World := World1) this strategy)
        (generateMockBacktestResult this strategy).
Proof.
  unfold generateMockBacktestResult.
  apply alike_bind; [apply alike_getStrategyBaseReturn | intros base].
  do 7 (apply alike_bind; [apply alike_seededRandom | intros ?]).
  apply alike_bind; [apply alike_getStrategyHoldTime | intros hold].
  apply alike_bind; [apply alike_mockEquityLoop | intros curve].
  apply alike_ret.
Qed.

Lemma alike_runLoop (b1 : Strategy -> M World1 BacktestResult) b2 :
  (forall strategy, alike (b1 strategy) (b2 strategy)) ->
  forall todo results, alike (runLoop b1 todo results) (runLoop b2 todo results).
Proof.
  intros Hb. induction todo as [| strategy rest IH]; intros results; simpl.
  - apply alike_ret.
  - apply alike_bind; [apply Hb | intros r; apply IH].
Qed.

(** The synthetic variant never looks at the network. *)
Lemma alike_runBacktestSynthetic this :
  alike (runBacktestSynthetic (World := World1) this) (runBacktestSynthetic this).
Proof.
  apply alike_runLoop. intros strategy. apply alike_generateMockBacktestResult.
Qed.

Section Fetching.

Variable sqrt_pos : Q -> Q.
Variable pow_pos : Q -> Q -> Q.
Variable httpFetch1 : string -> IsoString -> IsoString -> World1 -> outcome Response * World1.
Variable httpFetch2 : string -> IsoString -> IsoString -> World2 -> outcome Response * World2.

(** The two networks answer alike in related states, and stay related. *)
Definition sameAnswers : Prop :=
  forall ticker from to w1 w2, R w1 w2 ->
    fst (httpFetch1 ticker from to w1) = fst (httpFetch2 ticker from to w2)
    /\ R (snd (httpFetch1 ticker from to w1)) (snd (httpFetch2 ticker from to w2)).

Hypothesis fetch_alike : sameAnswers.

Lemma alike_fetch ticker from to :
  alike (fetch httpFetch1 ticker from to) (fetch httpFetch2 ticker from to).
Proof.
  intros s1 s2 [Hseed Hw]. unfold fetch.
  destruct (fetch_alike ticker from to Hw) as [E HR].
  destruct (httpFetch1 _ _ _ _) as [r1 w1], (httpFetch2 _ _ _ _) as [r2 w2].
  simpl in *. repeat split; auto.
Qed.

Lemma alike_fetchMinuteDataFrom fuel : forall ticker from to retryCount,
  alike (fetchMinuteDataFrom httpFetch1 fuel ticker from to retryCount)
        (fetchMinuteDataFrom httpFetch2 fuel ticker from to retryCount).
Proof.
  induction fuel as [| fuel IH]; intros ticker from to retryCount; simpl;
    (apply alike_bind; [apply alike_fetch | intros response]);
    destruct (http_status response =? 429);
    try destruct (retryCount <? 3)%nat;
    try destruct (negb (ok response));
    try destruct (json response) as [data | e];
    try destruct (negb (String.eqb (status data) "OK"));
    auto using alike_ret, alike_throw.
Qed.

Lemma alike_fetchTickerData this ticker :
  alike (fetchTickerData httpFetch1 this ticker) (fetchTickerData httpFetch2 this ticker).
Proof.
  unfold fetchTickerData, fetchMinuteData.
  apply alike_tryCatch; [apply alike_fetchMinuteDataFrom | intros e; apply alike_ret].
Qed.

Lemma alike_fetchAll this tickers : forall tickerData,
  alike (fetchAll httpFetch1 this tickers tickerData)
        (fetchAll httpFetch2 this tickers tickerData).
Proof.
  induction tickers as [| ticker rest IH]; intros tickerData; simpl.
  - apply alike_ret.
  - apply alike_bind; [apply alike_fetchTickerData | intros data; apply IH].
Qed.

Lemma alike_performRealBacktest this strategy tickerData :
  alike (performRealBacktest (World := World1) sqrt_pos pow_pos this strategy tickerData)
        (performRealBacktest sqrt_pos pow_pos this strategy tickerData).
Proof.
  unfold performRealBacktest.
  destruct (fold_left _ _ _) as [[trades curve] eq]. apply alike_ret.
Qed.

Lemma alike_backtestStrategy this strategy :
  alike (backtestStrategy sqrt_pos pow_pos httpFetch1 this strategy)
        (backtestStrategy sqrt_pos pow_pos httpFetch2 this strategy).
Proof.
  unfold backtestStrategy.
  apply alike_tryCatch; [| intros e; apply alike_generateMockBacktestResult].
  apply alike_bind; [apply alike_fetchAll | intros tickerData].
  destruct tickerData;
    [apply alike_generateMockBacktestResult | apply alike_performRealBacktest].
Qed.

Lemma alike_runBacktest this :
  alike (runBacktest sqrt_pos pow_pos httpFetch1 this)
        (runBacktest sqrt_pos pow_pos httpFetch2 this).
Proof. apply alike_runLoop. intros strategy. apply alike_backtestStrategy. Qed.

End Fetching.

End Alike.


(** ** The trade simulator *)

Lemma closePosition_setReason position r bar r' :
  closePosition (setReason position r) bar r' = closePosition position bar r'.
Proof. reflexivity. Qed.

(** [shouldExit] leaves a position it does not close untouched, and only sets
    the reason of one it closes. *)
Lemma shouldExit_false strategy position bar time p :
  shouldExit strategy position bar time = (false, p) -> p = position.
Proof.
  unfold shouldExit.
  repeat match goal with
         | |- context [if ?b then _ else _] => destruct b
         end; congruence.
Qed.

Lemma shouldExit_true strategy position bar time p :
  shouldExit strategy position bar time = (true, p) ->
  exists r, p = setReason position r /\ r <> trailing_stop.
Proof.
  unfold shouldExit.
  repeat match goal with
         | |- context [if ?b then _ else _] => destruct b
         end; intros E; inversion E; subst; eexists; (split; [reflexivity | discriminate]).
Qed.

Section Simulator.

Variable strategy : Strategy.
Variable ticker : string.
Variable dayData : list PolygonBar.
Variable currentEquity : num.

(** An order on bars the day's bars are sorted by: by timestamp for the
    temporal properties, the full relation where order plays no part. *)
Variable before : PolygonBar -> PolygonBar -> Prop.
Hypothesis before_refl : forall b, before b b.

Abbreviation step := (tickerStep strategy ticker dayData currentEquity).
Abbreviation loop := (tickerLoop strategy ticker dayData currentEquity).
Abbreviation opened := (fun bar => openPosition strategy ticker bar currentEquity).

(** A round trip: opened at [entry], closed at [exit] for reason [r]. *)
Definition roundTrip (entry exit : PolygonBar) (r : ExitReason) : Trade :=
  closePosition (opened entry) exit r.

(** What the loop has built after the bars [seen]: round trips between bars
    already seen, entry first, and an open position taken at a bar seen. *)
Definition wellFormed (seen : list PolygonBar) (st : list Trade * option Trade) : Prop :=
  (forall trade, In trade (fst st) ->
     exists entry exit r,
       In entry seen /\ In exit seen /\ before entry exit /\ r <> trailing_stop
       /\ trade = roundTrip entry exit r)
  /\ (forall p, snd st = Some p -> exists entry, In entry seen /\ p = opened entry).

Lemma wellFormed_mono seen bar st :
  wellFormed seen st -> wellFormed (seen ++ [bar]) st.
Proof.
  intros [Ht Hp]. split.
  - intros trade Hin. destruct (Ht trade Hin) as (e & x & r & He & Hx & Hle & Hr & E).
    exists e, x, r. repeat split; auto using in_or_app.
  - intros p E. destruct (Hp p E) as (e & He & Ee). exists e. auto using in_or_app.
Qed.

(** Whether the iteration at [i] opens a position. *)
Definition opens (i : nat) (st : list Trade * option Trade) : bool :=
  match snd st with
  | None => shouldEnter strategy dayData i
  | Some _ => false
  end.

(** Number of positions opened by the loop over [bars] from index [i]. *)
Fixpoint opensIn (bars : list PolygonBar) (i : nat) (st : list Trade * option Trade) : nat :=
  match bars with
  | [] => 0%nat
  | bar :: rest => ((if opens i st then 1 else 0) + opensIn rest (S i) (step i bar st))%nat
  end.

Definition held (st : list Trade * option Trade) : nat :=
  match snd st with Some _ => 1%nat | None => 0%nat end.

Lemma step_wellFormed seen bar i st :
  (forall b, In b seen -> before b bar) ->
  wellFormed seen st -> wellFormed (seen ++ [bar]) (step i bar st).
Proof.
  intros Hsorted Hwf.
  assert (Hbar : In bar (seen ++ [bar])) by (apply in_or_app; right; left; reflexivity).
  pose proof (wellFormed_mono bar Hwf) as [Ht Hp].
  destruct st as [trades position]. simpl in *.
  assert (Hcur : forall p, (match position with
                            | None => if shouldEnter strategy dayData i
                                      then Some (opened bar) else None
                            | Some p => Some p
                            end) = Some p ->
                 exists entry, In entry (seen ++ [bar]) /\ before entry bar /\ p = opened entry).
  { intros p E. destruct position as [q |].
    - inversion E; subst. destruct Hwf as [_ Hq]. destruct (Hq p eq_refl) as (e & He & Ee).
      exists e. repeat split; auto using in_or_app.
    - destruct (shouldEnter strategy dayData i); [| discriminate].
      inversion E; subst. exists bar. repeat split; auto. }
  unfold tickerStep.
  destruct (match position with
            | None => _
            | Some p => Some p
            end) as [p |] eqn:Epos.
  - destruct (Hcur p eq_refl) as (e & He & Hle & Ee).
    destruct (shouldExit strategy p bar (t bar)) as [exit p'] eqn:Eexit.
    destruct exit.
    + apply shouldExit_true in Eexit. destruct Eexit as (r & -> & Hr).
      split; simpl; [| discriminate].
      intros trade Hin. apply in_app_or in Hin. destruct Hin as [Hin | [<- | []]].
      * apply Ht; exact Hin.
      * exists e, bar, r. rewrite closePosition_setReason. subst p.
        repeat split; auto.
    + apply shouldExit_false in Eexit. subst p'.
      split; simpl; [exact Ht |].
      intros q E. inversion E; subst. exists e. auto.
  - split; simpl; [exact Ht | discriminate].
Qed.

Lemma step_count i bar st :
  (List.length (fst (step i bar st)) + held (step i bar st)
   = List.length (fst st) + held st + (if opens i st then 1 else 0))%nat.
Proof.
  destruct st as [trades position]. unfold tickerStep, opens, held. simpl.
  destruct position as [p |].
  - destruct (shouldExit strategy p bar (t bar)) as [[|] p']; simpl;
      [rewrite length_app; simpl |]; lia.
  - destruct (shouldEnter strategy dayData i); simpl; [| lia].
    destruct (shouldExit _ _ _ _) as [[|] p']; simpl;
      [rewrite length_app; simpl |]; lia.
Qed.

Lemma loop_wellFormed bars : forall seen i st,
  StronglySorted before (seen ++ bars) ->
  wellFormed seen st -> wellFormed (seen ++ bars) (loop bars i st).
Proof.
  induction bars as [| bar rest IH]; intros seen i st Hs Hwf; simpl.
  - now rewrite app_nil_r.
  - replace (seen ++ bar :: rest) with ((seen ++ [bar]) ++ rest)
      by (rewrite <- app_assoc; reflexivity).
    apply IH.
    + rewrite <- app_assoc. exact Hs.
    + apply step_wellFormed; [| exact Hwf].
      intros b Hb. clear - Hs Hb.
      induction seen as [| a seen IHs]; [destruct Hb |].
      simpl in Hs. apply StronglySorted_inv in Hs. destruct Hs as [Hs Hall].
      destruct Hb as [-> | Hb]; [| auto].
      rewrite Forall_forall in Hall. apply Hall. apply in_or_app. right. left. reflexivity.
Qed.

Lemma loop_count bars : forall i st,
  (List.length (fst (loop bars i st)) + held (loop bars i st)
   = List.length (fst st) + held st + opensIn bars i st)%nat.
Proof.
  induction bars as [| bar rest IH]; intros i st; simpl.
  - lia.
  - rewrite IH, step_count. lia.
Qed.

End Simulator.

Definition byTime (a b : PolygonBar) : Prop := t a <= t b.

Lemma lastBar_exists {A} (xs : list A) :
  xs <> [] -> exists x, nth_error xs (List.length xs - 1) = Some x /\ In x xs.
Proof.
  intros Hne. destruct (nth_error xs (List.length xs - 1)) as [x |] eqn:E.
  - exists x. split; [reflexivity | eapply nth_error_In; eassumption].
  - apply nth_error_None in E. destruct xs; [congruence | simpl in E; lia].
Qed.

Lemma sorted_lastBar (before : PolygonBar -> PolygonBar -> Prop) (bars : list PolygonBar) lastBar :
  (forall b, before b b) ->
  StronglySorted before bars ->
  nth_error bars (List.length bars - 1) = Some lastBar ->
  forall b, In b bars -> before b lastBar.
Proof.
  intros Hrefl Hs. induction Hs as [| a rest Hs IH Hall]; intros Hlast b Hin.
  - destruct Hin.
  - destruct rest as [| a' rest'].
    + simpl in Hlast. inversion Hlast; subst. destruct Hin as [<- | []]. apply Hrefl.
    + assert (Hlast' : nth_error (a' :: rest') (List.length (a' :: rest') - 1) = Some lastBar).
      { simpl in *. rewrite Nat.sub_0_r in *. exact Hlast. }
      destruct Hin as [<- | Hin]; [| auto].
      rewrite Forall_forall in Hall. apply Hall.
      eapply nth_error_In; eassumption.
Qed.

(** What [simulateTickerTrading] returns, in terms of the state the bar loop
    ends in. *)
Lemma simulateTickerTrading_unfold strategy ticker dayData currentEquity :
  simulateTickerTrading strategy ticker dayData currentEquity
  = let final := tickerLoop strategy ticker dayData currentEquity dayData 0%nat ([], None) in
    match snd final, nth_error dayData (List.length dayData - 1) with
    | Some p, Some lastBar => fst final ++ [closePosition p lastBar time_exit]
    | _, _ => fst final
    end.
Proof.
  unfold simulateTickerTrading.
  destruct (tickerLoop _ _ _ _ _ _ _) as [trades position]. reflexivity.
Qed.

(** Every trade of the day is a round trip between two bars of the day, entry
    before exit; the trades are as many as the positions opened. *)
Lemma simulateTickerTrading_roundTrips strategy ticker dayData currentEquity
    (before : PolygonBar -> PolygonBar -> Prop) :
  (forall b, before b b) ->
  StronglySorted before dayData ->
  let result := simulateTickerTrading strategy ticker dayData currentEquity in
  (forall trade, In trade result ->
     exists entry exit r lastBar,
       nth_error dayData (List.length dayData - 1) = Some lastBar
       /\ In entry dayData /\ In exit dayData
       /\ before entry exit /\ before exit lastBar /\ r <> trailing_stop
       /\ trade = roundTrip strategy ticker currentEquity entry exit r)
  /\ List.length result
     = opensIn strategy ticker dayData currentEquity dayData 0%nat ([], None).
Proof.
  intros Hrefl Hs result. subst result. rewrite simulateTickerTrading_unfold.
  pose proof (@loop_wellFormed strategy ticker dayData currentEquity before Hrefl
                dayData [] 0%nat ([], None) Hs) as Hwf.
  pose proof (loop_count strategy ticker dayData currentEquity dayData 0%nat ([], None)) as Hcount.
  simpl in Hwf, Hcount.
  destruct (tickerLoop _ _ _ _ _ _ _) as [trades position]. simpl.
  destruct Hwf as [Ht Hp]; [split; [intros ? [] | discriminate] |]. simpl in *.
  assert (Hlast : forall b, In b dayData ->
            exists lastBar, nth_error dayData (List.length dayData - 1) = Some lastBar
                            /\ In lastBar dayData
                            /\ forall b', In b' dayData -> before b' lastBar).
  { intros b Hb. destruct (@lastBar_exists _ dayData) as (lastBar & E & Hin).
    - intros ->. destruct Hb.
    - exists lastBar. repeat split; auto. eapply sorted_lastBar; eauto. }
  assert (Hloop : forall trade, In trade trades ->
     exists entry exit r lastBar,
       nth_error dayData (List.length dayData - 1) = Some lastBar
       /\ In entry dayData /\ In exit dayData
       /\ before entry exit /\ before exit lastBar /\ r <> trailing_stop
       /\ trade = roundTrip strategy ticker currentEquity entry exit r).
  { intros trade Hin. destruct (Ht trade Hin) as (e & x & r & He & Hx & Hle & Hr & E).
    destruct (Hlast x Hx) as (lastBar & El & _ & Hmax).
    exists e, x, r, lastBar. repeat split; auto. }
  destruct position as [p |].
  - destruct (Hp p eq_refl) as (e & He & Ee).
    destruct (Hlast e He) as (lastBar & El & Hinl & Hmax). rewrite El. split.
    + intros trade Hin. apply in_app_or in Hin. rewrite <- El.
      destruct Hin as [Hin | [<- | []]]; [auto |].
      exists e, lastBar, time_exit, lastBar. subst p.
      repeat split; auto; discriminate.
    + rewrite length_app. simpl. unfold held in Hcount. simpl in Hcount. lia.
  - split; [exact Hloop |]. unfold held in Hcount. simpl in Hcount. lia.
Qed.


(** ** Exit rules *)

(** Rules tried in order; the first whose condition holds gives the reason. *)
Fixpoint firstMatch (rules : list (bool * ExitReason)) : option ExitReason :=
  match rules with
  | [] => None
  | (condition, r) :: rest => if condition then Some r else firstMatch rest
  end.

Definition stopLossBreach (strategy : Strategy) (position : Trade) (bar : PolygonBar) : bool :=
  le (c bar)
     (mul (entryPrice position)
          (sub #1 (div (orDefault (stopLoss (parameters strategy)) #2) #100))).

Definition takeProfitBreach (strategy : Strategy) (position : Trade) (bar : PolygonBar) : bool :=
  ge (c bar)
     (mul (entryPrice position)
          (add #1 (div (orDefault (takeProfit (parameters strategy)) #3) #100))).

Definition maxHoldBreach (strategy : Strategy) (position : Trade) (time : Z) : bool :=
  timeBasedExit (exitConditions (parameters strategy))
  && ge (div (ofZ (time - entryTime position)) (ofZ (1000 * 60)))
        (orDefault (maxHoldTime (exitConditions (parameters strategy))) #60).

(** The exit rules the engine has: three, in this order. *)
Definition exitRules (strategy : Strategy) (position : Trade) (bar : PolygonBar) (time : Z)
    : list (bool * ExitReason) :=
  [ (stopLossBreach strategy position bar, stop_loss);
    (takeProfitBreach strategy position bar, take_profit);
    (maxHoldBreach strategy position time, time_exit) ].

(** The strategy with other exit conditions. *)
Definition withExitConditions (strategy : Strategy) (x : ExitConditions) : Strategy :=
  let p := parameters strategy in
  {| id := id strategy; name := name strategy; description := description strategy;
     type := type strategy;
     parameters :=
       {| maxPositions := maxPositions p; positionSize := positionSize p;
          riskPerTrade := riskPerTrade p; maxDailyTrades := maxDailyTrades p;
          stopLoss := stopLoss p; stopLossDollar := stopLossDollar p;
          stopLossATR := stopLossATR p; takeProfit := takeProfit p;
          takeProfitDollar := takeProfitDollar p; maxDrawdownLimit := maxDrawdownLimit p;
          entryConditions := entryConditions p; exitConditions := x;
          commissionPerTrade := commissionPerTrade p; slippageBuffer := slippageBuffer p;
          tradingHours := tradingHours p; avoidNewsMinutes := avoidNewsMinutes p |};
     tickers := tickers strategy; isActive := isActive strategy |}.

(** The exit conditions with the trailing stop set as given. *)
Definition withTrailingStop (x : ExitConditions) (enabled : bool) (percent : num) : ExitConditions :=
  {| timeBasedExit := timeBasedExit x; maxHoldTime := maxHoldTime x;
     trailingStop := enabled; trailingStopPercent := percent |}.

(** C8, as stated, fails: the claim's fourth rule would make [shouldExit]
    answer [true] with reason [trailing_stop] for some position and bar; no
    strategy, position, bar and time make it do so. *)
Lemma shouldExit_never_trailing_stop :
  ~ exists strategy position bar time,
      fst (shouldExit strategy position bar time) = true
      /\ reason (snd (shouldExit strategy position bar time)) = trailing_stop.
Proof.
  intros (strategy & position & bar & time & Htrue & Hreason).
  destruct (shouldExit strategy position bar time) as [exit p] eqn:E.
  simpl in *. subst exit.
  apply shouldExit_true in E. destruct E as (r & -> & Hr). simpl in Hreason. congruence.
Qed.

Lemma shouldExit_firstMatch strategy position bar time :
  shouldExit strategy position bar time
  = match firstMatch (exitRules strategy position bar time) with
    | Some r => (true, setReason position r)
    | None => (false, position)
    end.
Proof.
  unfold shouldExit, exitRules, firstMatch, stopLossBreach, takeProfitBreach, maxHoldBreach.
  destruct (le _ _); [reflexivity |].
  destruct (ge _ _); [reflexivity |].
  destruct (timeBasedExit _ && _); [reflexivity |].
  destruct (trailingStop _); reflexivity.
Qed.

(** C8, amended.  [shouldExit] tries, in this order, the stop-loss breach, the
    take-profit breach and, when the time-based exit is enabled, the max-hold
    breach; the first that holds makes it answer [true] and sets the reason
    ([stop_loss], [take_profit], [time_exit]); if none holds it answers
    [false] and the position is unchanged.  The trailing-stop setting is read
    and has no effect: no trailing-stop rule is evaluated and the reason
    [trailing_stop] is never set. *)
Theorem shouldExit_priority strategy position bar time :
  shouldExit strategy position bar time
  = match firstMatch (exitRules strategy position bar time) with
    | Some r => (true, setReason position r)
    | None => (false, position)
    end
  /\ (forall enabled percent,
        shouldExit
          (withExitConditions strategy
             (withTrailingStop (exitConditions (parameters strategy)) enabled percent))
          position bar time
        = shouldExit strategy position bar time)
  /\ (reason (snd (shouldExit strategy position bar time)) = trailing_stop ->
      fst (shouldExit strategy position bar time) = false
      /\ reason position = trailing_stop).
Proof.
  split; [apply shouldExit_firstMatch | split].
  - intros enabled percent. rewrite !shouldExit_firstMatch. reflexivity.
  - rewrite shouldExit_firstMatch.
    destruct (firstMatch _) as [r |] eqn:Er; simpl; [| auto].
    unfold exitRules, firstMatch in Er.
    repeat match type of Er with
           | (if ?b then _ else _) = _ => destruct b
           end; inversion Er; subst; discriminate.
Qed.

(** ** Sizing and fills *)

(** The strategy with other values in the two parameters the simulator never
    reads: the dollar risk per trade and the slippage buffer. *)
Definition withRiskAndSlippage (strategy : Strategy) (risk slip : num) : Strategy :=
  let p := parameters strategy in
  {| id := id strategy; name := name strategy; description := description strategy;
     type := type strategy;
     parameters :=
       {| maxPositions := maxPositions p; positionSize := positionSize p;
          riskPerTrade := risk; maxDailyTrades := maxDailyTrades p;
          stopLoss := stopLoss p; stopLossDollar := stopLossDollar p;
          stopLossATR := stopLossATR p; takeProfit := takeProfit p;
          takeProfitDollar := takeProfitDollar p; maxDrawdownLimit := maxDrawdownLimit p;
          entryConditions := entryConditions p; exitConditions := exitConditions p;
          commissionPerTrade := commissionPerTrade p; slippageBuffer := slip;
          tradingHours := tradingHours p; avoidNewsMinutes := avoidNewsMinutes p |};
     tickers := tickers strategy; isActive := isActive strategy |}.

(** Half of the one-cent synthetic spread. *)
Definition halfSpread : num := div #0.01 #2.

Lemma halfSpread_value : halfSpread = Fin (Qmake 1 200).
Proof. reflexivity. Qed.

Lemma sorted_trivially {A} (xs : list A) : StronglySorted (fun _ _ => True) xs.
Proof.
  induction xs as [| x xs IH]; constructor; [exact IH |].
  apply Forall_forall. intros; exact I.
Qed.

Lemma tickerStep_withRiskAndSlippage strategy risk slip ticker dayData currentEquity i bar st :
  tickerStep (withRiskAndSlippage strategy risk slip) ticker dayData currentEquity i bar st
  = tickerStep strategy ticker dayData currentEquity i bar st.
Proof. reflexivity. Qed.

Lemma tickerLoop_withRiskAndSlippage strategy risk slip ticker dayData currentEquity bars :
  forall i st,
    tickerLoop (withRiskAndSlippage strategy risk slip) ticker dayData currentEquity bars i st
    = tickerLoop strategy ticker dayData currentEquity bars i st.
Proof.
  induction bars as [| bar rest IH]; intros i st; simpl; [reflexivity |].
  rewrite IH, tickerStep_withRiskAndSlippage. reflexivity.
Qed.


(** ** Entry rules *)

Section NumFacts.

Open Scope Q_scope.

Lemma fin_eqv q : eqv (fin q) (Fin q).
Proof. simpl. apply Qred_correct. Qed.

Lemma lt_fin_l q x : lt (fin q) (Fin x) = lt (Fin q) (Fin x).
Proof.
  unfold fin. apply eq_true_iff_eq. rewrite !lt_fin. now rewrite Qred_correct.
Qed.

Lemma lt_fin_r q x : lt (Fin x) (fin q) = lt (Fin x) (Fin q).
Proof.
  unfold fin. apply eq_true_iff_eq. rewrite !lt_fin. now rewrite Qred_correct.
Qed.

Lemma mul_comm x y : mul x y = mul y x.
Proof.
  destruct x as [a | | |], y as [b | | |]; simpl; try reflexivity;
    try (destruct (_ ?= 0); reflexivity).
  unfold fin. f_equal. apply Qred_complete. ring.
Qed.

(** Without [NaN], [<] is the negation of the converse [<=]. *)
Lemma lt_negb_le x y : isNaN x = false -> isNaN y = false -> lt x y = negb (le y x).
Proof. destruct x, y; simpl; intros; congruence. Qed.

Lemma orDefault_not_NaN x d : isNaN d = false -> isNaN (orDefault x d) = false.
Proof. unfold orDefault. destruct x; simpl; auto; destruct (Qeq_bool q 0); auto. Qed.

(** For volumes, which are never negative, a ratio above a factor is the
    same as the numerator above the factor times the denominator, the zero
    denominator included. *)
Lemma ratio_gt a b k :
  0 <= a -> 0 <= b -> 0 < k ->
  gt (div (Fin a) (Fin b)) (Fin k) = gt (Fin a) (mul (Fin k) (Fin b)).
Proof.
  intros Ha Hb Hk. unfold gt. simpl mul. rewrite lt_fin_l.
  apply eq_true_iff_eq. rewrite lt_fin. simpl div.
  destruct (Qeq_bool b 0) eqn:Eb.
  - apply Qeq_bool_iff in Eb.
    destruct (a ?= 0) eqn:Ea; simpl.
    + apply Qeq_alt in Ea. split; [discriminate | intros H; exfalso; nra].
    + apply Qlt_alt in Ea. exfalso; lra.
    + apply Qgt_alt in Ea. split; [intros _; nra | reflexivity].
  - apply Qeq_bool_false_neq in Eb. rewrite lt_fin_r, lt_fin.
    assert (Hb' : 0 < b) by (destruct (Qlt_le_dec 0 b); [assumption | exfalso; apply Eb; lra]).
    split; intro H.
    + assert (E : a == (a / b) * b) by (field; exact Eb).
      rewrite E. apply Qmult_lt_compat_r; assumption.
    + apply Qlt_shift_div_l; assumption.
Qed.

End NumFacts.

(** The entry decision in the claim's words, for a volume threshold and a
    price-change threshold (in percent of the prior close): the generic
    pre-filters first, then the predicate of the strategy's family. *)
Definition entryBy (volume change : num) (strategy : Strategy)
    (data : list PolygonBar) (index : nat) : bool :=
  match nth_error data index, nth_error data (index - 1) with
  | Some current, Some prev =>
      (20 <=? index)%nat
      && ge (v current) volume
      && ge (abs (div (sub (c current) (c prev)) (c prev))) (div change #100)
      && match type strategy with
         | microscalping =>
             gt (v current) (mul #1.5 (v prev)) && gt (c current) (c prev)
         | momentum =>
             (5 <=? index)%nat
             && gt (v current) (mul #1.2 (div (sum (map v (slice data (index - 5) index))) #5))
             && gt (c current) (c prev)
         | mean_reversion =>
             lt (c current) (mul #0.98 (div (sum (map c (slice data (index - 20) index))) #20))
         | breakout | gap_and_go | news_scalping => false
         end
  | _, _ => false
  end.

(** With the thresholds as configured: what the claim states. *)
Definition shouldEnterAsClaimed (strategy : Strategy) (data : list PolygonBar) (index : nat) : bool :=
  entryBy (volumeThreshold (entryConditions (parameters strategy)))
          (priceChangeThreshold (entryConditions (parameters strategy)))
          strategy data index.

(** With a threshold configured as 0 (or [NaN]) replaced by its default. *)
Definition shouldEnterAmended (strategy : Strategy) (data : list PolygonBar) (index : nat) : bool :=
  entryBy (orDefault (volumeThreshold (entryConditions (parameters strategy))) #100000)
          (orDefault (priceChangeThreshold (entryConditions (parameters strategy))) #0.1)
          strategy data index.

(** A bar of the data source: a finite positive close, a finite volume that
    is not negative. *)
Definition barOk (bar : PolygonBar) : bool :=
  isFinite (c bar) && isFinite (v bar) && lt #0 (c bar) && le #0 (v bar).

Lemma barOk_inv bar :
  barOk bar = true ->
  exists pc pv, c bar = Fin pc /\ v bar = Fin pv /\ (0 < pc)%Q /\ (0 <= pv)%Q.
Proof.
  unfold barOk. intros H. apply andb_prop in H. destruct H as [H Hv].
  apply andb_prop in H. destruct H as [H Hc].
  apply andb_prop in H. destruct H as [Hfc Hfv].
  destruct (c bar) as [pc | | |]; try discriminate.
  destruct (v bar) as [pv | | |]; try discriminate.
  exists pc, pv. apply lt_fin in Hc. apply le_fin in Hv. auto.
Qed.

Lemma div100_not_NaN x : isNaN x = false -> isNaN (div x #100) = false.
Proof. destruct x; simpl; auto. Qed.

Lemma relativeChange_not_NaN a b :
  (0 < b)%Q -> isNaN (abs (div (sub (Fin a) (Fin b)) (Fin b))) = false.
Proof.
  intros Hb. simpl.
  destruct (Qeq_bool b 0) eqn:E; [| reflexivity].
  apply Qeq_bool_iff in E. exfalso. lra.
Qed.


(** ** Profit factor *)

Section Sums.

Open Scope Q_scope.

Definition qval (x : num) : Q := match x with Fin q => q | _ => 0 end.

Definition Qsum (xs : list num) : Q := fold_right (fun x acc => qval x + acc) 0 xs.

Lemma fold_add_finite xs : forall a,
  forallb isFinite xs = true ->
  exists q, fold_left add xs (Fin a) = Fin q /\ q == a + Qsum xs.
Proof.
  induction xs as [| x xs IH]; intros a Hfin; simpl in *.
  - exists a. split; [reflexivity | ring].
  - apply andb_prop in Hfin. destruct Hfin as [Hx Hxs].
    destruct x as [b | | |]; try discriminate. simpl.
    destruct (IH (Qred (a + b)) Hxs) as (q & E & Hq).
    exists q. split; [exact E |]. rewrite Hq, Qred_correct. ring.
Qed.

Lemma sum_finite xs :
  forallb isFinite xs = true -> exists q, sum xs = Fin q /\ q == Qsum xs.
Proof.
  intros Hfin. destruct (fold_add_finite xs 0 Hfin) as (q & E & Hq).
  exists q. split; [exact E |]. rewrite Hq. ring.
Qed.

Lemma Qsum_negative xs :
  Forall (fun x => lt x (Fin 0) = true) xs -> forallb isFinite xs = true ->
  xs <> [] -> Qsum xs < 0.
Proof.
  intros Hneg. induction Hneg as [| x xs Hx Hxs IH]; intros Hfin Hne; [congruence |].
  simpl in *. apply andb_prop in Hfin. destruct Hfin as [Hfx Hfxs].
  destruct x as [b | | |]; try discriminate. apply lt_fin in Hx. simpl.
  destruct xs as [| y ys]; [simpl; lra |].
  assert (Qsum (y :: ys) < 0) by (apply IH; [assumption | discriminate]). lra.
Qed.

Lemma ofNat_pos n : (0 < n)%nat -> 0 < inject_Z (Z.of_nat n).
Proof.
  intros H. replace 0 with (inject_Z 0) by reflexivity.
  rewrite <- Zlt_Qlt. lia.
Qed.

End Sums.

Definition isWinner (trade : Trade) : bool := gt (pnl trade) #0.
Definition isLoser (trade : Trade) : bool := lt (pnl trade) #0.

(** Gross profit and gross loss, and the profit factor in the spec's words:
    their ratio when some trade lost, 0 otherwise. *)
Definition grossProfit (trades : list Trade) : num := sum (map pnl (filter isWinner trades)).
Definition grossLoss (trades : list Trade) : num := abs (sum (map pnl (filter isLoser trades))).

Definition profitFactorSpec (trades : list Trade) : num :=
  if existsb isLoser trades then div (grossProfit trades) (grossLoss trades) else #0.

Lemma filter_finite (f : Trade -> bool) trades :
  forallb (fun trade => isFinite (pnl trade)) trades = true ->
  forallb isFinite (map pnl (filter f trades)) = true.
Proof.
  induction trades as [| x xs IH]; simpl; [reflexivity |].
  intros H. apply andb_prop in H. destruct H as [Hx Hxs].
  destruct (f x); simpl; [rewrite Hx |]; auto.
Qed.

Lemma existsb_filter (f : Trade -> bool) trades :
  existsb f trades = match filter f trades with [] => false | _ => true end.
Proof.
  induction trades as [| x xs IH]; simpl; [reflexivity |].
  destruct (f x); simpl; [reflexivity | exact IH].
Qed.

Lemma losers_negative trades :
  Forall (fun x => lt x #0 = true) (map pnl (filter isLoser trades)).
Proof.
  induction trades as [| x xs IH]; simpl; [constructor |].
  destruct (isLoser x) eqn:E; simpl; [constructor; assumption | assumption].
Qed.

(** The gross loss of a log of finite results is finite, and positive exactly
    when some trade lost. *)
Lemma grossLoss_shape trades :
  forallb (fun trade => isFinite (pnl trade)) trades = true ->
  exists q n, sum (map pnl (filter isLoser trades)) = Fin q
    /\ List.length (filter isLoser trades) = n
    /\ (existsb isLoser trades = true -> (q < 0)%Q /\ (0 < n)%nat)
    /\ (existsb isLoser trades = false -> q = 0%Q /\ filter isLoser trades = []).
Proof.
  intros Hfin. pose proof (filter_finite isLoser trades Hfin) as Hf.
  destruct (sum_finite _ Hf) as (q & E & Hq).
  exists q, (List.length (filter isLoser trades)).
  rewrite existsb_filter.
  split; [exact E | split; [reflexivity | split]]; intros H.
  - destruct (filter isLoser trades) as [| x xs] eqn:Ef; [discriminate H |].
    split; [| simpl; lia].
    rewrite Hq. apply Qsum_negative; auto.
    + rewrite <- Ef. apply losers_negative.
    + simpl. discriminate.
  - destruct (filter isLoser trades) as [| x xs]; [| discriminate H].
    simpl in E. inversion E. auto.
Qed.

Lemma grossProfit_finite trades :
  forallb (fun trade => isFinite (pnl trade)) trades = true ->
  exists g, grossProfit trades = Fin g.
Proof.
  intros Hfin. destruct (sum_finite _ (filter_finite isWinner trades Hfin)) as (g & E & _).
  exists g. exact E.
Qed.

Lemma eqv_finite x y : eqv x y -> isFinite y = true -> isFinite x = true.
Proof. destruct x, y; simpl; auto; contradiction. Qed.

Lemma profitFactorSpec_finite trades :
  forallb (fun trade => isFinite (pnl trade)) trades = true ->
  isFinite (profitFactorSpec trades) = true.
Proof.
  intros Hfin. unfold profitFactorSpec.
  destruct (existsb isLoser trades) eqn:Ex; [| reflexivity].
  destruct (grossProfit_finite trades Hfin) as (g & Eg).
  destruct (grossLoss_shape trades Hfin) as (q & n & Eq & _ & Hlose & _).
  destruct (Hlose Ex) as [Hq _].
  unfold grossLoss. rewrite Eg, Eq. simpl.
  destruct (Qeq_bool (Qred (Qabs q)) 0) eqn:E0; [| reflexivity].
  apply Qeq_bool_iff in E0. rewrite Qred_correct in E0.
  exfalso. rewrite Qabs_neg in E0 by lra. lra.
Qed.

(** The analyzer in force computes the spec's profit factor. *)
Lemma profitFactor_calculatePerformanceMetrics sqrt_pos pow_pos this trades equityCurve :
  forallb (fun trade => isFinite (pnl trade)) trades = true ->
  profitFactor (calculatePerformanceMetrics sqrt_pos pow_pos this trades equityCurve)
  = profitFactorSpec trades.
Proof.
  intros Hfin.
  assert (E : profitFactor (calculatePerformanceMetrics sqrt_pos pow_pos this trades equityCurve)
              = if gt (grossLoss trades) #0
                then div (grossProfit trades) (grossLoss trades) else #0).
  { destruct trades; reflexivity. }
  rewrite E. unfold profitFactorSpec.
  destruct (grossLoss_shape trades Hfin) as (q & n & Eq & _ & Hlose & Hnone).
  unfold grossLoss at 1. rewrite Eq. unfold gt, abs. rewrite lt_fin_r.
  destruct (existsb isLoser trades).
  - destruct (Hlose eq_refl) as [Hq _].
    replace (lt #0 (Fin (Qabs q))) with true; [reflexivity |].
    symmetry. apply lt_fin. rewrite Qabs_neg by lra. lra.
  - destruct (Hnone eq_refl) as [-> _]. reflexivity.
Qed.

Lemma div_fin_nonzero a b : ~ (b == 0)%Q -> div (Fin a) (Fin b) = Fin (Qred (a / b)).
Proof.
  intros Hb. simpl. destruct (Qeq_bool b 0) eqn:E; [| reflexivity].
  apply Qeq_bool_iff in E. contradiction.
Qed.

Lemma profitFactor3_unfold sqrt_pos pow_pos this trades equityCurve dd :
  profitFactor (calculatePerformanceMetrics3 sqrt_pos pow_pos this trades equityCurve dd)
  = let winners := filter isWinner trades in
    let losers := filter isLoser trades in
    let avgWin := match winners with
                  | [] => #0
                  | _ => div (sum (map pnl winners)) (lengthNum winners)
                  end in
    let avgLoss := match losers with
                   | [] => #0
                   | _ => abs (div (sum (map pnl losers)) (lengthNum losers))
                   end in
    if gt avgLoss #0
    then div (mul avgWin (lengthNum winners)) (mul avgLoss (lengthNum losers))
    else #0.
Proof. destruct trades; reflexivity. Qed.

(** So does the analyzer of the synthetic variant, which goes through the
    average win and the average loss. *)
Lemma profitFactor_calculatePerformanceMetrics3 sqrt_pos pow_pos this trades equityCurve dd :
  forallb (fun trade => isFinite (pnl trade)) trades = true ->
  eqv (profitFactor (calculatePerformanceMetrics3 sqrt_pos pow_pos this trades equityCurve dd))
      (profitFactorSpec trades)
  /\ (existsb isLoser trades = false ->
      profitFactor (calculatePerformanceMetrics3 sqrt_pos pow_pos this trades equityCurve dd) = #0).
Proof.
  intros Hfin. rewrite profitFactor3_unfold. cbv zeta.
  unfold profitFactorSpec, grossLoss, grossProfit.
  destruct (grossLoss_shape trades Hfin) as (q & n & Eq & En & Hlose & Hnone).
  destruct (sum_finite _ (filter_finite isWinner trades Hfin)) as (g & Eg & Hg).
  destruct (existsb isLoser trades).
  - split; [| discriminate].
    destruct (Hlose eq_refl) as [Hq Hn]. rewrite Eq, Eg.
    set (m := inject_Z (Z.of_nat n)).
    assert (Hm : (0 < m)%Q) by (apply ofNat_pos; exact Hn).
    destruct (filter isLoser trades) as [| l0 ls] eqn:El; [simpl in En; lia |].
    unfold lengthNum, ofNat, ofZ. rewrite En. fold m.
    assert (Ew : exists a, match filter isWinner trades with
                           | [] => #0
                           | _ :: _ =>
                               div (Fin g)
                                 (Fin (inject_Z (Z.of_nat (List.length (filter isWinner trades)))))
                           end = Fin a
                           /\ (a * inject_Z (Z.of_nat (List.length (filter isWinner trades))) == g)%Q).
    { destruct (filter isWinner trades) as [| w0 ws].
      - exists 0%Q. split; [reflexivity |]. simpl in Hg. rewrite Hg. simpl. ring.
      - assert (Hw : (0 < inject_Z (Z.of_nat (List.length (w0 :: ws))))%Q)
          by (apply ofNat_pos; simpl; lia).
        rewrite div_fin_nonzero by lra.
        eexists. split; [reflexivity |]. rewrite Qred_correct. field. lra. }
    destruct Ew as (a & -> & Ha).
    rewrite (div_fin_nonzero q) by lra.
    assert (Habs : (Qabs (Qred (q / m)) == - q / m)%Q).
    { rewrite Qred_correct, Qabs_neg.
      - field. lra.
      - apply Qle_shift_div_r; [assumption | lra]. }
    assert (Hpos : (0 < - q / m)%Q) by (apply Qlt_shift_div_l; [assumption | lra]).
    assert (Hloss : (Qred (Qabs (Qred (q / m))) * m == - q)%Q).
    { rewrite Qred_correct, Habs. field. lra. }
    unfold abs, gt, mul, fin. cbn [lt].
    replace (negb (Qle_bool (Qred (Qabs (Qred (q / m)))) 0)) with true.
    2:{ symmetry. apply negb_true_iff. destruct (Qle_bool _ 0) eqn:E0; [| reflexivity].
        apply Qle_bool_iff in E0. rewrite Qred_correct, Habs in E0. exfalso. lra. }
    rewrite !div_fin_nonzero.
    + cbn [eqv]. rewrite !Qred_correct.
      assert (Hloss' : (Qabs (q / m) * m == - q)%Q)
        by (rewrite <- Hloss, !Qred_correct; reflexivity).
      rewrite Hloss', Ha, (Qabs_neg q) by lra. reflexivity.
    + rewrite Qred_correct, Qabs_neg by lra. lra.
    + rewrite Qred_correct, Hloss. lra.
  - destruct (Hnone eq_refl) as [_ ->]. split; [reflexivity | reflexivity].
Qed.


(** ** Calendar and equity curve *)

(** [n] consecutive calendar days from [from]. *)
Fixpoint calendarDays (from : Z) (n : nat) : list Z :=
  match n with
  | O => []
  | S n => from :: calendarDays (addDays from 1) n
  end.

Lemma calendarDays_length from n : List.length (calendarDays from n) = n.
Proof. revert from. induction n as [| n IH]; intros from; simpl; auto. Qed.

Lemma daysLeft_after currentDate endDate :
  currentDate <= endDate ->
  Z.to_nat ((endDate - currentDate) / DAY + 1)
  = S (Z.to_nat ((endDate - addDays currentDate 1) / DAY + 1)).
Proof.
  intros Hle. unfold addDays.
  replace (endDate - (currentDate + 1 * DAY)) with (endDate - currentDate + (-1) * DAY) by lia.
  rewrite Z.div_add by (unfold DAY; lia).
  assert (0 <= (endDate - currentDate) / DAY) by (apply Z.div_pos; unfold DAY; lia).
  generalize dependent ((endDate - currentDate) / DAY). intros q Hq. lia.
Qed.

Lemma daysLeft_none currentDate endDate :
  endDate < currentDate -> Z.to_nat ((endDate - currentDate) / DAY + 1) = 0%nat.
Proof.
  intros Hlt.
  assert ((endDate - currentDate) / DAY < 0) by (apply Z.div_lt_upper_bound; unfold DAY; lia).
  generalize dependent ((endDate - currentDate) / DAY). intros q Hq. lia.
Qed.

(** With fuel for every day left, the loop ends and has appended the
    weekdays among them. *)
Lemma getTradingDaysLoop_spec fuel : forall currentDate endDate tradingDays,
  (Z.to_nat ((endDate - currentDate) / DAY + 1) <= fuel)%nat ->
  getTradingDaysLoop fuel currentDate endDate tradingDays
  = Some (tradingDays ++
          filter (fun d => negb (isWeekend d))
                 (calendarDays currentDate (Z.to_nat ((endDate - currentDate) / DAY + 1)))).
Proof.
  induction fuel as [| fuel IH]; intros currentDate endDate tradingDays Hfuel.
  - simpl. destruct (currentDate <=? endDate) eqn:E.
    + apply Z.leb_le in E. rewrite (daysLeft_after E) in Hfuel. lia.
    + apply Z.leb_gt in E. rewrite (daysLeft_none E). simpl. now rewrite app_nil_r.
  - simpl. destruct (currentDate <=? endDate) eqn:E.
    + apply Z.leb_le in E. rewrite (daysLeft_after E) in *.
      rewrite IH by lia. simpl. unfold isWeekend at 2. rewrite negb_orb.
      destruct (negb (getDay currentDate =? 0) && negb (getDay currentDate =? 6));
        [rewrite <- app_assoc |]; reflexivity.
    + apply Z.leb_gt in E. rewrite (daysLeft_none E). simpl. now rewrite app_nil_r.
Qed.

(** [getTradingDays] terminates within its fuel: the weekdays of the range. *)
Lemma getTradingDays_spec this :
  getTradingDays this
  = filter (fun d => negb (isWeekend d))
           (calendarDays (startDate this) (tradingDaysFuel this)).
Proof.
  unfold getTradingDays. rewrite getTradingDaysLoop_spec by (unfold tradingDaysFuel; lia).
  reflexivity.
Qed.

Lemma filter_negb_length {A} (f : A -> bool) xs :
  List.length (filter (fun x => negb (f x)) xs)
  = (List.length xs - List.length (filter f xs))%nat.
Proof.
  induction xs as [| x xs IH]; [reflexivity |].
  pose proof (filter_length_le f xs). cbn [filter].
  destruct (f x); cbn [negb List.length]; lia.
Qed.

Lemma dayStep_dates this strategy tickerData days : forall st,
  map date (snd (fst (fold_left (dayStep this strategy tickerData) days st)))
  = map date (snd (fst st)) ++ days.
Proof.
  induction days as [| d days IH]; intros [[trades curve] eq]; simpl.
  - now rewrite app_nil_r.
  - rewrite IH. simpl. rewrite map_app, <- app_assoc. reflexivity.
Qed.


(** * Concrete evaluations *)

Import Examples.

(** Bars in timestamp order, decided. *)
Fixpoint sortedb (bars : list PolygonBar) : bool :=
  match bars with
  | [] => true
  | a :: rest => forallb (fun b => t a <=? t b) rest && sortedb rest
  end.

Lemma sortedb_sound bars : sortedb bars = true -> StronglySorted byTime bars.
Proof.
  induction bars as [| a rest IH]; simpl; intros H; constructor.
  - apply IH. apply andb_prop in H. tauto.
  - apply andb_prop in H. destruct H as [H _]. rewrite forallb_forall in H.
    apply Forall_forall. intros b Hb. apply Z.leb_le. auto.
Qed.


(** C4, as stated, fails: with a negative capital and an end date one day
    before the start date, on a network that is down, [runBacktest] rejects
    nothing and returns a result computed from that capital. *)
Lemma runBacktest_invalid_input_not_rejected :
  exists r s',
    runBacktest sqrtDown powInterpolated offline
      (exEngine #(-5000) [meanReversion1] monday (monday - DAY))
      (construct (exEngine #(-5000) [meanReversion1] monday (monday - DAY)) tt)
    = (Ret [r], s')
    /\ strategyId r = "mean-reversion-1"
    /\ r_capital r = #(-5000)
    /\ totalTrades (performance r) = #173.
Proof.
  eexists. eexists. split; [vm_compute; reflexivity |].
  repeat split; reflexivity.
Qed.

(** Witness of C4, amended: the same input. *)
Lemma runBacktest_accepts_invalid_input_witness :
  exists results s',
    runBacktest sqrtDown powInterpolated offline
      (exEngine #(-5000) [meanReversion1] monday (monday - DAY))
      (construct (exEngine #(-5000) [meanReversion1] monday (monday - DAY)) tt)
    = (Ret results, s')
    /\ List.length results = List.length [meanReversion1]
    /\ Forall (fun r => r_capital r = #(-5000)) results.
Proof.
  refine (@runBacktest_accepts_invalid_input sqrtDown powInterpolated unit offline
            (exEngine #(-5000) [meanReversion1] monday (monday - DAY)) _ _).
  left. reflexivity.
Defined.






(** The synthetic result has no trades and one equity point per iteration of
    the generator's loop, [ceil ((endDate - startDate) / DAY) + 1] of them
    for a range that does not end before it starts: one per calendar day. *)
Theorem generateMockBacktestResult_equity_curve (World : Type) this strategy (s : State World) :
  exists r s',
    generateMockBacktestResult this strategy s = (Ret r, s')
    /\ trades r = []
    /\ List.length (equityCurve r) = mockDays this.
Proof.
  destruct (generateMockBacktestResult_returns this strategy s) as (r & s' & E & _ & _ & Ht & Hl).
  exists r, s'. auto.
Qed.

(** C3 on the fallback path: for the range from Saturday 13 to Sunday 14
    January 2024, two calendar days, both of the weekend, there is no trading
    day, and the fallback's equity curve has two points, dated that Saturday
    and that Sunday. *)
Theorem fallback_equity_curve_has_weekend_points :
  getTradingDays (exEngine #50000 [meanReversion1] saturday (saturday + DAY)) = []
  /\ exists r s',
       runBacktest sqrtDown powInterpolated offline
         (exEngine #50000 [meanReversion1] saturday (saturday + DAY))
         (construct (exEngine #50000 [meanReversion1] saturday (saturday + DAY)) tt)
       = (Ret [r], s')
       /\ map date (equityCurve r) = [saturday; saturday + DAY]
       /\ map getDay (map date (equityCurve r)) = [6; 0].
Proof.
  split; [vm_compute; reflexivity |].
  eexists. eexists. split; [vm_compute; reflexivity |].
  split; vm_compute; reflexivity.
Qed.

(** With a trade in the log and no point on the curve, the average of the
    returns is 0 / 0: the volatility is [NaN], whatever the runtime. *)
Theorem volatility_of_empty_curve sqrt_pos pow_pos this trade trades :
  volatility (calculatePerformanceMetrics sqrt_pos pow_pos this (trade :: trades) []) = NaN.
Proof. reflexivity. Qed.

(** C5 on three inputs.  A log of one trade with an empty curve: the
    volatility is [NaN].  Five tickers that fall from 97 to 1 within a minute,
    a quarter of the equity in each, over a range of two days: the equity
    ends below zero and the annualized return and the Calmar ratio are [NaN].
    A strategy whose [id] is empty, on a network that is down: the seed is
    [NaN] and so are most fields of the synthetic report. *)
Theorem performance_not_finite :
  volatility
    (calculatePerformanceMetrics sqrtDown powInterpolated
       (exEngine #50000 [meanReversion1] monday monday) [exTrade #10] []) = NaN
  /\ (exists r s',
        runBacktest sqrtDown powInterpolated (serving (exDay #300000 #97 #1))
          (exEngine #50000 [meanReversionFive] monday10 (monday10 + 2 * DAY))
          (construct (exEngine #50000 [meanReversionFive] monday10 (monday10 + 2 * DAY)) tt)
        = (Ret [r], s')
        /\ List.length (trades r) = 5%nat
        /\ annualizedReturn (performance r) = NaN
        /\ calmarRatio (performance r) = NaN)
  /\ (exists r s',
        runBacktest sqrtDown powInterpolated offline
          (exEngine #50000 [momentumNoId] monday (monday + 4 * DAY))
          (construct (exEngine #50000 [momentumNoId] monday (monday + 4 * DAY)) tt)
        = (Ret [r], s')
        /\ sharpeRatio (performance r) = NaN
        /\ volatility (performance r) = NaN
        /\ profitFactor (performance r) = NaN
        /\ totalTrades (performance r) = NaN).
Proof.
  split; [reflexivity | split].
  - eexists. eexists. split; [vm_compute; reflexivity |].
    repeat split; reflexivity.
  - eexists. eexists. split; [vm_compute; reflexivity |].
    repeat split; reflexivity.
Qed.

(** * Finite results *)

Lemma finite_add x y : isFinite x = true -> isFinite y = true -> isFinite (add x y) = true.
Proof. destruct x, y; simpl; auto. Qed.

Lemma finite_sub x y : isFinite x = true -> isFinite y = true -> isFinite (sub x y) = true.
Proof. destruct x, y; simpl; auto. Qed.

Lemma finite_mul x y : isFinite x = true -> isFinite y = true -> isFinite (mul x y) = true.
Proof. destruct x, y; simpl; auto; discriminate. Qed.

Lemma finite_div x b :
  isFinite x = true -> Qeq_bool b 0 = false -> isFinite (div x (Fin b)) = true.
Proof. destruct x; simpl; try discriminate. intros _ ->. reflexivity. Qed.

Lemma finite_floor x : isFinite x = true -> isFinite (floor x) = true.
Proof. destruct x; simpl; auto. Qed.

Lemma finite_orDefault x d :
  isFinite x = true -> isFinite d = true -> isFinite (orDefault x d) = true.
Proof. unfold orDefault. destruct (truthy x); auto. Qed.

(** A round trip between two bars of the data source, sized from a finite
    equity with finite parameters, has a finite P&L. *)
Lemma roundTrip_pnl_finite strategy ticker currentEquity entry exit r :
  barOk entry = true -> barOk exit = true ->
  isFinite currentEquity = true ->
  isFinite (positionSize (parameters strategy)) = true ->
  isFinite (commissionPerTrade (parameters strategy)) = true ->
  isFinite (pnl (roundTrip strategy ticker currentEquity entry exit r)) = true.
Proof.
  intros Hentry Hexit Heq Hsize Hfee.
  destruct (barOk_inv _ Hentry) as (pc & pv & Ec & _ & Hpc & _).
  destruct (barOk_inv _ Hexit) as (xc & xv & Ex & _ & _ & _).
  assert (Hnz : Qeq_bool pc 0 = false).
  { destruct (Qeq_bool pc 0) eqn:E; [| reflexivity].
    apply Qeq_bool_iff in E. exfalso. lra. }
  assert (Hqty : isFinite (calculatePositionSize currentEquity
                             (orDefault (positionSize (parameters strategy)) #20) (c entry)) = true).
  { unfold calculatePositionSize. rewrite Ec.
    apply finite_floor, finite_div; [| exact Hnz].
    apply finite_mul; [exact Heq |].
    apply finite_div; [| reflexivity]. apply finite_orDefault; [exact Hsize | reflexivity]. }
  assert (Hbuy : isFinite (calculateEntryPrice entry buy) = true)
    by (unfold calculateEntryPrice; rewrite Ec; reflexivity).
  assert (Hsell : isFinite (calculateEntryPrice exit sell) = true)
    by (unfold calculateEntryPrice; rewrite Ex; reflexivity).
  unfold roundTrip, closePosition, openPosition, calculateSlippage.
  cbn [pnl entryPrice quantity fees slippage].
  repeat first [ apply finite_sub | apply finite_mul | apply finite_add | assumption
               | apply finite_orDefault | rewrite Ec | rewrite Ex | reflexivity ].
Qed.

(** The trades the simulator emits on bars of the data source have finite
    results: the hypothesis of C6 holds of every log the engine builds from
    such bars. *)
Theorem simulateTickerTrading_pnl_finite strategy ticker dayData currentEquity :
  forallb barOk dayData = true ->
  isFinite currentEquity = true ->
  isFinite (positionSize (parameters strategy)) = true ->
  isFinite (commissionPerTrade (parameters strategy)) = true ->
  forallb (fun trade => isFinite (pnl trade))
    (simulateTickerTrading strategy ticker dayData currentEquity) = true.
Proof.
  intros Hbars Heq Hsize Hfee. apply forallb_forall. intros trade Hin.
  destruct (@simulateTickerTrading_roundTrips strategy ticker dayData currentEquity
              (fun _ _ => True) (fun _ => I) (sorted_trivially dayData)) as [Htrades _].
  destruct (Htrades trade Hin) as (e & x & r & lastBar & _ & He & Hx & _ & _ & _ & ->).
  rewrite forallb_forall in Hbars. apply roundTrip_pnl_finite; auto.
Qed.

Lemma simulateTickerTrading_pnl_finite_witness :
  forallb (fun trade => isFinite (pnl trade))
    (simulateTickerTrading meanReversion1 "AAPL" (exDay #300000 #97 #97.5) #50000) = true.
Proof.
  refine (@simulateTickerTrading_pnl_finite meanReversion1 "AAPL"
            (exDay #300000 #97 #97.5) #50000 _ _ _ _); reflexivity.
Defined.

(** ** The synthetic report *)

Section SyntheticFinite.

Open Scope Q_scope.

Variable World : Type.

(** A seed the generator is meant for: a finite number that is not negative. *)
Definition seedOk (s : State World) : Prop :=
  exists q, seed s = Fin q /\ 0 <= q.

Definition inUnit (x : num) : Prop := exists r, x = Fin r /\ 0 <= r < 1.

Definition positive (x : num) : Prop := exists q, x = Fin q /\ 0 < q.

(** [m] returns from every state with a good seed, leaves a good seed, and its
    result satisfies [P]. *)
Definition draws {A} (m : M World A) (P : A -> Prop) : Prop :=
  forall s, seedOk s -> exists a s', m s = (Ret a, s') /\ seedOk s' /\ P a.

Lemma draws_ret {A} (a : A) (P : A -> Prop) : P a -> draws (ret a) P.
Proof. intros H s Hs. exists a, s. auto. Qed.

Lemma draws_bind {A B} (m : M World A) (k : A -> M World B) P Q :
  draws m P -> (forall a, P a -> draws (k a) Q) -> draws (bind m k) Q.
Proof.
  intros Hm Hk s Hs. destruct (Hm s Hs) as (a & s' & E & Hs' & Pa).
  destruct (Hk a Pa s' Hs') as (b & s'' & E' & Hs'' & Qb).
  exists b, s''. unfold bind. rewrite E. auto.
Qed.

Lemma draws_weaken {A} (m : M World A) (P Q : A -> Prop) :
  draws m P -> (forall a, P a -> Q a) -> draws m Q.
Proof.
  intros Hm HPQ s Hs. destruct (Hm s Hs) as (a & s' & E & Hs' & Pa).
  exists a, s'. auto.
Qed.

Lemma Qtrunc_floor y : 0 <= y -> Qtrunc y = Qfloor y.
Proof.
  destruct y as [n d]. unfold Qtrunc, Qfloor, Qle. simpl. intros H.
  apply Z.quot_div_nonneg; lia.
Qed.

(** The remainder of a number that is not negative lies in [[0, m)]. *)
Lemma rem_range x m :
  0 <= x -> 0 < m -> exists q, rem (Fin x) (Fin m) = Fin q /\ 0 <= q < m.
Proof.
  intros Hx Hm. simpl.
  destruct (Qeq_bool m 0) eqn:E; [apply Qeq_bool_iff in E; exfalso; lra |].
  eexists. split; [reflexivity |]. rewrite Qred_correct.
  assert (Hy : 0 <= x / m) by (apply Qle_shift_div_l; [assumption | lra]).
  rewrite (Qtrunc_floor Hy).
  pose proof (Qfloor_le (x / m)) as Hlo. pose proof (Qlt_floor (x / m)) as Hhi.
  rewrite inject_Z_plus in Hhi. change (inject_Z 1) with 1 in Hhi.
  set (f := inject_Z (Qfloor (x / m))) in *.
  assert (Ex : x == (x / m) * m) by (field; lra).
  split.
  - assert (f * m <= (x / m) * m) by (apply Qmult_le_compat_r; lra). lra.
  - assert ((x / m) * m < (f + 1) * m) by (apply Qmult_lt_compat_r; lra). lra.
Qed.

Lemma lcgNext_ok q :
  0 <= q -> exists q', lcgNext (Fin q) = Fin q' /\ 0 <= q' < 2147483647.
Proof.
  intros Hq. unfold lcgNext. cbn [mul add fin].
  apply rem_range; [| reflexivity].
  rewrite !Qred_correct. nra.
Qed.

Lemma seededRandom_draws : draws (seededRandom (World := World)) inUnit.
Proof.
  intros s (q & Es & Hq). unfold seededRandom. rewrite Es.
  destruct (lcgNext_ok Hq) as (q' & -> & Hlo & Hhi).
  eexists. eexists. split; [reflexivity |]. split.
  - exists q'. auto.
  - rewrite div_fin_nonzero by (intros E; discriminate E).
    eexists. split; [reflexivity |]. rewrite Qred_correct. split.
    + apply Qle_shift_div_l; [reflexivity | lra].
    + apply Qlt_shift_div_r; [reflexivity | lra].
Qed.

Lemma inUnit_finite r : inUnit r -> isFinite r = true.
Proof. intros (q & -> & _). reflexivity. Qed.

(** [a + r * b] for a draw [r], a positive [a] and a [b] that is not negative. *)
Lemma affine_positive a b r :
  0 < a -> 0 <= b -> inUnit r -> positive (add (Fin a) (mul r (Fin b))).
Proof.
  intros Ha Hb (q & -> & Hq). cbn [mul add fin].
  eexists. split; [reflexivity |]. rewrite !Qred_correct. nra.
Qed.

Lemma positive_finite x : positive x -> isFinite x = true.
Proof. intros (q & -> & _). reflexivity. Qed.

Lemma finite_div_positive x y : isFinite x = true -> positive y -> isFinite (div x y) = true.
Proof.
  intros Hx (q & -> & Hq). apply finite_div; [exact Hx |].
  destruct (Qeq_bool q 0) eqn:E; [| reflexivity].
  apply Qeq_bool_iff in E. exfalso. lra.
Qed.

Lemma finite_neg x : isFinite x = true -> isFinite (neg x) = true.
Proof. destruct x; simpl; auto. Qed.

Definition allFinite (p : PerformanceMetrics) : Prop :=
  isFinite (totalReturn p) = true /\ isFinite (annualizedReturn p) = true
  /\ isFinite (sharpeRatio p) = true /\ isFinite (maxDrawdown p) = true
  /\ isFinite (winRate p) = true /\ isFinite (profitFactor p) = true
  /\ isFinite (totalTrades p) = true /\ isFinite (avgTradeReturn p) = true
  /\ isFinite (bestTrade p) = true /\ isFinite (worstTrade p) = true
  /\ isFinite (avgHoldTime p) = true /\ isFinite (volatility p) = true
  /\ isFinite (calmarRatio p) = true /\ isFinite (sortinoRatio p) = true.

Ltac draw := eapply draws_bind; [apply seededRandom_draws | intros ? ?].

Ltac finite :=
  repeat first [ assumption | reflexivity
               | apply finite_add | apply finite_mul | apply finite_sub | apply finite_neg
               | apply finite_orDefault | apply inUnit_finite | apply positive_finite ].

Lemma getStrategyBaseReturn_draws ty :
  draws (getStrategyBaseReturn (World := World) ty) (fun x => isFinite x = true).
Proof.
  unfold getStrategyBaseReturn. do 6 draw. apply draws_ret. destruct ty; finite.
Qed.

Lemma getStrategyHoldTime_draws ty :
  draws (getStrategyHoldTime (World := World) ty) (fun x => isFinite x = true).
Proof.
  unfold getStrategyHoldTime. do 6 draw. apply draws_ret. destruct ty; finite.
Qed.

Lemma mockEquityLoop_draws this n : forall i eq curve,
  draws (mockEquityLoop (World := World) this n i eq curve) (fun _ => True).
Proof.
  induction n as [| n IH]; intros i eq curve; simpl.
  - now apply draws_ret.
  - draw. apply IH.
Qed.

(** The number of synthetic trades is at least 5: positive. *)
Lemma totalTrades_positive r (single : bool) :
  inUnit r ->
  positive (floor (mul (add #50 (mul r #200)) (if single then #0.1 else #1))).
Proof.
  intros (q & -> & Hq). destruct single; cbn [mul add fin floor ofZ];
    (eexists; split; [reflexivity |]).
  - assert (H : 5 <= Qred (Qred (50 + Qred (q * 200)) * 0.1))
      by (rewrite !Qred_correct; nra).
    apply Qfloor_resp_le in H. change (Qfloor 5) with 5%Z in H.
    apply Qlt_le_trans with (inject_Z 5); [reflexivity |]. rewrite <- Zle_Qle. exact H.
  - assert (H : 50 <= Qred (Qred (50 + Qred (q * 200)) * 1))
      by (rewrite !Qred_correct; nra).
    apply Qfloor_resp_le in H. change (Qfloor 50) with 50%Z in H.
    apply Qlt_le_trans with (inject_Z 50); [reflexivity |]. rewrite <- Zle_Qle. exact H.
Qed.

(** On a seed that is a finite number and not negative, every field of the
    synthetic performance report is a finite number. *)
Theorem generateMockBacktestResult_finite this strategy (s : State World) :
  seedOk s ->
  exists r s',
    generateMockBacktestResult this strategy s = (Ret r, s')
    /\ seedOk s' /\ allFinite (performance r).
Proof.
  revert s. change (draws (generateMockBacktestResult this strategy)
                      (fun r => allFinite (performance r))).
  unfold generateMockBacktestResult.
  eapply draws_bind; [apply getStrategyBaseReturn_draws | intros base Hbase].
  eapply draws_bind; [apply seededRandom_draws | intros rVol HrVol].
  eapply draws_bind; [apply seededRandom_draws | intros rDd HrDd].
  eapply draws_bind; [apply seededRandom_draws | intros rWin HrWin].
  eapply draws_bind; [apply seededRandom_draws | intros rTrades HrTrades].
  eapply draws_bind; [apply seededRandom_draws | intros rPf HrPf].
  eapply draws_bind; [apply seededRandom_draws | intros rBest HrBest].
  eapply draws_bind; [apply seededRandom_draws | intros rWorst HrWorst].
  eapply draws_bind; [apply getStrategyHoldTime_draws | intros hold Hhold].
  eapply draws_bind; [apply mockEquityLoop_draws | intros curve _].
  apply draws_ret. cbn [performance].
  assert (Hb : isFinite (mul base (if match mode this with single => true | multi => false end
                                   then #0.1 else #1)) = true)
    by (destruct (mode this); finite).
  assert (Hvol : positive (add #0.15 (mul rVol #0.1)))
    by (apply affine_positive; [reflexivity | unfold Qle; simpl; lia | assumption]).
  assert (Hdd : positive (add #0.05 (mul rDd #0.1)))
    by (apply affine_positive; [reflexivity | unfold Qle; simpl; lia | assumption]).
  assert (Hvol' : positive (mul (add #0.15 (mul rVol #0.1)) #0.8)).
  { destruct Hvol as (q & -> & Hq). cbn [mul fin]. eexists. split; [reflexivity |].
    rewrite Qred_correct. nra. }
  pose proof (totalTrades_positive
                (match mode this with single => true | multi => false end) HrTrades) as Htrades.
  unfold allFinite.
  cbn [totalReturn annualizedReturn sharpeRatio maxDrawdown winRate profitFactor totalTrades
       avgTradeReturn bestTrade worstTrade avgHoldTime volatility calmarRatio sortinoRatio].
  repeat split;
    first [ apply finite_div_positive; assumption
          | apply positive_finite; assumption
          | finite ].
Qed.

(** An input the generator is meant for: a finite capital that is not
    negative, strategies with a non-empty [id], dates not before the epoch
    (on balance). *)
Definition seedableInput (this : Engine) : bool :=
  isFinite (capital this) && le #0 (capital this)
  && forallb (fun strategy => negb (String.eqb (id strategy) "")) (strategies this)
  && (0 <=? startDate this + endDate this)%Z.

Lemma strategyHash_ok strategies : forall h,
  0 <= h ->
  forallb (fun strategy => negb (String.eqb (id strategy) "")) strategies = true ->
  exists q,
    fold_left
      (fun hash strategy =>
         add (add hash (charCodeAt0 (id strategy))) (lengthNum (tickers strategy)))
      strategies (Fin h) = Fin q
    /\ 0 <= q.
Proof.
  induction strategies as [| strategy rest IH]; intros h Hh Hids; simpl in *.
  - exists h. auto.
  - apply andb_prop in Hids. destruct Hids as [Hid Hrest].
    destruct (id strategy) as [| ch tail]; [discriminate |].
    cbn [charCodeAt0 lengthNum ofNat ofZ add fin].
    apply IH; [| exact Hrest].
    rewrite !Qred_correct.
    assert (0 <= inject_Z (Z.of_nat (nat_of_ascii ch)))
      by (change 0 with (inject_Z 0); rewrite <- Zle_Qle; lia).
    assert (0 <= inject_Z (Z.of_nat (List.length (tickers strategy))))
      by (change 0 with (inject_Z 0); rewrite <- Zle_Qle; lia).
    lra.
Qed.

Lemma construct_seedOk this (w : World) :
  seedableInput this = true -> seedOk (construct this w).
Proof.
  unfold seedableInput. intros H.
  apply andb_prop in H. destruct H as [H Hdates].
  apply andb_prop in H. destruct H as [H Hids].
  apply andb_prop in H. destruct H as [Hfin Hcap].
  unfold seedOk, construct, createSeed. cbn [seed].
  destruct (strategyHash_ok (strategies this) (Qle_refl 0) Hids) as (sh & -> & Hsh).
  destruct (capital this) as [cap | | |]; try discriminate.
  apply le_fin in Hcap. apply Z.leb_le in Hdates.
  cbn [ofZ add fin].
  destruct (@rem_range (Qred (Qred (sh + Qred (inject_Z (startDate this) + inject_Z (endDate this))) + cap))
              2147483647) as (q & E & Hq & _); [| reflexivity |].
  - rewrite !Qred_correct, <- inject_Z_plus.
    assert (0 <= inject_Z (startDate this + endDate this))
      by (change 0 with (inject_Z 0); rewrite <- Zle_Qle; exact Hdates).
    lra.
  - exists q. auto.
Qed.

Lemma runLoop_draws (backtest : Strategy -> M World BacktestResult) (P : BacktestResult -> Prop) :
  (forall strategy, draws (backtest strategy) P) ->
  forall todo results,
    draws (runLoop backtest todo results) (fun out => Forall P results -> Forall P out).
Proof.
  intros Hb. induction todo as [| strategy rest IH]; intros results; simpl.
  - apply draws_ret. auto.
  - eapply draws_bind; [apply Hb | intros r HP].
    eapply draws_weaken; [apply IH |].
    intros out HF Hres. apply HF. apply Forall_app. split; [exact Hres | constructor; auto].
Qed.

(** On such an input every report of the synthetic variant is finite in
    every field. *)
Theorem runBacktestSynthetic_finite this (w : World) :
  seedableInput this = true ->
  exists results s',
    runBacktestSynthetic this (construct this w) = (Ret results, s')
    /\ Forall (fun r => allFinite (performance r)) results.
Proof.
  intros Hin.
  assert (Hgen : forall strategy,
            draws (backtestStrategySynthetic (World := World) this strategy)
                  (fun r => allFinite (performance r))).
  { intros strategy s Hs.
    destruct (generateMockBacktestResult_finite this strategy Hs) as (r & s' & E & Hs' & Hr).
    exists r, s'. auto. }
  destruct (@runLoop_draws _ _ Hgen (strategies this) [] _ (construct_seedOk this w Hin))
    as (out & s' & E & _ & HF).
  exists out, s'. split; [exact E | apply HF; constructor].
Qed.

End SyntheticFinite.

(** Witness: the spec's scenario, two strategies on a capital of 50000. *)
Lemma runBacktestSynthetic_finite_witness :
  exists results s',
    runBacktestSynthetic
      (exEngine #50000 [microscalping1; meanReversion1] monday (monday + 4 * DAY))
      (construct (exEngine #50000 [microscalping1; meanReversion1] monday (monday + 4 * DAY)) tt)
    = (Ret results, s')
    /\ Forall (fun r => allFinite (performance r)) results.
Proof.
  refine (@runBacktestSynthetic_finite unit _ tt _). reflexivity.
Defined.


(** * The rest of the module *)

(** ** Spread and slippage of a quote *)

Section MinMax.

Open Scope Q_scope.

Lemma max2_fin x y :
  exists z, max2 (Fin x) (Fin y) = Fin z /\ x <= z /\ y <= z /\ (z = x \/ z = y).
Proof.
  unfold max2. destruct (lt (Fin x) (Fin y)) eqn:E.
  - apply lt_fin in E. exists y. repeat split; auto; lra.
  - apply lt_fin_false in E. exists x. repeat split; auto; lra.
Qed.

Lemma min2_fin x y :
  exists z, min2 (Fin x) (Fin y) = Fin z /\ z <= x /\ z <= y /\ (z = x \/ z = y).
Proof.
  unfold min2. destruct (lt (Fin y) (Fin x)) eqn:E.
  - apply lt_fin in E. exists y. repeat split; auto; lra.
  - apply lt_fin_false in E. exists x. repeat split; auto; lra.
Qed.

(** The volume factor lies between a half and two, for every volume that is
    not negative, zero included (where the quotient is [+Infinity]). *)
Lemma volumeFactor_range vol :
  0 <= vol ->
  exists f, max2 #0.5 (min2 #2 (div #1000000 (Fin vol))) = Fin f /\ 0.5 <= f <= 2.
Proof.
  intros Hvol. cbn [div].
  destruct (Qeq_bool vol 0) eqn:E.
  - exists 2. split; [reflexivity | lra].
  - unfold fin.
    destruct (min2_fin 2 (Qred (1000000 / vol))) as (m & -> & Hm2 & _ & _).
    destruct (max2_fin 0.5 m) as (f & -> & Hf1 & Hf2 & [-> | ->]);
      eexists; (split; [reflexivity | lra]).
Qed.

End MinMax.



(** ** The bar loop, step by step *)

Section BarLoop.

Variable strategy : Strategy.
Variable ticker : string.
Variable dayData : list PolygonBar.
Variable currentEquity : num.

Abbreviation step := (tickerStep strategy ticker dayData currentEquity).
Abbreviation loop := (tickerLoop strategy ticker dayData currentEquity).
Abbreviation opened := (fun bar => openPosition strategy ticker bar currentEquity).

(** The position an iteration works on: the one held, or the one it opens on
    an entry signal. *)
Inductive holding (i : nat) (bar : PolygonBar) : option Trade -> Trade -> Prop :=
| holdingKept p : holding i bar (Some p) p
| holdingOpened : shouldEnter strategy dayData i = true -> holding i bar None (opened bar).

(** The three ways an iteration can go: no position and no signal; a position
    that stays open; a position that is closed and logged. *)
Inductive stepView (i : nat) (bar : PolygonBar)
  : list Trade * option Trade -> list Trade * option Trade -> Prop :=
| stepIdle trades :
    shouldEnter strategy dayData i = false ->
    stepView i bar (trades, None) (trades, None)
| stepHold trades position p :
    holding i bar position p ->
    shouldExit strategy p bar (t bar) = (false, p) ->
    stepView i bar (trades, position) (trades, Some p)
| stepClose trades position p r :
    holding i bar position p ->
    shouldExit strategy p bar (t bar) = (true, setReason p r) ->
    r <> trailing_stop ->
    stepView i bar (trades, position) (trades ++ [closePosition p bar r], None).

Lemma tickerStep_view i bar st : stepView i bar st (step i bar st).
Proof.
  destruct st as [trades position]. unfold tickerStep.
  assert (Hcur : forall p,
            (match position with
             | None => if shouldEnter strategy dayData i then Some (opened bar) else None
             | Some p => Some p
             end) = Some p -> holding i bar position p).
  { intros p E. destruct position as [q |].
    - inversion E; subst. constructor.
    - destruct (shouldEnter strategy dayData i) eqn:Es; [| discriminate].
      inversion E; subst. constructor. exact Es. }
  destruct (match position with
            | None => _
            | Some p => Some p
            end) as [p |] eqn:Epos.
  - specialize (Hcur p eq_refl).
    destruct (shouldExit strategy p bar (t bar)) as [exit p'] eqn:Eexit.
    destruct exit.
    + destruct (shouldExit_true _ _ _ _ Eexit) as (r & -> & Hr).
      rewrite closePosition_setReason. cbn [reason setReason].
      eapply stepClose; eauto.
    + pose proof (shouldExit_false _ _ _ _ Eexit). subst p'.
      eapply stepHold; eauto.
  - destruct position as [q |]; [discriminate |].
    destruct (shouldEnter strategy dayData i) eqn:Es; [discriminate |].
    apply stepIdle. exact Es.
Qed.

(** A property of the loop's state that holds before the first bar and is
    kept by every iteration holds when the loop ends. *)
Lemma tickerLoop_invariant (Inv : list PolygonBar -> list Trade * option Trade -> Prop) :
  Inv [] ([], None) ->
  (forall seen bar rest st st',
     dayData = seen ++ bar :: rest ->
     Inv seen st -> stepView (List.length seen) bar st st' -> Inv (seen ++ [bar]) st') ->
  Inv dayData (loop dayData 0%nat ([], None)).
Proof.
  intros H0 Hstep.
  assert (H : forall bars seen st,
            dayData = seen ++ bars -> Inv seen st ->
            Inv (seen ++ bars) (loop bars (List.length seen) st)).
  { induction bars as [| bar rest IH]; intros seen st E Hinv; simpl.
    - now rewrite app_nil_r.
    - replace (seen ++ bar :: rest) with ((seen ++ [bar]) ++ rest)
        by (rewrite <- app_assoc; reflexivity).
      replace (S (List.length seen)) with (List.length (seen ++ [bar]))
        by (rewrite length_app; simpl; lia).
      apply IH.
      + rewrite <- app_assoc. exact E.
      + eapply Hstep; eauto. apply tickerStep_view. }
  apply (H dayData [] ([], None) eq_refl H0).
Qed.

(** The position opened at bar [j] stays open over the bars from [j] up to
    [k], [k] excluded: no exit rule fires at any of them. *)
Definition heldThrough (j k : nat) (p : Trade) : Prop :=
  forall i bar, (j <= i < k)%nat -> nth_error dayData i = Some bar ->
    shouldExit strategy p bar (t bar) = (false, p).

(** Why the position is closed at bar [k]: an exit rule fires there, or no
    rule does and [k] is the day's last bar. *)
Definition closedBy (k : nat) (p : Trade) (bar : PolygonBar) (r : ExitReason) : Prop :=
  shouldExit strategy p bar (t bar) = (true, setReason p r)
  \/ (r = time_exit /\ S k = List.length dayData
      /\ shouldExit strategy p bar (t bar) = (false, p)).

(** A trade of the log: entered at bar [j] on a signal, held, closed at bar
    [k] for reason [r]. *)
Definition leg (j k : nat) (r : ExitReason) (trade : Trade) : Prop :=
  exists entry exit,
    nth_error dayData j = Some entry /\ nth_error dayData k = Some exit
    /\ (20 <= j <= k)%nat
    /\ shouldEnter strategy dayData j = true
    /\ heldThrough j k (opened entry)
    /\ closedBy k (opened entry) exit r
    /\ trade = closePosition (opened entry) exit r.

(** A log whose trades lie one after the other, all below bar [n]. *)
Inductive journal : nat -> list Trade -> Prop :=
| journalNil n : journal n []
| journalLeg n m trades j k r trade :
    journal n trades -> (n <= j)%nat -> (k < m)%nat -> leg j k r trade ->
    journal m (trades ++ [trade]).

Lemma journal_mono n m trades : journal n trades -> (n <= m)%nat -> journal m trades.
Proof.
  intros H Hle. destruct H as [n | n m' trades j k r trade H Hj Hk Hleg].
  - constructor.
  - eapply journalLeg; eauto. lia.
Qed.

(** The state of the loop after the bars [seen]. *)
Definition tracked (seen : list PolygonBar) (st : list Trade * option Trade) : Prop :=
  let n := List.length seen in
  match snd st with
  | None => journal n (fst st)
  | Some p =>
      exists j entry,
        (20 <= j < n)%nat /\ nth_error dayData j = Some entry
        /\ shouldEnter strategy dayData j = true
        /\ p = opened entry
        /\ journal j (fst st)
        /\ heldThrough j n p
  end.

Lemma shouldEnter_warm i : shouldEnter strategy dayData i = true -> (20 <= i)%nat.
Proof.
  unfold shouldEnter. destruct (i <? 20)%nat eqn:E; [discriminate |].
  intros _. apply Nat.ltb_ge in E. exact E.
Qed.

Lemma nth_error_middle {A} (seen : list A) bar rest :
  nth_error (seen ++ bar :: rest) (List.length seen) = Some bar.
Proof.
  rewrite nth_error_app2 by lia. rewrite Nat.sub_diag. reflexivity.
Qed.

Lemma heldThrough_next j n p bar :
  nth_error dayData n = Some bar ->
  shouldExit strategy p bar (t bar) = (false, p) ->
  heldThrough j n p -> heldThrough j (S n) p.
Proof.
  intros Hn Hbar Hheld i b Hi Hb.
  destruct (Nat.eq_dec i n) as [-> | Hne].
  - rewrite Hn in Hb. inversion Hb; subst. exact Hbar.
  - apply (Hheld i b); [lia | exact Hb].
Qed.

Lemma step_tracked seen bar rest st st' :
  dayData = seen ++ bar :: rest ->
  tracked seen st -> stepView (List.length seen) bar st st' -> tracked (seen ++ [bar]) st'.
Proof.
  intros E Htr Hview.
  assert (Hbar : nth_error dayData (List.length seen) = Some bar)
    by (rewrite E; apply nth_error_middle).
  assert (Hlen : List.length (seen ++ [bar]) = S (List.length seen))
    by (rewrite length_app; simpl; lia).
  unfold tracked in *. rewrite Hlen. clear Hlen.
  set (n := List.length seen) in *.
  assert (Hpos : forall trades position p,
            match position with
            | None => journal n trades
            | Some p =>
                exists j entry,
                  (20 <= j < n)%nat /\ nth_error dayData j = Some entry
                  /\ shouldEnter strategy dayData j = true
                  /\ p = opened entry /\ journal j trades /\ heldThrough j n p
            end ->
            holding n bar position p ->
            exists j entry,
              (20 <= j <= n)%nat /\ nth_error dayData j = Some entry
              /\ shouldEnter strategy dayData j = true
              /\ p = opened entry /\ journal j trades /\ heldThrough j n p).
  { intros trades position p Hst Hhold. destruct Hhold as [p | Hs].
    - destruct Hst as (j & entry & Hj & Hnth & Hsig & Ep & Hlog & Hheld).
      exists j, entry. repeat split; auto; lia.
    - exists n, bar. pose proof (shouldEnter_warm _ Hs).
      repeat split; auto. intros i b Hi. lia. }
  destruct Hview as [trades Hs | trades position p Hhold Hexit
                     | trades position p r Hhold Hexit Hr]; cbn [fst snd] in *.
  - eapply journal_mono; [exact Htr | lia].
  - destruct (Hpos _ _ _ Htr Hhold) as (j & entry & Hj & Hnth & Hsig & Ep & Hlog & Hheld).
    exists j, entry. repeat split; auto; try lia.
    eapply heldThrough_next; eauto.
  - destruct (Hpos _ _ _ Htr Hhold) as (j & entry & Hj & Hnth & Hsig & Ep & Hlog & Hheld).
    subst p. eapply journalLeg with (j := j) (k := n); [exact Hlog | lia | lia |].
    exists entry, bar. repeat split; auto; try lia. left. exact Hexit.
Qed.

(** The log [simulateTickerTrading] returns is such a journal: every trade
    was entered on a signal at a bar from the twenty-first on, held while no
    exit rule fired, closed at the first bar where one fired or at the last
    bar of the day, and entered after the trade before it was closed. *)
Lemma simulateTickerTrading_journal :
  journal (List.length dayData) (simulateTickerTrading strategy ticker dayData currentEquity).
Proof.
  rewrite simulateTickerTrading_unfold.
  assert (Htr : tracked dayData (loop dayData 0%nat ([], None))).
  { apply tickerLoop_invariant.
    - constructor.
    - intros seen bar rest st st'. apply step_tracked. }
  cbv zeta. unfold tracked in Htr.
  destruct (loop dayData 0%nat ([], None)) as [trades position]. cbn [fst snd] in *.
  destruct position as [p |]; [| exact Htr].
  destruct Htr as (j & entry & Hj & Hnth & Hsig & Ep & Hlog & Hheld).
  destruct (nth_error dayData (List.length dayData - 1)) as [lastBar |] eqn:El.
  - eapply journalLeg with (j := j) (k := (List.length dayData - 1)%nat);
      [exact Hlog | lia | lia |].
    subst p. exists entry, lastBar. repeat split; auto; try lia.
    + intros i b Hi. apply Hheld. lia.
    + right. repeat split; [lia |]. apply (Hheld (List.length dayData - 1)%nat); [lia | exact El].
  - apply nth_error_None in El. lia.
Qed.

Lemma journal_In n trades trade :
  journal n trades -> In trade trades ->
  exists j k r, (k < n)%nat /\ leg j k r trade.
Proof.
  induction 1 as [n | n m trades j k r trade' H IH Hj Hk Hleg]; intros Hin.
  - destruct Hin.
  - apply in_app_or in Hin. destruct Hin as [Hin | [<- | []]].
    + destruct (IH Hin) as (j' & k' & r' & Hk' & Hleg'). exists j', k', r'.
      destruct Hleg as (_ & _ & _ & _ & Hjk & _). split; [lia | auto].
    + exists j, k, r. auto.
Qed.

(** One trade lies before another: it was closed at a bar before the one
    where the other was entered. *)
Definition precedes (a b : Trade) : Prop :=
  exists ja ka ra jb kb rb, leg ja ka ra a /\ leg jb kb rb b /\ (ka < jb)%nat.

Lemma StronglySorted_snoc {A} (R : A -> A -> Prop) xs x :
  StronglySorted R xs -> (forall a, In a xs -> R a x) -> StronglySorted R (xs ++ [x]).
Proof.
  induction 1 as [| a xs Hs IH Hall]; intros Hx; simpl.
  - repeat constructor.
  - constructor.
    + apply IH. intros b Hb. apply Hx. right. exact Hb.
    + apply Forall_app. split; [exact Hall |]. constructor; [| constructor].
      apply Hx. left. reflexivity.
Qed.

Lemma journal_sorted n trades : journal n trades -> StronglySorted precedes trades.
Proof.
  induction 1 as [n | n m trades j k r trade H IH Hj Hk Hleg].
  - constructor.
  - apply StronglySorted_snoc; [exact IH |].
    intros a Ha. destruct (@journal_In n trades a H Ha) as (ja & ka & ra & Hka & Hlega).
    exists ja, ka, ra, j, k, r. repeat split; auto. lia.
Qed.

End BarLoop.

Lemma StronglySorted_weaken {A} (R R' : A -> A -> Prop) xs :
  (forall a b, In a xs -> In b xs -> R a b -> R' a b) ->
  StronglySorted R xs -> StronglySorted R' xs.
Proof.
  intros Himp Hs. induction Hs as [| a xs Hs IH Hall]; constructor.
  - apply IH. intros x y Hx Hy. apply Himp; right; assumption.
  - rewrite Forall_forall in *. intros b Hb. apply Himp; [left; reflexivity | right; exact Hb |].
    apply Hall. exact Hb.
Qed.

Lemma StronglySorted_nth {A} (R : A -> A -> Prop) xs :
  StronglySorted R xs ->
  forall i j a b, (i < j)%nat -> nth_error xs i = Some a -> nth_error xs j = Some b -> R a b.
Proof.
  induction 1 as [| x xs Hs IH Hall]; intros i j a b Hij Ha Hb.
  - destruct i; discriminate.
  - destruct j as [| j]; [lia |]. simpl in Hb. destruct i as [| i].
    + simpl in Ha. inversion Ha; subst. rewrite Forall_forall in Hall.
      apply Hall. eapply nth_error_In; eassumption.
    + simpl in Ha. apply (IH i j); auto. lia.
Qed.

(** The entry of a logged trade is the entry of the position it was opened
    as; its exit is the bar it was closed at. *)
Lemma leg_times strategy ticker dayData currentEquity j k r trade :
  leg strategy ticker dayData currentEquity j k r trade ->
  exists entry exit,
    nth_error dayData j = Some entry /\ nth_error dayData k = Some exit
    /\ (20 <= j <= k)%nat
    /\ entryTime trade = t entry /\ exitTime trade = t exit
    /\ entryPrice trade = calculateEntryPrice entry buy
    /\ exitPrice trade = calculateEntryPrice exit sell
    /\ reason trade = r.
Proof.
  intros (entry & exit & Hj & Hk & Hjk & _ & _ & _ & ->).
  exists entry, exit. repeat split; auto; lia.
Qed.

(** The first twenty bars of a day only warm the indicators up: every trade
    of the day was entered at the twenty-first bar or later, at that bar's
    buy price, and a day of twenty bars or fewer has no trades. *)
Theorem simulateTickerTrading_warm_up strategy ticker dayData currentEquity :
  let result := simulateTickerTrading strategy ticker dayData currentEquity in
  (forall trade, In trade result ->
     exists j entry,
       (20 <= j)%nat /\ nth_error dayData j = Some entry
       /\ entryTime trade = t entry
       /\ entryPrice trade = calculateEntryPrice entry buy)
  /\ ((List.length dayData <= 20)%nat -> result = []).
Proof.
  intros result.
  pose proof (simulateTickerTrading_journal strategy ticker dayData currentEquity) as Hlog.
  fold result in Hlog.
  assert (Hall : forall trade, In trade result ->
            exists j entry,
              (20 <= j)%nat /\ nth_error dayData j = Some entry
              /\ entryTime trade = t entry
              /\ entryPrice trade = calculateEntryPrice entry buy).
  { intros trade Hin. destruct (journal_In trade Hlog Hin) as (j & k & r & _ & Hleg).
    destruct (leg_times Hleg) as (entry & exit & Hj & _ & Hjk & Ht & _ & Hp & _).
    exists j, entry. repeat split; auto; lia. }
  split; [exact Hall |].
  intros Hshort. destruct result as [| trade rest]; [reflexivity |].
  destruct (Hall trade (or_introl eq_refl)) as (j & entry & Hj & Hnth & _).
  assert (nth_error dayData j <> None) by congruence.
  apply nth_error_Some in H. lia.
Qed.

(** At most one position at a time: in the day's log of a ticker, each trade
    was entered at a bar after the one where the trade before it was closed.
    So on bars whose timestamps are related by [R] from each bar to every
    later one (increasing, or not decreasing), every trade's exit time is
    related by [R] to the entry time of every later trade. *)
Theorem simulateTickerTrading_one_position_at_a_time (R : Z -> Z -> Prop)
    strategy ticker dayData currentEquity :
  StronglySorted (fun a b => R (t a) (t b)) dayData ->
  StronglySorted (fun a b => R (exitTime a) (entryTime b))
    (simulateTickerTrading strategy ticker dayData currentEquity).
Proof.
  intros Hs.
  pose proof (simulateTickerTrading_journal strategy ticker dayData currentEquity) as Hlog.
  apply journal_sorted in Hlog.
  eapply StronglySorted_weaken; [| exact Hlog].
  intros a b _ _ (ja & ka & ra & jb & kb & rb & Ha & Hb & Hlt).
  destruct (leg_times Ha) as (_ & xa & _ & Hxa & _ & _ & -> & _).
  destruct (leg_times Hb) as (eb & _ & Heb & _ & _ & -> & _).
  apply (StronglySorted_nth Hs Hlt Hxa Heb).
Qed.

Lemma simulateTickerTrading_one_position_at_a_time_witness :
  StronglySorted (fun a b => exitTime a <= entryTime b)
    (simulateTickerTrading meanReversion1 "AAPL" (exDay #300000 #97 #97.5) #50000).
Proof.
  refine (@simulateTickerTrading_one_position_at_a_time Z.le meanReversion1 "AAPL"
            (exDay #300000 #97 #97.5) #50000 _).
  apply (sortedb_sound (exDay #300000 #97 #97.5)). vm_compute. reflexivity.
Defined.

(** A trade closed by the exit rules: entered at bar [j], it was closed at
    the first bar [k] from [j] on at which a rule fires, with the reason of
    the first rule that fires there; or no rule fired up to the day's last
    bar, where it was closed with reason [time_exit]. *)
Definition exitedOnRule (strategy : Strategy) (ticker : string) (dayData : list PolygonBar)
    (currentEquity : num) (trade : Trade) : Prop :=
  exists j k entry exit,
    let p := openPosition strategy ticker entry currentEquity in
    nth_error dayData j = Some entry /\ nth_error dayData k = Some exit /\ (j <= k)%nat
    /\ trade = closePosition p exit (reason trade)
    /\ (forall i bar, (j <= i < k)%nat -> nth_error dayData i = Some bar ->
          firstMatch (exitRules strategy p bar (t bar)) = None)
    /\ (firstMatch (exitRules strategy p exit (t exit)) = Some (reason trade)
        \/ (firstMatch (exitRules strategy p exit (t exit)) = None
            /\ reason trade = time_exit /\ S k = List.length dayData)).

Lemma shouldExit_held strategy p bar time :
  shouldExit strategy p bar time = (false, p) ->
  firstMatch (exitRules strategy p bar time) = None.
Proof.
  rewrite shouldExit_firstMatch.
  destruct (firstMatch _) as [r |]; [discriminate | reflexivity].
Qed.

Lemma shouldExit_fired strategy p bar time r :
  shouldExit strategy p bar time = (true, setReason p r) ->
  firstMatch (exitRules strategy p bar time) = Some r.
Proof.
  rewrite shouldExit_firstMatch.
  destruct (firstMatch _) as [r' |]; [| discriminate].
  intros E. inversion E. reflexivity.
Qed.

(** Positions are closed by the exit rules as soon as one fires, and for the
    reason of the rule that fired. *)
Theorem simulateTickerTrading_exits_on_first_rule strategy ticker dayData currentEquity :
  Forall (exitedOnRule strategy ticker dayData currentEquity)
    (simulateTickerTrading strategy ticker dayData currentEquity).
Proof.
  pose proof (simulateTickerTrading_journal strategy ticker dayData currentEquity) as Hlog.
  apply Forall_forall. intros trade Hin.
  destruct (journal_In trade Hlog Hin) as (j & k & r & _ & Hleg).
  destruct Hleg as (entry & exit & Hj & Hk & Hjk & _ & Hheld & Hclosed & ->).
  exists j, k, entry, exit. cbv zeta. cbn [reason closePosition].
  repeat split; auto; try lia.
  - intros i bar Hi Hbar. apply shouldExit_held. apply (Hheld i bar Hi Hbar).
  - destruct Hclosed as [Hfired | (-> & Hlast & Hnone)].
    + left. apply shouldExit_fired. exact Hfired.
    + right. repeat split; auto. apply shouldExit_held. exact Hnone.
Qed.

(** ** Exact values *)

Section Values.

Open Scope Q_scope.

(** [x] is a finite number whose value is [q]. *)
Definition val (x : num) (q : Q) : Prop := exists q', x = Fin q' /\ q' == q.

Lemma val_Fin q : val (Fin q) q.
Proof. exists q. split; reflexivity. Qed.

Lemma val_eq x a b : val x a -> a == b -> val x b.
Proof. intros (q & -> & E) Hab. exists q. split; [reflexivity | now rewrite E]. Qed.

Lemma val_ofZ z : val (ofZ z) (inject_Z z).
Proof. apply val_Fin. Qed.

Lemma val_add x y a b : val x a -> val y b -> val (add x y) (a + b).
Proof.
  intros (a' & -> & Ha) (b' & -> & Hb). eexists. split; [reflexivity |].
  now rewrite Qred_correct, Ha, Hb.
Qed.

Lemma val_sub x y a b : val x a -> val y b -> val (sub x y) (a - b).
Proof.
  intros (a' & -> & Ha) (b' & -> & Hb). eexists. split; [reflexivity |].
  now rewrite Qred_correct, Ha, Hb.
Qed.

Lemma val_mul x y a b : val x a -> val y b -> val (mul x y) (a * b).
Proof.
  intros (a' & -> & Ha) (b' & -> & Hb). eexists. split; [reflexivity |].
  now rewrite Qred_correct, Ha, Hb.
Qed.

Lemma val_div x y a b : val x a -> val y b -> ~ b == 0 -> val (div x y) (a / b).
Proof.
  intros (a' & -> & Ha) (b' & -> & Hb) Hnz.
  rewrite div_fin_nonzero by (rewrite Hb; exact Hnz).
  eexists. split; [reflexivity |]. now rewrite Qred_correct, Ha, Hb.
Qed.

Lemma val_neg x a : val x a -> val (neg x) (- a).
Proof.
  intros (a' & -> & Ha). eexists. split; [reflexivity |]. now rewrite Qred_correct, Ha.
Qed.

Lemma val_floor x a : val x a -> val (floor x) (inject_Z (Qfloor a)).
Proof.
  intros (a' & -> & Ha). eexists. split; [reflexivity |]. now rewrite Ha.
Qed.

Lemma val_orDefault x d a b :
  val x a -> val d b -> val (orDefault x d) (if Qeq_bool a 0 then b else a).
Proof.
  intros (a' & -> & Ha) Hd. unfold orDefault, truthy.
  assert (E : Qeq_bool a' 0 = Qeq_bool a 0).
  { destruct (Qeq_bool a 0) eqn:E0.
    - apply Qeq_bool_iff. apply Qeq_bool_iff in E0. now rewrite Ha.
    - destruct (Qeq_bool a' 0) eqn:E1; [| reflexivity].
      apply Qeq_bool_iff in E1. apply Qeq_bool_false_neq in E0.
      exfalso. apply E0. now rewrite <- Ha. }
  rewrite E. destruct (Qeq_bool a 0); [exact Hd |]. exists a'. split; [reflexivity | exact Ha].
Qed.

Lemma val_le x y a b : val x a -> val y b -> (le x y = true <-> a <= b).
Proof.
  intros (a' & -> & Ha) (b' & -> & Hb). rewrite le_fin, Ha, Hb. reflexivity.
Qed.

Lemma val_lt x y a b : val x a -> val y b -> (lt x y = true <-> a < b).
Proof.
  intros (a' & -> & Ha) (b' & -> & Hb). rewrite lt_fin, Ha, Hb. reflexivity.
Qed.

Lemma val_finite x a : val x a -> isFinite x = true.
Proof. intros (a' & -> & _). reflexivity. Qed.

Lemma val_eqv x y a : val x a -> val y a -> eqv x y.
Proof. intros (a' & -> & Ha) (b' & -> & Hb). simpl. now rewrite Ha, Hb. Qed.

(** A finite number that is not negative. *)
Definition nonNegative (x : num) : bool := isFinite x && le (Fin 0) x.

Lemma nonNegative_val x : nonNegative x = true -> exists q, val x q /\ 0 <= q.
Proof.
  unfold nonNegative. destruct x as [q | | |]; try discriminate. simpl.
  intros H. exists q. split; [apply val_Fin | now apply Qle_bool_iff].
Qed.

Lemma barOk_val bar :
  barOk bar = true -> exists pc, val (c bar) pc /\ 0 < pc.
Proof.
  intros H. destruct (barOk_inv _ H) as (pc & pv & Ec & _ & Hpc & _).
  exists pc. rewrite Ec. split; [apply val_Fin | exact Hpc].
Qed.

End Values.

(** ** What a round trip pays *)

Section RoundTripValue.

Open Scope Q_scope.

Variable strategy : Strategy.
Variable ticker : string.
Variable currentEquity : num.

(** The size in percent and the commission that are in force: the
    defaults stand in for a 0. *)
Definition sizeInForce (ps : Q) : Q := if Qeq_bool ps 0 then 20 else ps.
Definition feeInForce (cm : Q) : Q := if Qeq_bool cm 0 then 0.001 else cm.

(** The number of shares bought at a close of [pc] with an equity of [eq]. *)
Definition shares (eq ps pc : Q) : Q := inject_Z (Qfloor (eq * (sizeInForce ps / 100) / pc)).

Lemma roundTrip_val entry exit r pc xc eq ps cm :
  val (c entry) pc -> 0 < pc -> val (c exit) xc ->
  val currentEquity eq ->
  val (positionSize (parameters strategy)) ps ->
  val (commissionPerTrade (parameters strategy)) cm ->
  let trade := roundTrip strategy ticker currentEquity entry exit r in
  let qty := shares eq ps pc in
  let buyAt := pc + 0.01 / 2 in
  val (quantity trade) qty
  /\ val (entryPrice trade) buyAt
  /\ val (fees trade) (feeInForce cm)
  /\ val (slippage trade) (buyAt * qty * 0.001)
  /\ val (pnl trade)
       ((xc - 0.01 / 2 - buyAt) * qty - feeInForce cm - buyAt * qty * 0.001).
Proof.
  intros Hc Hpc Hx Heq Hps Hcm trade qty buyAt.
  assert (Hqty : val (quantity trade) qty).
  { unfold trade, roundTrip, closePosition, openPosition, calculatePositionSize.
    cbn [quantity]. apply val_floor. apply val_div; [| exact Hc | lra].
    apply val_mul; [exact Heq |].
    apply val_div; [| apply val_Fin | discriminate].
    apply (val_orDefault Hps (val_Fin 20)). }
  assert (Hbuy : val (entryPrice trade) buyAt).
  { unfold trade, roundTrip, closePosition, openPosition, calculateEntryPrice.
    cbn [entryPrice]. apply val_add; [exact Hc |].
    apply val_div; [apply val_Fin | apply val_Fin | discriminate]. }
  assert (Hfee : val (fees trade) (feeInForce cm)).
  { unfold trade, roundTrip, closePosition, openPosition. cbn [fees].
    apply (val_orDefault Hcm (val_Fin 0.001)). }
  assert (Hslip : val (slippage trade) (buyAt * qty * 0.001)).
  { unfold trade, roundTrip, closePosition, openPosition, calculateSlippage in *.
    cbn [slippage quantity entryPrice] in *.
    apply val_mul; [| apply val_Fin]. apply val_mul; assumption. }
  repeat split; auto.
  unfold trade, roundTrip, closePosition in *.
  cbn [pnl quantity entryPrice fees slippage] in *.
  apply val_sub; [| exact Hslip]. apply val_sub; [| exact Hfee].
  apply val_mul; [| exact Hqty]. apply val_sub; [| exact Hbuy].
  unfold calculateEntryPrice. apply val_sub; [exact Hx |].
  apply val_div; [apply val_Fin | apply val_Fin | discriminate].
Qed.

Lemma shares_nonneg eq ps pc : 0 <= eq -> 0 <= ps -> 0 < pc -> 0 <= shares eq ps pc.
Proof.
  intros Heq Hps Hpc. unfold shares.
  assert (Hsz : 0 < sizeInForce ps).
  { unfold sizeInForce. destruct (Qeq_bool ps 0) eqn:E; [lra |].
    apply Qeq_bool_false_neq in E. lra. }
  assert (H : 0 <= eq * (sizeInForce ps / 100) / pc).
  { apply Qle_shift_div_l; [exact Hpc |].
    unfold Qdiv. change (/ 100) with (Qmake 1 100). nra. }
  apply Qfloor_resp_le in H. change (Qfloor 0) with 0%Z in H.
  change 0 with (inject_Z 0). rewrite <- Zle_Qle. exact H.
Qed.

Lemma feeInForce_pos cm : 0 <= cm -> 0 < feeInForce cm.
Proof.
  intros H. unfold feeInForce. destruct (Qeq_bool cm 0) eqn:E; [lra |].
  apply Qeq_bool_false_neq in E. lra.
Qed.

End RoundTripValue.

Lemma firstMatch_stop_loss strategy p bar time :
  firstMatch (exitRules strategy p bar time) = Some stop_loss ->
  stopLossBreach strategy p bar = true.
Proof.
  unfold exitRules, firstMatch. destruct (stopLossBreach strategy p bar); [reflexivity |].
  destruct (takeProfitBreach strategy p bar); [discriminate |].
  destruct (maxHoldBreach strategy p time); discriminate.
Qed.

(** What a trade of the day's log pays, on bars of the data source, with an
    equity, a position size, a commission and a stop-loss percentage that are
    finite and not negative. *)
Definition paysCosts (dayData : list PolygonBar) (trade : Trade) : Prop :=
  exists entry exit,
    In entry dayData /\ In exit dayData
    /\ entryTime trade = t entry /\ exitTime trade = t exit
    /\ lt (pnl trade) (mul (sub (c exit) (c entry)) (quantity trade)) = true
    /\ (reason trade = stop_loss -> lt (pnl trade) #0 = true).

(** Costs are always charged: the P&L of every trade is strictly below the
    move of the close from the entry bar to the exit bar times the quantity
    (the half-spread on both fills, the commission and the slippage come
    off), and every trade closed by the stop-loss has a negative P&L. *)
Theorem simulateTickerTrading_costs strategy ticker dayData currentEquity :
  forallb barOk dayData = true ->
  nonNegative currentEquity = true ->
  nonNegative (positionSize (parameters strategy)) = true ->
  nonNegative (commissionPerTrade (parameters strategy)) = true ->
  nonNegative (stopLoss (parameters strategy)) = true ->
  Forall (paysCosts dayData) (simulateTickerTrading strategy ticker dayData currentEquity).
Proof.
  intros Hbars Heq Hps Hcm Hsl.
  pose proof (simulateTickerTrading_journal strategy ticker dayData currentEquity) as Hlog.
  apply Forall_forall. intros trade Hin.
  destruct (journal_In trade Hlog Hin) as (j & k & r & _ & Hleg).
  destruct Hleg as (entry & exit & Hj & Hk & Hjk & _ & _ & Hclosed & Etrade).
  apply nth_error_In in Hj, Hk.
  rewrite forallb_forall in Hbars.
  destruct (barOk_val _ (Hbars _ Hj)) as (pc & Hc & Hpc).
  destruct (barOk_val _ (Hbars _ Hk)) as (xc & Hx & _).
  destruct (nonNegative_val _ Heq) as (eq & Heqv & Heq0).
  destruct (nonNegative_val _ Hps) as (ps & Hpsv & Hps0).
  destruct (nonNegative_val _ Hcm) as (cm & Hcmv & Hcm0).
  destruct (nonNegative_val _ Hsl) as (sl & Hslv & Hsl0).
  destruct (@roundTrip_val strategy ticker currentEquity entry exit r pc xc eq ps cm
              Hc Hpc Hx Heqv Hpsv Hcmv) as (Hqty & Hbuy & Hfee & Hslip & Hpnl).
  change (roundTrip strategy ticker currentEquity entry exit r)
    with (closePosition (openPosition strategy ticker entry currentEquity) exit r) in *.
  rewrite <- Etrade in *.
  pose proof (shares_nonneg Heq0 Hps0 Hpc) as Hq0.
  pose proof (feeInForce_pos Hcm0) as Hf0.
  set (qty := shares eq ps pc) in *. set (fee := feeInForce cm) in *.
  clearbody qty fee.
  exists entry, exit. rewrite Etrade at 1 2. cbn [entryTime exitTime closePosition openPosition].
  repeat split; auto.
  - apply (val_lt Hpnl (val_mul (val_sub Hx Hc) Hqty)).
    assert (0 <= pc * qty)%Q by (apply Qmult_le_0_compat; lra).
    unfold Qdiv. change (/ 2)%Q with (Qmake 1 2). lra.
  - intros Hr. apply (val_lt Hpnl (val_Fin 0)).
    assert (Er : r = stop_loss) by (rewrite Etrade in Hr; exact Hr). subst r.
    destruct Hclosed as [Hfired | (Habs & _)]; [| discriminate Habs].
    apply shouldExit_fired, firstMatch_stop_loss in Hfired.
    unfold stopLossBreach in Hfired.
    assert (Hbuy' : val (entryPrice (openPosition strategy ticker entry currentEquity))
                      (pc + 0.01 / 2)%Q).
    { rewrite Etrade in Hbuy. exact Hbuy. }
    pose proof (val_mul Hbuy'
                  (val_sub (val_Fin 1)
                     (val_div (val_orDefault Hslv (val_Fin 2)) (val_Fin 100)
                        ltac:(discriminate)))) as Hstop.
    apply (val_le Hx Hstop) in Hfired.
    assert (Hslf : (0 < (if Qeq_bool sl 0 then 2 else sl))%Q).
    { destruct (Qeq_bool sl 0) eqn:E; [reflexivity |].
      apply Qeq_bool_false_neq in E. lra. }
    set (slf := if Qeq_bool sl 0 then 2%Q else sl) in *. clearbody slf.
    assert (0 <= pc * qty)%Q by (apply Qmult_le_0_compat; lra).
    assert (0 <= pc * slf)%Q by (apply Qmult_le_0_compat; lra).
    unfold Qdiv in *. change (/ 2)%Q with (Qmake 1 2) in *.
    change (/ 100)%Q with (Qmake 1 100) in *.
    assert (Hxc : (xc <= pc + 0.01 * Qmake 1 2)%Q) by lra.
    clear Hfired.
    assert (0 <= (pc + 0.01 * Qmake 1 2 - xc) * qty)%Q by (apply Qmult_le_0_compat; lra).
    lra.
Qed.

Lemma simulateTickerTrading_costs_witness :
  Forall (paysCosts (exDay #300000 #97 #90))
    (simulateTickerTrading meanReversion1 "AAPL" (exDay #300000 #97 #90) #50000).
Proof.
  refine (@simulateTickerTrading_costs meanReversion1 "AAPL" (exDay #300000 #97 #90) #50000
            _ _ _ _ _); reflexivity.
Defined.

(** ** Positions of no shares *)

Section ZeroShares.

Open Scope Q_scope.

Lemma floor_val x a : val x a -> floor x = ofZ (Qfloor a).
Proof. intros (a' & -> & Ha). simpl. now rewrite Ha. Qed.

Lemma div_negative_by_zero x y a : val x a -> a < 0 -> val y 0 -> div x y = NInf.
Proof.
  intros (a' & -> & Ha) Hneg (b' & -> & Hb). unfold div.
  assert (E : Qeq_bool b' 0 = true) by (apply Qeq_bool_iff; exact Hb).
  rewrite E. rewrite <- Ha in Hneg.
  assert (Hcmp : (a' ?= 0) = Lt) by (apply Qlt_alt; exact Hneg).
  rewrite Hcmp. reflexivity.
Qed.

Lemma Qfloor_unit q : 0 <= q < 1 -> Qfloor q = 0%Z.
Proof.
  intros [H0 H1].
  assert (0 <= Qfloor q)%Z by (apply (Qfloor_resp_le 0 q); exact H0).
  assert (Qfloor q < 1)%Z.
  { rewrite Zlt_Qlt. eapply Qle_lt_trans; [apply Qfloor_le | exact H1]. }
  lia.
Qed.

(** A signal on a share that costs more than the equity allotted to a
    position opens a position of no shares. *)
Lemma roundTrip_zero_shares strategy ticker currentEquity entry exit r pc xc eq ps cm :
  val (c entry) pc -> 0 < pc -> val (c exit) xc ->
  val currentEquity eq -> 0 <= eq ->
  val (positionSize (parameters strategy)) ps -> 0 <= ps ->
  val (commissionPerTrade (parameters strategy)) cm -> 0 <= cm ->
  eq * (sizeInForce ps / 100) < pc ->
  let trade := roundTrip strategy ticker currentEquity entry exit r in
  quantity trade = Fin 0
  /\ val (pnl trade) (- feeInForce cm)
  /\ pnlPercent trade = NInf.
Proof.
  intros Hc Hpc Hx Heqv Heq0 Hpsv Hps0 Hcmv Hcm0 Hsmall trade.
  destruct (@roundTrip_val strategy ticker currentEquity entry exit r pc xc eq ps cm
              Hc Hpc Hx Heqv Hpsv Hcmv) as (Hqty & Hbuy & Hfee & Hslip & Hpnl).
  fold trade in Hqty, Hbuy, Hfee, Hslip, Hpnl.
  assert (Hsz : 0 < sizeInForce ps).
  { unfold sizeInForce. destruct (Qeq_bool ps 0) eqn:E; [lra |].
    apply Qeq_bool_false_neq in E. lra. }
  assert (Hzero : shares eq ps pc == 0).
  { unfold shares. rewrite Qfloor_unit; [reflexivity |]. split.
    - apply Qle_shift_div_l; [exact Hpc |].
      unfold Qdiv. change (/ 100) with (Qmake 1 100). nra.
    - apply Qlt_shift_div_r; [exact Hpc | lra]. }
  assert (Eqty : quantity trade = Fin 0).
  { unfold trade, roundTrip, closePosition, openPosition, calculatePositionSize.
    cbn [quantity].
    rewrite (@floor_val _ (eq * (sizeInForce ps / 100) / pc)).
    - rewrite Qfloor_unit; [reflexivity |]. split.
      + apply Qle_shift_div_l; [exact Hpc |].
        unfold Qdiv. change (/ 100) with (Qmake 1 100). nra.
      + apply Qlt_shift_div_r; [exact Hpc | lra].
    - apply val_div; [| exact Hc | lra].
      apply val_mul; [exact Heqv |].
      apply val_div; [| apply val_Fin | discriminate].
      apply (val_orDefault Hpsv (val_Fin 20)). }
  assert (Hpnl0 : val (pnl trade) (- feeInForce cm)).
  { eapply val_eq; [exact Hpnl |]. rewrite Hzero. ring. }
  repeat split; auto.
  pose proof (feeInForce_pos Hcm0) as Hf0.
  unfold trade, roundTrip, closePosition in *. cbn [pnlPercent pnl quantity entryPrice] in *.
  rewrite (@div_negative_by_zero _ _ (- feeInForce cm)); [reflexivity | exact Hpnl0 | lra |].
  rewrite Eqty. eapply val_eq; [apply (val_mul Hbuy (val_Fin 0)) | ring].
Qed.

End ZeroShares.

(** A trade of no shares: the commission is its whole result, and its
    percentage result is [-Infinity]. *)
Definition emptyHanded (trade : Trade) : Prop :=
  quantity trade = #0
  /\ eqv (pnl trade) (neg (fees trade))
  /\ lt (pnl trade) #0 = true
  /\ pnlPercent trade = NInf.

(** Where the equity allotted to a position is below the close of every bar
    of the day, entry signals still open positions: of no shares.  Every
    trade of the day is logged with quantity 0, a loss of the commission and
    a percentage result of [-Infinity]. *)
Theorem simulateTickerTrading_zero_share_trades strategy ticker dayData currentEquity :
  forallb barOk dayData = true ->
  nonNegative currentEquity = true ->
  nonNegative (positionSize (parameters strategy)) = true ->
  nonNegative (commissionPerTrade (parameters strategy)) = true ->
  forallb (fun bar =>
             lt (mul currentEquity
                   (div (orDefault (positionSize (parameters strategy)) #20) #100))
                (c bar)) dayData = true ->
  Forall emptyHanded (simulateTickerTrading strategy ticker dayData currentEquity).
Proof.
  intros Hbars Heq Hps Hcm Hsmall.
  pose proof (simulateTickerTrading_journal strategy ticker dayData currentEquity) as Hlog.
  apply Forall_forall. intros trade Hin.
  destruct (journal_In trade Hlog Hin) as (j & k & r & _ & Hleg).
  destruct Hleg as (entry & exit & Hj & Hk & Hjk & _ & _ & _ & Etrade).
  apply nth_error_In in Hj, Hk.
  rewrite forallb_forall in Hbars, Hsmall.
  destruct (barOk_val _ (Hbars _ Hj)) as (pc & Hc & Hpc).
  destruct (barOk_val _ (Hbars _ Hk)) as (xc & Hx & _).
  destruct (nonNegative_val _ Heq) as (eq & Heqv & Heq0).
  destruct (nonNegative_val _ Hps) as (ps & Hpsv & Hps0).
  destruct (nonNegative_val _ Hcm) as (cm & Hcmv & Hcm0).
  assert (Hlt : (eq * (sizeInForce ps / 100) < pc)%Q).
  { apply (val_lt (val_mul Heqv
                     (val_div (val_orDefault Hpsv (val_Fin 20)) (val_Fin 100)
                        ltac:(discriminate))) Hc).
    apply Hsmall. exact Hj. }
  destruct (@roundTrip_zero_shares strategy ticker currentEquity entry exit r pc xc eq ps cm
              Hc Hpc Hx Heqv Heq0 Hpsv Hps0 Hcmv Hcm0 Hlt) as (Hqty & Hpnl & Hpct).
  destruct (@roundTrip_val strategy ticker currentEquity entry exit r pc xc eq ps cm
              Hc Hpc Hx Heqv Hpsv Hcmv) as (_ & _ & Hfee & _ & _).
  change (roundTrip strategy ticker currentEquity entry exit r)
    with (closePosition (openPosition strategy ticker entry currentEquity) exit r) in *.
  rewrite <- Etrade in *.
  pose proof (feeInForce_pos Hcm0) as Hf0.
  repeat split; auto.
  - apply (val_eqv Hpnl (val_neg Hfee)).
  - apply (val_lt Hpnl (val_Fin 0)). lra.
Qed.

Lemma simulateTickerTrading_zero_share_trades_witness :
  Forall emptyHanded
    (simulateTickerTrading meanReversion1 "AAPL" (exDay #300000 #97 #97.5) #300).
Proof.
  refine (@simulateTickerTrading_zero_share_trades meanReversion1 "AAPL"
            (exDay #300000 #97 #97.5) #300 _ _ _ _ _); reflexivity.
Defined.

(** ** Where the trades of a backtest come from *)

Lemma calendarDays_In from n d :
  In d (calendarDays from n) -> exists k, 0 <= k < Z.of_nat n /\ d = addDays from k.
Proof.
  revert from. induction n as [| n IH]; intros from Hin; [destruct Hin |].
  destruct Hin as [<- | Hin].
  - exists 0. split; [lia | unfold addDays; lia].
  - destruct (IH _ Hin) as (k & Hk & ->). exists (k + 1). split; [lia |].
    unfold addDays. lia.
Qed.

(** The days [getTradingDays] returns are weekdays of the range, each a
    whole number of days after the start date, at the start date's time of
    day. *)
Lemma getTradingDays_In this d :
  In d (getTradingDays this) ->
  isWeekend d = false
  /\ startDate this <= d <= endDate this
  /\ exists k, 0 <= k /\ d = startDate this + k * DAY.
Proof.
  rewrite getTradingDays_spec. intros Hin. apply filter_In in Hin.
  destruct Hin as [Hin Hwd]. apply negb_true_iff in Hwd.
  destruct (@calendarDays_In _ _ _ Hin) as (k & Hk & ->).
  unfold tradingDaysFuel in Hk. unfold addDays.
  assert (HD : 0 < DAY) by (unfold DAY; lia).
  split; [exact Hwd |]. split; [| exists k; split; [lia | reflexivity]].
  split; [nia |].
  assert (Hq : k <= (endDate this - startDate this) / DAY) by lia.
  pose proof (Z.mul_div_le (endDate this - startDate this) DAY HD) as Hm.
  assert (k * DAY <= (endDate this - startDate this) / DAY * DAY) by nia.
  lia.
Qed.

Lemma getDayData_In data date bar :
  In bar (getDayData data date)
  <-> In bar data /\ startOfDay date <= t bar <= endOfDay date.
Proof.
  unfold getDayData. rewrite filter_In, andb_true_iff, Z.leb_le, Z.leb_le. tauto.
Qed.

Lemma simulateTradingDay_In strategy tickerData date currentEquity trade :
  In trade (simulateTradingDay strategy tickerData date currentEquity) ->
  isMarketOpen date (tradingHours (parameters strategy)) = true
  /\ exists ticker data,
       In (ticker, data) tickerData
       /\ In trade (simulateTickerTrading strategy ticker (getDayData data date) currentEquity).
Proof.
  unfold simulateTradingDay.
  destruct (isMarketOpen date (tradingHours (parameters strategy))); simpl; [| intros []].
  intros Hin. split; [reflexivity |].
  assert (H : forall acc,
            In trade
              (fold_left
                 (fun trades '(ticker, data) =>
                    match getDayData data date with
                    | [] => trades
                    | _ :: _ =>
                        trades ++ simulateTickerTrading strategy ticker
                                    (getDayData data date) currentEquity
                    end) tickerData acc) ->
            In trade acc
            \/ exists ticker data,
                 In (ticker, data) tickerData
                 /\ In trade (simulateTickerTrading strategy ticker (getDayData data date)
                                currentEquity)).
  { clear Hin. induction tickerData as [| [ticker data] rest IH]; intros acc Hacc; simpl in Hacc.
    - left. exact Hacc.
    - destruct (IH _ Hacc) as [Hhere | (tk & d & Hd & Htr)].
      + destruct (getDayData data date) as [| b bs] eqn:E; [left; exact Hhere |].
        apply in_app_or in Hhere. destruct Hhere as [Hhere | Hhere]; [left; exact Hhere |].
        right. exists ticker, data. rewrite E. split; [left; reflexivity | exact Hhere].
      + right. exists tk, d. split; [right; exact Hd | exact Htr]. }
  destruct (H [] Hin) as [[] | Hex]. exact Hex.
Qed.

Lemma dayStep_trades_In this strategy tickerData days : forall st trade,
  In trade (fst (fst (fold_left (dayStep this strategy tickerData) days st))) ->
  In trade (fst (fst st))
  \/ exists date currentEquity,
       In date days
       /\ In trade (simulateTradingDay strategy tickerData date currentEquity).
Proof.
  induction days as [| d days IH]; intros [[trades curve] eq] trade Hin; simpl in Hin.
  - left. exact Hin.
  - destruct (IH _ _ Hin) as [Hhere | (date & eq' & Hd & Htr)].
    + simpl in Hhere. apply in_app_or in Hhere.
      destruct Hhere as [Hhere | Hhere]; [left; exact Hhere |].
      right. exists d, eq. split; [left; reflexivity | exact Hhere].
    + right. exists date, eq'. split; [right; exact Hd | exact Htr].
Qed.

(** What [performRealBacktest] returns, in terms of the state its loop over
    the trading days ends in. *)
Lemma performRealBacktest_unfold sqrt_pos pow_pos (World : Type)
    this strategy tickerData (s : State World) :
  let final := fold_left (dayStep this strategy tickerData) (getTradingDays this)
                 ([], [], capital this) in
  performRealBacktest sqrt_pos pow_pos this strategy tickerData s
  = (Ret {| strategyId := id strategy;
            r_capital := capital this;
            r_startDate := IsoDate (startDate this);
            r_endDate := IsoDate (endDate this);
            performance :=
              calculatePerformanceMetrics sqrt_pos pow_pos this (fst (fst final))
                (snd (fst final));
            trades := fst (fst final);
            equityCurve := snd (fst final);
            drawdownCurve := [];
            monthlyReturns := [] |}, s).
Proof.
  cbv zeta. unfold performRealBacktest.
  destruct (fold_left _ _ _) as [[trades curve] eq]. reflexivity.
Qed.

(** A trade made within one day: entered and closed at bars of one ticker
    that lie on one calendar day, a weekday of the range on which the
    market was open. *)
Definition intraday (this : Engine) (strategy : Strategy)
    (tickerData : TickerData) (trade : Trade) : Prop :=
  exists date symbol data entry exit,
    In date (getTradingDays this)
    /\ isWeekend date = false
    /\ startDate this <= date <= endDate this
    /\ isMarketOpen date (tradingHours (parameters strategy)) = true
    /\ In (symbol, data) tickerData
    /\ ticker trade = symbol
    /\ In entry data /\ In exit data
    /\ entryTime trade = t entry /\ exitTime trade = t exit
    /\ startOfDay date <= entryTime trade <= endOfDay date
    /\ startOfDay date <= exitTime trade <= endOfDay date.

(** No position is carried overnight: every trade of a backtest on fetched
    bars was entered and closed on one and the same calendar day, a weekday
    of the range, at bars of the ticker it names. *)
Theorem performRealBacktest_trades_intraday sqrt_pos pow_pos (World : Type)
    this strategy tickerData (s : State World) :
  exists r,
    performRealBacktest sqrt_pos pow_pos this strategy tickerData s = (Ret r, s)
    /\ Forall (intraday this strategy tickerData) (trades r).
Proof.
  rewrite performRealBacktest_unfold. eexists. split; [reflexivity |].
  cbn [trades]. apply Forall_forall. intros trade Hin.
  apply dayStep_trades_In in Hin. destruct Hin as [[] | (date & eq & Hd & Hin)].
  apply simulateTradingDay_In in Hin. destruct Hin as (Hopen & symbol & data & Hdata & Hin).
  destruct (@getTradingDays_In _ _ Hd) as (Hwd & Hrange & _).
  pose proof (simulateTickerTrading_journal strategy symbol (getDayData data date) eq) as Hlog.
  destruct (journal_In trade Hlog Hin) as (j & k & r & _ & Hleg).
  destruct Hleg as (entry & exit & Hj & Hk & _ & _ & _ & _ & ->).
  apply nth_error_In in Hj, Hk. apply getDayData_In in Hj, Hk.
  destruct Hj as [Hj Hjt], Hk as [Hk Hkt].
  exists date, symbol, data, entry, exit.
  cbn [ticker entryTime exitTime closePosition openPosition].
  repeat split; auto; lia.
Qed.

(** ** Days without trades *)

Lemma add_zero_r x : eqv (add x #0) x.
Proof.
  destruct x; unfold add, fin; cbn [eqv]; auto. rewrite Qred_correct. ring.
Qed.

Lemma add_zero_l x : eqv (add #0 x) x.
Proof.
  destruct x; unfold add, fin; cbn [eqv]; auto. rewrite Qred_correct. ring.
Qed.

Lemma add_eqv x x' y y' : eqv x x' -> eqv y y' -> eqv (add x y) (add x' y').
Proof.
  destruct x, x', y, y'; unfold add, fin; cbn [eqv]; try tauto.
  intros H1 H2. now rewrite !Qred_correct, H1, H2.
Qed.

Lemma add_assoc x y z : eqv (add (add x y) z) (add x (add y z)).
Proof.
  destruct x, y, z; unfold add, fin; cbn [eqv]; auto. rewrite !Qred_correct. ring.
Qed.

Lemma dayStep_idle_day this strategy tickerData trades curve eq d :
  simulateTradingDay strategy tickerData d eq = [] ->
  dayStep this strategy tickerData (trades, curve, eq) d
  = (trades,
     curve ++ [{| date := d; equity := add eq #0;
                  ret_ := mul (div (sub (add eq #0) (capital this)) (capital this)) #100 |}],
     add eq #0).
Proof.
  intros E. unfold dayStep. rewrite E. cbn [map]. change (sum []) with #0.
  rewrite app_nil_r. reflexivity.
Qed.

(** A loop over days on which nothing is traded leaves the log as it is and
    the equity at its value. *)
Lemma dayStep_idle this strategy tickerData days :
  (forall date currentEquity, In date days ->
     simulateTradingDay strategy tickerData date currentEquity = []) ->
  forall st,
    let final := fold_left (dayStep this strategy tickerData) days st in
    fst (fst final) = fst (fst st)
    /\ eqv (snd final) (snd st)
    /\ (Forall (fun point => eqv (equity point) (snd st)) (snd (fst st)) ->
        Forall (fun point => eqv (equity point) (snd st)) (snd (fst final))).
Proof.
  induction days as [| d days IH]; intros Hidle [[trades curve] eq]; cbv zeta.
  - simpl. repeat split; auto. apply eqv_refl.
  - cbn [fold_left]. rewrite dayStep_idle_day by (apply Hidle; left; reflexivity).
    destruct (IH (fun date e Hin => Hidle date e (or_intror Hin))
                 (trades, curve ++ [{| date := d; equity := add eq #0;
                                       ret_ := mul (div (sub (add eq #0) (capital this))
                                                        (capital this)) #100 |}],
                  add eq #0)) as (Ht & He & Hc).
    cbn [fst snd] in *. split; [exact Ht |]. split.
    + eapply eqv_trans; [exact He | apply add_zero_r].
    + intros Hcurve.
      assert (Hshift : forall points,
                Forall (fun point => eqv (equity point) (add eq #0)) points ->
                Forall (fun point => eqv (equity point) eq) points).
      { intros points. apply Forall_impl. intros point Hp.
        eapply eqv_trans; [exact Hp | apply add_zero_r]. }
      apply Hshift. apply Hc. apply Forall_app. split.
      * revert Hcurve. apply Forall_impl. intros point Hp.
        eapply eqv_trans; [exact Hp | apply eqv_sym, add_zero_r].
      * constructor; [apply eqv_refl | constructor].
Qed.

(** A backtest without a single trade: an empty log, the metrics all zero,
    one equity point per trading day, all at the capital. *)
Definition idleResult (this : Engine) (r : BacktestResult) : Prop :=
  trades r = []
  /\ performance r = getEmptyMetrics
  /\ map date (equityCurve r) = getTradingDays this
  /\ Forall (fun point => eqv (equity point) (capital this)) (equityCurve r).

Lemma performRealBacktest_idle sqrt_pos pow_pos (World : Type)
    this strategy tickerData (s : State World) :
  (forall date currentEquity, In date (getTradingDays this) ->
     simulateTradingDay strategy tickerData date currentEquity = []) ->
  exists r,
    performRealBacktest sqrt_pos pow_pos this strategy tickerData s = (Ret r, s)
    /\ idleResult this r.
Proof.
  intros Hidle. rewrite performRealBacktest_unfold. eexists. split; [reflexivity |].
  destruct (dayStep_idle this strategy tickerData (getTradingDays this) Hidle
              ([], [], capital this)) as (Ht & _ & Hc).
  pose proof (dayStep_dates this strategy tickerData (getTradingDays this)
                ([], [], capital this)) as Hd.
  cbn [fst snd] in *. unfold idleResult. cbn [trades performance equityCurve].
  rewrite Ht. repeat split; auto.
Qed.

(** The hours test of [isMarketOpen], which reads the time of day only. *)
Definition withinHours (date : Z) (tradingHours : TradingHours) : bool :=
  let '(startHour, startMin) :=
    match th_start tradingHours with Some hm => hm | None => (#9, #30) end in
  let '(endHour, endMin) :=
    match th_end tradingHours with Some hm => hm | None => (#16, #0) end in
  let currentHour := ofZ (getHours date) in
  let currentMin := ofZ (getMinutes date) in
  let startTime := add (mul startHour #60) startMin in
  let endTime := add (mul endHour #60) endMin in
  let currentTime := add (mul currentHour #60) currentMin in
  ge currentTime startTime && le currentTime endTime.

Lemma isMarketOpen_withinHours date tradingHours :
  isMarketOpen date tradingHours = negb (isWeekend date) && withinHours date tradingHours.
Proof.
  unfold isMarketOpen, isWeekend, withinHours.
  destruct ((getDay date =? 0) || (getDay date =? 6)); reflexivity.
Qed.

Lemma withinHours_days_later date k tradingHours :
  withinHours (date + k * DAY) tradingHours = withinHours date tradingHours.
Proof.
  unfold withinHours, getHours, getMinutes.
  replace ((date + k * DAY) mod DAY) with (date mod DAY)
    by (rewrite Z.mod_add; [reflexivity | unfold DAY; lia]).
  replace ((date + k * DAY) mod 3600000) with (date mod 3600000).
  - reflexivity.
  - replace (k * DAY) with (k * 24 * 3600000) by (unfold DAY; lia).
    rewrite Z.mod_add; [reflexivity | lia].
Qed.

(** The trading days carry the start date's time of day, and it is that
    time [simulateTradingDay] tests against the strategy's trading hours.
    A backtest whose start date has a time of day outside the trading hours
    (midnight, for one, as against hours from 09:30 to 16:00) trades on no day:
    the log is empty, the metrics are all zero and the equity stays at the
    capital, whatever the bars. *)
Theorem performRealBacktest_outside_trading_hours sqrt_pos pow_pos (World : Type)
    this strategy tickerData (s : State World) :
  withinHours (startDate this) (tradingHours (parameters strategy)) = false ->
  exists r,
    performRealBacktest sqrt_pos pow_pos this strategy tickerData s = (Ret r, s)
    /\ idleResult this r.
Proof.
  intros Hclosed. apply performRealBacktest_idle.
  intros date eq Hin. destruct (@getTradingDays_In _ _ Hin) as (_ & _ & k & _ & ->).
  unfold simulateTradingDay.
  rewrite isMarketOpen_withinHours, withinHours_days_later, Hclosed, andb_false_r.
  reflexivity.
Qed.

Lemma performRealBacktest_outside_trading_hours_witness :
  exists r,
    performRealBacktest sqrtDown powInterpolated
      (exEngine #50000 [meanReversion1] monday (monday + 4 * DAY)) meanReversion1
      [("AAPL", exDay #300000 #97 #97.5)] (construct
        (exEngine #50000 [meanReversion1] monday (monday + 4 * DAY)) tt)
    = (Ret r, construct (exEngine #50000 [meanReversion1] monday (monday + 4 * DAY)) tt)
    /\ idleResult (exEngine #50000 [meanReversion1] monday (monday + 4 * DAY)) r.
Proof.
  refine (@performRealBacktest_outside_trading_hours sqrtDown powInterpolated unit
            (exEngine #50000 [meanReversion1] monday (monday + 4 * DAY)) meanReversion1
            [("AAPL", exDay #300000 #97 #97.5)] _ _).
  reflexivity.
Defined.

(** Strategy types for which [shouldEnter] has no rule. *)
Definition hasNoEntryRule (strategyType : StrategyType) : bool :=
  match strategyType with
  | breakout | gap_and_go | news_scalping => true
  | _ => false
  end.

Lemma shouldEnter_no_rule strategy data index :
  hasNoEntryRule (type strategy) = true -> shouldEnter strategy data index = false.
Proof.
  intros H. unfold shouldEnter.
  destruct (index <? 20)%nat; [reflexivity |].
  destruct (nth_error data index); [| reflexivity].
  destruct (nth_error data (index - 1)); [| reflexivity].
  destruct (lt _ _); [reflexivity |].
  destruct (lt _ _); [reflexivity |].
  destruct (type strategy); first [reflexivity | discriminate H].
Qed.

Lemma simulateTickerTrading_no_signal strategy ticker dayData currentEquity :
  (forall i, shouldEnter strategy dayData i = false) ->
  simulateTickerTrading strategy ticker dayData currentEquity = [].
Proof.
  intros Hno.
  pose proof (simulateTickerTrading_journal strategy ticker dayData currentEquity) as Hlog.
  destruct (simulateTickerTrading strategy ticker dayData currentEquity) as [| trade rest];
    [reflexivity |].
  destruct (journal_In trade Hlog (or_introl eq_refl)) as (j & k & r & _ & Hleg).
  destruct Hleg as (_ & _ & _ & _ & _ & Hsig & _). rewrite Hno in Hsig. discriminate.
Qed.

Lemma simulateTradingDay_no_signal strategy tickerData date currentEquity :
  (forall data i, shouldEnter strategy data i = false) ->
  simulateTradingDay strategy tickerData date currentEquity = [].
Proof.
  intros Hno.
  destruct (simulateTradingDay strategy tickerData date currentEquity) as [| trade rest] eqn:E;
    [reflexivity |].
  assert (Hin : In trade (simulateTradingDay strategy tickerData date currentEquity))
    by (rewrite E; left; reflexivity).
  apply simulateTradingDay_In in Hin. destruct Hin as (_ & ticker & data & _ & Hin).
  rewrite simulateTickerTrading_no_signal in Hin by (intros i; apply Hno). destruct Hin.
Qed.

(** Breakout, gap-and-go and news-scalping strategies never trade on fetched
    bars: there is no entry rule for them, so the log is empty, the metrics
    are all zero and the equity stays at the capital, whatever the bars. *)
Theorem performRealBacktest_no_entry_rule sqrt_pos pow_pos (World : Type)
    this strategy tickerData (s : State World) :
  hasNoEntryRule (type strategy) = true ->
  exists r,
    performRealBacktest sqrt_pos pow_pos this strategy tickerData s = (Ret r, s)
    /\ idleResult this r.
Proof.
  intros Hty. apply performRealBacktest_idle.
  intros date eq _. apply simulateTradingDay_no_signal.
  intros data i. apply shouldEnter_no_rule. exact Hty.
Qed.

Lemma performRealBacktest_no_entry_rule_witness :
  exists r,
    performRealBacktest sqrtDown powInterpolated
      (exEngine #50000 [] monday10 (monday10 + 4 * DAY))
      (exStrategy "breakout-1" breakout ["AAPL"] #250000)
      [("AAPL", exDay #300000 #97 #97.5)]
      (construct (exEngine #50000 [] monday10 (monday10 + 4 * DAY)) tt)
    = (Ret r, construct (exEngine #50000 [] monday10 (monday10 + 4 * DAY)) tt)
    /\ idleResult (exEngine #50000 [] monday10 (monday10 + 4 * DAY)) r.
Proof.
  refine (@performRealBacktest_no_entry_rule sqrtDown powInterpolated unit
            (exEngine #50000 [] monday10 (monday10 + 4 * DAY))
            (exStrategy "breakout-1" breakout ["AAPL"] #250000)
            [("AAPL", exDay #300000 #97 #97.5)] _ _).
  reflexivity.
Defined.

(** ** The equity follows the log *)

Lemma sub_eqv x x' y y' : eqv x x' -> eqv y y' -> eqv (sub x y) (sub x' y').
Proof.
  destruct x, x', y, y'; unfold sub, fin; cbn [eqv]; try tauto.
  intros H1 H2. now rewrite !Qred_correct, H1, H2.
Qed.

Lemma Qeq_bool_eqv a a' : (a == a')%Q -> Qeq_bool a 0 = Qeq_bool a' 0.
Proof.
  intros H. destruct (Qeq_bool a' 0) eqn:E.
  - apply Qeq_bool_iff. apply Qeq_bool_iff in E. now rewrite H.
  - destruct (Qeq_bool a 0) eqn:E'; [| reflexivity].
    apply Qeq_bool_iff in E'. apply Qeq_bool_false_neq in E.
    exfalso. apply E. now rewrite <- H.
Qed.

Lemma sign_eqv x x' : eqv x x' -> sign x = sign x'.
Proof.
  destruct x, x'; cbn [eqv sign]; try tauto. intros H. now rewrite H.
Qed.

Lemma mul_eqv x x' y y' : eqv x x' -> eqv y y' -> eqv (mul x y) (mul x' y').
Proof.
  intros H1 H2. pose proof (sign_eqv _ _ H1) as S1. pose proof (sign_eqv _ _ H2) as S2.
  destruct x, x', y, y'; cbn [eqv] in H1, H2; try tauto; unfold mul;
    try (rewrite S1); try (rewrite S2); try apply eqv_refl.
  unfold fin. cbn [eqv]. now rewrite !Qred_correct, H1, H2.
Qed.

Lemma div_eqv x x' y y' : eqv x x' -> eqv y y' -> eqv (div x y) (div x' y').
Proof.
  intros H1 H2. pose proof (sign_eqv _ _ H1) as S1.
  destruct x, x', y, y'; cbn [eqv] in H1, H2; try tauto; unfold div;
    try (rewrite S1); try apply eqv_refl.
  - rewrite (Qeq_bool_eqv H2). destruct (Qeq_bool q2 0) eqn:E.
    + rewrite H1. apply eqv_refl.
    + unfold fin. cbn [eqv]. now rewrite !Qred_correct, H1, H2.
  - rewrite H2. apply eqv_refl.
  - rewrite H2. apply eqv_refl.
Qed.

Lemma fold_add_eqv ys : forall a, eqv (fold_left add ys a) (add a (fold_left add ys #0)).
Proof.
  induction ys as [| y ys IH]; intros a; cbn [fold_left].
  - apply eqv_sym, add_zero_r.
  - eapply eqv_trans; [apply IH |].
    eapply eqv_trans; [apply add_assoc |].
    apply add_eqv; [apply eqv_refl |].
    apply eqv_sym. eapply eqv_trans; [apply IH |].
    apply add_eqv; [apply add_zero_l | apply eqv_refl].
Qed.

Lemma sum_app xs ys : eqv (sum (xs ++ ys)) (add (sum xs) (sum ys)).
Proof. unfold sum. rewrite fold_left_app. apply fold_add_eqv. Qed.

Lemma nth_error_last_snoc {A} (xs : list A) x :
  nth_error (xs ++ [x]) (List.length (xs ++ [x]) - 1) = Some x.
Proof.
  rewrite length_app. simpl. replace (List.length xs + 1 - 1)%nat with (List.length xs) by lia.
  apply nth_error_middle.
Qed.

(** After every day the equity is the capital plus the results of the
    trades logged so far, and it is the equity of the last point of the
    curve. *)
Lemma dayStep_equity this strategy tickerData days : forall st,
  eqv (snd st) (add (capital this) (sum (map pnl (fst (fst st))))) ->
  (forall point,
     nth_error (snd (fst st)) (List.length (snd (fst st)) - 1) = Some point ->
     equity point = snd st) ->
  let final := fold_left (dayStep this strategy tickerData) days st in
  eqv (snd final) (add (capital this) (sum (map pnl (fst (fst final)))))
  /\ (forall point,
        nth_error (snd (fst final)) (List.length (snd (fst final)) - 1) = Some point ->
        equity point = snd final).
Proof.
  induction days as [| d days IH]; intros [[trades curve] eq] Heq Hlast; cbv zeta.
  - split; assumption.
  - cbn [fold_left]. apply IH; unfold dayStep; cbn [fst snd] in *.
    + rewrite map_app.
      eapply eqv_trans; [| apply add_eqv; [apply eqv_refl | apply eqv_sym, sum_app]].
      eapply eqv_trans; [| apply add_assoc].
      apply add_eqv; [exact Heq | apply eqv_refl].
    + intros point. rewrite nth_error_last_snoc. intros E. inversion E. reflexivity.
Qed.

(** The total return the analyzer computes from a capital and a final
    equity. *)
Definition totalReturnOf (capital finalEquity : num) : num :=
  mul (div (sub finalEquity capital) capital) #100.


(** ** Ranges of the reported statistics *)

Section Statistics.

Open Scope Q_scope.

Lemma fold_max2_finite xs : forall a,
  forallb isFinite xs = true ->
  exists m, fold_left max2 xs (Fin a) = Fin m
            /\ a <= m
            /\ (forall x, In x xs -> qval x <= m)
            /\ (m = a \/ In (Fin m) xs).
Proof.
  induction xs as [| x xs IH]; intros a Hfin; cbn [fold_left].
  - exists a. repeat split; auto; [lra | intros x []].
  - cbn [forallb] in Hfin. apply andb_prop in Hfin. destruct Hfin as [Hx Hxs].
    destruct x as [b | | |]; try discriminate.
    destruct (max2_fin a b) as (z & -> & Haz & Hbz & Hz).
    destruct (IH z Hxs) as (m & -> & Hzm & Hall & Hm).
    exists m. repeat split; auto.
    + lra.
    + intros x [<- | Hin]; [simpl; lra | auto].
    + destruct Hm as [-> | Hm]; [| right; right; exact Hm].
      destruct Hz as [-> | ->]; [left; reflexivity | right; left; reflexivity].
Qed.

Lemma fold_min2_finite xs : forall a,
  forallb isFinite xs = true ->
  exists m, fold_left min2 xs (Fin a) = Fin m
            /\ m <= a
            /\ (forall x, In x xs -> m <= qval x)
            /\ (m = a \/ In (Fin m) xs).
Proof.
  induction xs as [| x xs IH]; intros a Hfin; cbn [fold_left].
  - exists a. repeat split; auto; [lra | intros x []].
  - cbn [forallb] in Hfin. apply andb_prop in Hfin. destruct Hfin as [Hx Hxs].
    destruct x as [b | | |]; try discriminate.
    destruct (min2_fin a b) as (z & -> & Haz & Hbz & Hz).
    destruct (IH z Hxs) as (m & -> & Hzm & Hall & Hm).
    exists m. repeat split; auto.
    + lra.
    + intros x [<- | Hin]; [simpl; lra | auto].
    + destruct Hm as [-> | Hm]; [| right; right; exact Hm].
      destruct Hz as [-> | ->]; [left; reflexivity | right; left; reflexivity].
Qed.

(** [Math.max(...xs)] and [Math.min(...xs)] of finite numbers, one at least:
    a member of the list that bounds them all. *)
Lemma maxList_finite xs :
  forallb isFinite xs = true -> xs <> [] ->
  exists m, maxList xs = Fin m /\ In (Fin m) xs /\ forall x, In x xs -> qval x <= m.
Proof.
  intros Hfin Hne. destruct xs as [| x xs]; [congruence |].
  cbn [forallb] in Hfin. apply andb_prop in Hfin. destruct Hfin as [Hx Hxs].
  destruct x as [b | | |]; try discriminate.
  unfold maxList. cbn [fold_left]. change (max2 NInf (Fin b)) with (Fin b).
  destruct (fold_max2_finite xs b Hxs) as (m & -> & Hbm & Hall & Hm).
  exists m. repeat split; auto.
  - destruct Hm as [-> | Hm]; [left; reflexivity | right; exact Hm].
  - intros x [<- | Hin]; [simpl; lra | auto].
Qed.

Lemma minList_finite xs :
  forallb isFinite xs = true -> xs <> [] ->
  exists m, minList xs = Fin m /\ In (Fin m) xs /\ forall x, In x xs -> m <= qval x.
Proof.
  intros Hfin Hne. destruct xs as [| x xs]; [congruence |].
  cbn [forallb] in Hfin. apply andb_prop in Hfin. destruct Hfin as [Hx Hxs].
  destruct x as [b | | |]; try discriminate.
  unfold minList. cbn [fold_left]. change (min2 PInf (Fin b)) with (Fin b).
  destruct (fold_min2_finite xs b Hxs) as (m & -> & Hbm & Hall & Hm).
  exists m. repeat split; auto.
  - destruct Hm as [-> | Hm]; [left; reflexivity | right; exact Hm].
  - intros x [<- | Hin]; [simpl; lra | auto].
Qed.

Lemma Qsum_bounds xs lo hi :
  (forall x, In x xs -> lo <= qval x <= hi) ->
  inject_Z (Z.of_nat (List.length xs)) * lo <= Qsum xs
  /\ Qsum xs <= inject_Z (Z.of_nat (List.length xs)) * hi.
Proof.
  induction xs as [| x xs IH]; intros Hall.
  - cbn [List.length Qsum fold_right]. change (inject_Z (Z.of_nat 0)) with 0. lra.
  - destruct IH as [IH1 IH2]; [intros y Hy; apply Hall; right; exact Hy |].
    destruct (Hall x (or_introl eq_refl)) as [Hlo Hhi].
    cbn [List.length Qsum fold_right]. fold (Qsum xs).
    rewrite Nat2Z.inj_succ. unfold Z.succ. rewrite inject_Z_plus.
    change (inject_Z 1) with 1. lra.
Qed.

Lemma sum_val xs : forallb isFinite xs = true -> val (sum xs) (Qsum xs).
Proof. intros H. destruct (sum_finite xs H) as (q & -> & Hq). exists q. auto. Qed.

End Statistics.

(** The statistics of a trade log whose results are finite numbers. *)
Definition consistentStatistics (trades : list Trade) (p : PerformanceMetrics) : Prop :=
  exists worst best average rate,
    totalTrades p = lengthNum trades
    /\ worstTrade p = Fin worst /\ In (Fin worst) (map pnl trades)
    /\ bestTrade p = Fin best /\ In (Fin best) (map pnl trades)
    /\ (forall trade, In trade trades ->
          le (Fin worst) (pnl trade) = true /\ le (pnl trade) (Fin best) = true)
    /\ val (avgTradeReturn p) average /\ (worst <= average <= best)%Q
    /\ val (winRate p) rate /\ (0 <= rate <= 100)%Q.

Lemma calculatePerformanceMetrics_fields sqrt_pos pow_pos this trades equityCurve :
  trades <> [] ->
  let p := calculatePerformanceMetrics sqrt_pos pow_pos this trades equityCurve in
  totalTrades p = lengthNum trades
  /\ worstTrade p = minList (map pnl trades)
  /\ bestTrade p = maxList (map pnl trades)
  /\ avgTradeReturn p = div (sum (map pnl trades)) (lengthNum trades)
  /\ winRate p
     = mul (div (lengthNum (filter (fun trade => gt (pnl trade) #0) trades))
                (lengthNum trades)) #100.
Proof.
  intros Hne. destruct trades; [congruence |]. repeat split; reflexivity.
Qed.



Section Drawdown.

Open Scope Q_scope.

Lemma le_lt_le x y z : le x y = true -> lt y z = true -> le x z = true.
Proof.
  destruct x as [a | | |], y as [b | | |], z as [c | | |];
    cbn [le lt]; try discriminate; auto.
  intros H1 H2. apply Qle_bool_iff in H1. apply Qle_bool_iff.
  apply negb_true_iff in H2.
  destruct (Qlt_le_dec b c) as [Hlt | Hle]; [lra |].
  apply Qle_bool_iff in Hle. congruence.
Qed.

(** The largest drawdown so far is never negative and never [NaN]. *)
Lemma drawdown_nonneg curve : forall st,
  le (Fin 0) (fst st) = true -> le (Fin 0) (fst (fold_left drawdownStep curve st)) = true.
Proof.
  induction curve as [| point curve IH]; intros [md peak] H; [exact H |].
  cbn [fold_left]. apply IH. unfold drawdownStep. cbn [fst] in *.
  destruct (gt _ md) eqn:E; [| exact H].
  unfold gt in E. eapply le_lt_le; eassumption.
Qed.

(** While the equity is not negative, the peak stays positive and the
    largest drawdown between 0 and 100 percent. *)
Lemma drawdown_bounded curve : forall st m pk,
  val (fst st) m -> 0 <= m <= 100 ->
  val (snd st) pk -> 0 < pk ->
  forallb (fun point => nonNegative (equity point)) curve = true ->
  exists m', val (fst (fold_left drawdownStep curve st)) m' /\ 0 <= m' <= 100.
Proof.
  induction curve as [| point curve IH]; intros [md peak] m pk Hm Hm' Hpk Hpk' Hall.
  - exists m. split; assumption.
  - cbn [forallb] in Hall. apply andb_prop in Hall. destruct Hall as [He Hall].
    destruct (nonNegative_val _ He) as (e & Hev & He0).
    cbn [fold_left fst snd] in *.
    assert (Hpeak : exists pk', val (if gt (equity point) peak then equity point else peak) pk'
                                /\ 0 < pk' /\ e <= pk').
    { unfold gt. destruct (lt peak (equity point)) eqn:E.
      - apply (val_lt Hpk Hev) in E. exists e. repeat split; auto; lra.
      - exists pk. repeat split; auto.
        destruct (Qlt_le_dec pk e) as [Hlt | Hle]; [| exact Hle].
        apply (val_lt Hpk Hev) in Hlt. congruence. }
    destruct Hpeak as (pk' & Hpkv & Hpk0 & Hepk).
    unfold drawdownStep.
    set (peak' := if gt (equity point) peak then equity point else peak) in *.
    assert (Hdd : val (mul (div (sub peak' (equity point)) peak') (Fin 100))
                    ((pk' - e) / pk' * 100)).
    { apply val_mul; [| apply val_Fin]. apply val_div; [| exact Hpkv | lra].
      apply val_sub; assumption. }
    assert (Hdd' : 0 <= (pk' - e) / pk' * 100 <= 100).
    { assert (0 <= (pk' - e) / pk') by (apply Qle_shift_div_l; lra).
      assert ((pk' - e) / pk' <= 1) by (apply Qle_shift_div_r; lra).
      lra. }
    destruct (gt (mul (div (sub peak' (equity point)) peak') (Fin 100)) md).
    + apply (IH (mul (div (sub peak' (equity point)) peak') (Fin 100), peak') _ pk'
                Hdd Hdd' Hpkv Hpk0 Hall).
    + apply (IH (md, peak') _ pk' Hm Hm' Hpkv Hpk0 Hall).
Qed.

End Drawdown.

Lemma maxDrawdown_unfold sqrt_pos pow_pos this trades equityCurve :
  maxDrawdown (calculatePerformanceMetrics sqrt_pos pow_pos this trades equityCurve)
  = match trades with
    | [] => #0
    | _ => fst (fold_left drawdownStep equityCurve (#0, capital this))
    end.
Proof. destruct trades; reflexivity. Qed.

(** The maximum drawdown reported is never negative and never [NaN]; and for
    a positive finite capital and a curve whose equity is finite and never
    negative, it is at most 100 percent. *)
Theorem maxDrawdown_range sqrt_pos pow_pos this trades equityCurve :
  let p := calculatePerformanceMetrics sqrt_pos pow_pos this trades equityCurve in
  le #0 (maxDrawdown p) = true
  /\ (isFinite (capital this) = true -> lt #0 (capital this) = true ->
      forallb (fun point => nonNegative (equity point)) equityCurve = true ->
      le (maxDrawdown p) #100 = true).
Proof.
  cbv zeta. rewrite maxDrawdown_unfold. split.
  - destruct trades; [reflexivity |]. apply drawdown_nonneg. reflexivity.
  - intros Hfin Hpos Hcurve. destruct trades; [reflexivity |].
    destruct (capital this) as [cap | | |] eqn:Ecap; try discriminate.
    apply lt_fin in Hpos.
    destruct (@drawdown_bounded equityCurve (#0, Fin cap) 0%Q cap) as (m & Hm & Hm');
      try (apply val_Fin); try exact Hcurve; try lra.
    apply (val_le Hm (val_Fin 100)). lra.
Qed.

Lemma maxDrawdown_range_witness :
  le (maxDrawdown
        (calculatePerformanceMetrics sqrtDown powInterpolated
           (exEngine #50000 [meanReversion1] monday (monday + DAY))
           [exTrade #(-4)]
           [{| date := monday; equity := #50010; ret_ := #0.02 |};
            {| date := monday + DAY; equity := #49996; ret_ := #(-0.008) |}]))
     #100 = true.
Proof.
  refine (proj2 (@maxDrawdown_range sqrtDown powInterpolated
                   (exEngine #50000 [meanReversion1] monday (monday + DAY))
                   [exTrade #(-4)]
                   [{| date := monday; equity := #50010; ret_ := #0.02 |};
                    {| date := monday + DAY; equity := #49996; ret_ := #(-0.008) |}])
            _ _ _); reflexivity.
Defined.

(** ** Ranges of the synthetic report *)

Section SyntheticRanges.

Open Scope Q_scope.

Variable World : Type.

(** A finite number in [[lo, hi)]. *)
Definition within (lo hi : Q) (x : num) : Prop := exists q, val x q /\ lo <= q < hi.

Lemma within_eq lo hi lo' hi' x :
  within lo hi x -> lo == lo' -> hi == hi' -> within lo' hi' x.
Proof. intros (q & Hv & Hq) Hlo Hhi. exists q. split; [exact Hv | lra]. Qed.

Lemma within_positive lo hi x : within lo hi x -> 0 < lo -> positive x.
Proof. intros (q & (q' & -> & E) & Hq) Hlo. exists q'. split; [reflexivity | lra]. Qed.

(** [a + r * b] for a draw [r]. *)
Lemma affine_within a b r :
  inUnit r -> 0 < b -> within a (a + b) (add (Fin a) (mul r (Fin b))).
Proof.
  intros (q & -> & Hq) Hb. exists (a + q * b). split; [| nra].
  apply val_add; [apply val_Fin |]. apply val_mul; apply val_Fin.
Qed.

Lemma within_scale lo hi k x :
  within lo hi x -> 0 < k -> within (lo * k) (hi * k) (mul x (Fin k)).
Proof.
  intros (q & Hv & Hq) Hk. exists (q * k). split; [| nra].
  apply val_mul; [exact Hv | apply val_Fin].
Qed.

Lemma orDefault_within lo hi x d : within lo hi x -> 0 < lo -> orDefault x d = x.
Proof.
  intros (q & (q' & -> & E) & Hq) Hlo. unfold orDefault, truthy.
  destruct (Qeq_bool q' 0) eqn:E0; [| reflexivity].
  apply Qeq_bool_iff in E0. exfalso. lra.
Qed.

(** The ranges the generator draws the return and the hold time of each
    strategy type from. *)
Definition baseReturnRange (strategyType : StrategyType) : Q * Q :=
  match strategyType with
  | microscalping => (0.05, 0.20)
  | momentum => (0.08, 0.28)
  | mean_reversion => (0.03, 0.15)
  | breakout => (0.06, 0.24)
  | gap_and_go => (0.10, 0.35)
  | news_scalping => (0.07, 0.29)
  end.

Definition holdTimeRange (strategyType : StrategyType) : Q * Q :=
  match strategyType with
  | microscalping => (5, 15)
  | momentum => (30, 90)
  | mean_reversion => (60, 180)
  | breakout => (45, 135)
  | gap_and_go => (15, 45)
  | news_scalping => (10, 30)
  end.

Ltac draw := eapply draws_bind; [apply seededRandom_draws | intros ? ?].

Lemma getStrategyBaseReturn_within ty :
  draws (getStrategyBaseReturn (World := World) ty)
        (within (fst (baseReturnRange ty)) (snd (baseReturnRange ty))).
Proof.
  unfold getStrategyBaseReturn. do 6 draw. apply draws_ret.
  destruct ty; cbn [baseReturnRange fst snd];
    match goal with
    | |- within ?lo ?hi (orDefault (add (Fin ?a) (mul ?r (Fin ?b))) _) =>
        assert (Hw : within lo hi (add (Fin a) (mul r (Fin b))))
          by (eapply within_eq; [apply affine_within; [assumption | reflexivity]
                                | reflexivity | reflexivity]);
        rewrite (orDefault_within _ Hw) by reflexivity; exact Hw
    end.
Qed.

Lemma getStrategyHoldTime_within ty :
  draws (getStrategyHoldTime (World := World) ty)
        (within (fst (holdTimeRange ty)) (snd (holdTimeRange ty))).
Proof.
  unfold getStrategyHoldTime. do 6 draw. apply draws_ret.
  destruct ty; cbn [holdTimeRange fst snd];
    match goal with
    | |- within ?lo ?hi (orDefault (add (Fin ?a) (mul ?r (Fin ?b))) _) =>
        assert (Hw : within lo hi (add (Fin a) (mul r (Fin b))))
          by (eapply within_eq; [apply affine_within; [assumption | reflexivity]
                                | reflexivity | reflexivity]);
        rewrite (orDefault_within _ Hw) by reflexivity; exact Hw
    end.
Qed.

(** The share of a multi-session activity a session mode gets. *)
Definition sessionShare (m : Mode) : Q := match m with single => 0.1 | multi => 1 end.

(** What every synthetic report looks like, whatever the seed: a profit,
    with the return and the hold time in the range of the strategy type,
    scaled by the session mode; volatility, drawdown, win rate, profit
    factor, best and worst trade in fixed ranges; a whole number of trades;
    positive ratios. *)
Definition plausible (this : Engine) (strategy : Strategy) (p : PerformanceMetrics) : Prop :=
  let k := sessionShare (mode this) in
  within (fst (baseReturnRange (type strategy)) * k * 100)
         (snd (baseReturnRange (type strategy)) * k * 100) (totalReturn p)
  /\ annualizedReturn p = totalReturn p
  /\ within 15 25 (volatility p)
  /\ within 5 15 (maxDrawdown p)
  /\ within 45 75 (winRate p)
  /\ within 0.8 2.3 (profitFactor p)
  /\ within 50 250 (bestTrade p)
  /\ (exists q, val (worstTrade p) q /\ -120 < q <= -20)
  /\ (exists n : Z, totalTrades p = ofZ n
                    /\ 50 * k <= inject_Z n /\ inject_Z n < 250 * k)
  /\ within (fst (holdTimeRange (type strategy))) (snd (holdTimeRange (type strategy)))
            (avgHoldTime p)
  /\ positive (avgTradeReturn p)
  /\ positive (sharpeRatio p) /\ positive (calmarRatio p) /\ positive (sortinoRatio p).

Lemma positive_val x : positive x -> exists q, val x q /\ 0 < q.
Proof. intros (q & -> & Hq). exists q. split; [apply val_Fin | exact Hq]. Qed.

Lemma positive_div x y : positive x -> positive y -> positive (div x y).
Proof.
  intros (a & -> & Ha) (b & -> & Hb).
  rewrite div_fin_nonzero by lra. eexists. split; [reflexivity |].
  rewrite Qred_correct. apply Qlt_shift_div_l; lra.
Qed.

Lemma generateMockBacktestResult_draws_plausible this strategy :
  draws (generateMockBacktestResult (World := World) this strategy)
        (fun r => plausible this strategy (performance r)).
Proof.
  unfold generateMockBacktestResult.
  eapply draws_bind; [apply getStrategyBaseReturn_within | intros base Hbase].
  eapply draws_bind; [apply seededRandom_draws | intros rVol HrVol].
  eapply draws_bind; [apply seededRandom_draws | intros rDd HrDd].
  eapply draws_bind; [apply seededRandom_draws | intros rWin HrWin].
  eapply draws_bind; [apply seededRandom_draws | intros rTrades HrTrades].
  eapply draws_bind; [apply seededRandom_draws | intros rPf HrPf].
  eapply draws_bind; [apply seededRandom_draws | intros rBest HrBest].
  eapply draws_bind; [apply seededRandom_draws | intros rWorst HrWorst].
  eapply draws_bind; [apply getStrategyHoldTime_within | intros hold Hhold].
  eapply draws_bind; [apply mockEquityLoop_draws | intros curve _].
  apply draws_ret. cbn [performance].
  set (k := sessionShare (mode this)).
  assert (Hk : 0 < k) by (unfold k; destruct (mode this); reflexivity).
  assert (Ek : (if match mode this with single => true | multi => false end
                then Fin 0.1 else Fin 1) = Fin k)
    by (unfold k; destruct (mode this); reflexivity).
  rewrite !Ek.
  set (lo := fst (baseReturnRange (type strategy))) in *.
  set (hi := snd (baseReturnRange (type strategy))) in *.
  assert (Hlo : 0 < lo) by (unfold lo; destruct (type strategy); reflexivity).
  pose proof (within_scale Hbase Hk) as Hret.
  assert (Hretp : positive (mul base (Fin k))).
  { apply (within_positive Hret). nra. }
  pose proof (@affine_within 0.15 0.1 rVol HrVol eq_refl) as Hvol.
  pose proof (@affine_within 0.05 0.1 rDd HrDd eq_refl) as Hdd.
  pose proof (@affine_within 0.45 0.3 rWin HrWin eq_refl) as Hwin.
  pose proof (@affine_within 50 200 rTrades HrTrades eq_refl) as Htr.
  pose proof (@affine_within 0.8 1.5 rPf HrPf eq_refl) as Hpf.
  pose proof (@affine_within 50 200 rBest HrBest eq_refl) as Hbest.
  pose proof (@affine_within 20 100 rWorst HrWorst eq_refl) as Hworst.
  assert (Htrades : exists n : Z,
            floor (mul (add (Fin 50) (mul rTrades (Fin 200))) (Fin k)) = ofZ n
            /\ 50 * k <= inject_Z n /\ inject_Z n < 250 * k).
  { destruct (within_scale Htr Hk) as (v & Hv & Hv1 & Hv2).
    exists (Qfloor v). split; [apply (floor_val Hv) |]. split.
    - assert (E : 50 * k == inject_Z (Qfloor (50 * k)))
        by (unfold k; destruct (mode this); reflexivity).
      rewrite E. rewrite <- Zle_Qle. apply Qfloor_resp_le. exact Hv1.
    - eapply Qle_lt_trans; [apply Qfloor_le |]. lra. }
  assert (Htradesp : positive (floor (mul (add (Fin 50) (mul rTrades (Fin 200))) (Fin k)))).
  { destruct Htrades as (n & -> & Hn & _). exists (inject_Z n). split; [reflexivity | nra]. }
  unfold plausible. fold k lo hi.
  cbn [totalReturn annualizedReturn sharpeRatio maxDrawdown winRate profitFactor totalTrades
       avgTradeReturn bestTrade worstTrade avgHoldTime volatility calmarRatio sortinoRatio].
  split; [apply (within_scale Hret); reflexivity |].
  split; [reflexivity |].
  split; [eapply within_eq; [apply (within_scale Hvol); reflexivity | reflexivity ..] |].
  split; [eapply within_eq; [apply (within_scale Hdd); reflexivity | reflexivity ..] |].
  split; [eapply within_eq; [apply (within_scale Hwin); reflexivity | reflexivity ..] |].
  split; [eapply within_eq; [exact Hpf | reflexivity ..] |].
  split; [eapply within_eq; [exact Hbest | reflexivity ..] |].
  split.
  { destruct Hworst as (q & Hv & Hq). exists (- q). split; [apply val_neg; exact Hv | lra]. }
  split; [exact Htrades |].
  split; [exact Hhold |].
  split; [apply positive_div; assumption |].
  split; [apply positive_div; [assumption | apply (within_positive Hvol); reflexivity] |].
  split; [apply positive_div; [assumption | apply (within_positive Hdd); reflexivity] |].
  apply positive_div; [assumption |].
  apply (within_positive (within_scale Hvol (k := 0.8) eq_refl)). reflexivity.
Qed.

(** On a seed that is a finite number and not negative, the synthetic
    report is plausible in this sense; in particular it never shows a
    loss. *)
Theorem generateMockBacktestResult_plausible this strategy (s : State World) :
  seedOk s ->
  exists r s',
    generateMockBacktestResult this strategy s = (Ret r, s')
    /\ plausible this strategy (performance r).
Proof.
  intros Hs.
  destruct (generateMockBacktestResult_draws_plausible this strategy Hs)
    as (r & s' & E & _ & Hr).
  exists r, s'. auto.
Qed.

End SyntheticRanges.

Lemma generateMockBacktestResult_plausible_witness :
  exists r s',
    generateMockBacktestResult
      (exEngine #50000 [meanReversion1] monday (monday + 4 * DAY)) meanReversion1
      (construct (exEngine #50000 [meanReversion1] monday (monday + 4 * DAY)) tt)
    = (Ret r, s')
    /\ plausible (exEngine #50000 [meanReversion1] monday (monday + 4 * DAY)) meanReversion1
         (performance r).
Proof.
  refine (@generateMockBacktestResult_plausible unit
            (exEngine #50000 [meanReversion1] monday (monday + 4 * DAY)) meanReversion1
            (construct (exEngine #50000 [meanReversion1] monday (monday + 4 * DAY)) tt) _).
  apply construct_seedOk. reflexivity.
Defined.

(** ** Requests to the data source *)

Section Requests.

Variable sqrt_pos : Q -> Q.
Variable pow_pos : Q -> Q -> Q.
Variable World : Type.
Variable httpFetch : string -> IsoString -> IsoString -> World -> outcome Response * World.

(** The same network, with a counter of the requests made beside it. *)
Definition counted (ticker : string) (from to : IsoString) (w : World * nat)
    : outcome Response * (World * nat) :=
  let '(r, w') := httpFetch ticker from to (fst w) in (r, (w', S (snd w))).

Definition requests (s : State (World * nat)) : nat := snd (world s).

(** [m] ends normally from every state, having made between [lo] and [hi]
    requests. *)
Definition uses (lo hi : nat) {A} (m : M (World * nat) A) : Prop :=
  forall s, exists a s',
    m s = (Ret a, s') /\ (requests s + lo <= requests s' <= requests s + hi)%nat.

Lemma uses_ret {A} (a : A) : uses 0 0 (ret a).
Proof. intros s. exists a, s. split; [reflexivity | lia]. Qed.

Lemma uses_bind {A B} (m : M (World * nat) A) (k : A -> M (World * nat) B) lo1 hi1 lo2 hi2 :
  uses lo1 hi1 m -> (forall a, uses lo2 hi2 (k a)) -> uses (lo1 + lo2) (hi1 + hi2) (bind m k).
Proof.
  intros Hm Hk s. destruct (Hm s) as (a & s' & E & Hs').
  destruct (Hk a s') as (b & s'' & E' & Hs'').
  exists b, s''. unfold bind. rewrite E. split; [exact E' | lia].
Qed.

Lemma uses_tryCatch {A} (m : M (World * nat) A) handler lo hi :
  uses lo hi m -> uses lo hi (tryCatch m handler).
Proof.
  intros Hm s. destruct (Hm s) as (a & s' & E & Hs').
  exists a, s'. unfold tryCatch. rewrite E. auto.
Qed.

Lemma uses_seededRandom : uses 0 0 (seededRandom (World := World * nat)).
Proof. intros s. eexists. eexists. split; [reflexivity |]. unfold requests. simpl. lia. Qed.

Ltac idle := first [ apply uses_ret | apply uses_seededRandom
                   | apply (@uses_bind _ _ _ _ 0%nat 0%nat 0%nat 0%nat); [| intros ?] ].

Lemma uses_generateMockBacktestResult this strategy :
  uses 0 0 (generateMockBacktestResult (World := World * nat) this strategy).
Proof.
  assert (Hloop : forall n i eq curve,
            uses 0 0 (mockEquityLoop (World := World * nat) this n i eq curve)).
  { induction n as [| n IH]; intros i eq curve; cbn [mockEquityLoop]; [apply uses_ret |].
    apply (@uses_bind _ _ _ _ 0%nat 0%nat 0%nat 0%nat); [apply uses_seededRandom |].
    intros r. apply IH. }
  unfold generateMockBacktestResult, getStrategyBaseReturn, getStrategyHoldTime,
    generateMockEquityCurve.
  repeat first [ apply Hloop | idle ].
Qed.

Lemma uses_performRealBacktest this strategy tickerData :
  uses 0 0 (performRealBacktest (World := World * nat) sqrt_pos pow_pos this strategy tickerData).
Proof.
  intros s. rewrite performRealBacktest_unfold. eexists. eexists.
  split; [reflexivity | lia].
Qed.

(** One attempt and up to three more, each after an answer 429. *)
Lemma fetchMinuteDataFrom_requests ticker from to fuel : forall retryCount s,
  (3 <= fuel + retryCount)%nat -> (retryCount <= 3)%nat ->
  exists out s',
    fetchMinuteDataFrom counted fuel ticker from to retryCount s = (out, s')
    /\ (requests s + 1 <= requests s' <= requests s + (4 - retryCount))%nat.
Proof.
  assert (Hlast : forall response (s1 : State (World * nat)),
            (http_status response =? 429) = false ->
            exists out,
              (if negb (ok response) then throw "HTTP error"
               else match json response with
                    | Throw e => throw e
                    | Ret data =>
                        if negb (String.eqb (status data) "OK")
                        then throw "Polygon API error"
                        else ret (match results data with Some bars => bars | None => [] end)
                    end) s1 = (out, s1)).
  { intros response s1 _. destruct (negb (ok response)); [eexists; reflexivity |].
    destruct (json response) as [data | e]; [| eexists; reflexivity].
    destruct (negb (String.eqb (status data) "OK")); eexists; reflexivity. }
  induction fuel as [| fuel IH]; intros retryCount s Hfuel Hretry.
  - assert (retryCount = 3%nat) by lia. subst retryCount.
    cbn [fetchMinuteDataFrom]. unfold bind, fetch, counted.
    destruct (httpFetch ticker from to (fst (world s))) as [[response | e] w'].
    + destruct (http_status response =? 429) eqn:E429.
      * eexists. eexists. split; [reflexivity |]. unfold requests. cbn [snd world]. lia.
      * destruct (Hlast response {| seed := seed s; world := (w', S (snd (world s))) |} E429)
          as (out & ->).
        eexists. eexists. split; [reflexivity |]. unfold requests. cbn [snd world]. lia.
    + eexists. eexists. split; [reflexivity |]. unfold requests. cbn [snd world]. lia.
  - cbn [fetchMinuteDataFrom]. unfold bind, fetch, counted.
    destruct (httpFetch ticker from to (fst (world s))) as [[response | e] w'].
    + destruct (http_status response =? 429) eqn:E429.
      * destruct (retryCount <? 3)%nat eqn:Elt.
        -- apply Nat.ltb_lt in Elt.
           destruct (IH (retryCount + 1)%nat
                        {| seed := seed s; world := (w', S (snd (world s))) |})
             as (out & s' & E & Hs'); [lia | lia |].
           change (fun (ticker : string) (from to : IsoString) (w : World * nat) =>
                     let '(r, w'0) := httpFetch ticker from to (fst w) in (r, (w'0, S (snd w))))
             with counted.
           rewrite E. exists out, s'. split; [reflexivity |].
           unfold requests in *. cbn [snd world] in *. lia.
        -- eexists. eexists. split; [reflexivity |]. unfold requests. cbn [snd world]. lia.
      * destruct (Hlast response {| seed := seed s; world := (w', S (snd (world s))) |} E429)
          as (out & ->).
        eexists. eexists. split; [reflexivity |]. unfold requests. cbn [snd world]. lia.
    + eexists. eexists. split; [reflexivity |]. unfold requests. cbn [snd world]. lia.
Qed.

Lemma uses_fetchTickerData this ticker : uses 1 4 (fetchTickerData counted this ticker).
Proof.
  intros s. unfold fetchTickerData, fetchMinuteData, tryCatch.
  destruct (@fetchMinuteDataFrom_requests ticker (IsoDate (startDate this))
              (IsoDate (endDate this)) 3 0 s) as (out & s' & E & Hs'); [lia | lia |].
  rewrite E. cbn [Nat.sub] in Hs'.
  destruct out as [bars | e]; eexists; eexists; (split; [reflexivity | exact Hs']).
Qed.

Lemma uses_weaken {A} (m : M (World * nat) A) lo hi lo' hi' :
  uses lo hi m -> (lo' <= lo)%nat -> (hi <= hi')%nat -> uses lo' hi' m.
Proof.
  intros Hm Hlo Hhi s. destruct (Hm s) as (a & s' & E & Hs').
  exists a, s'. split; [exact E | lia].
Qed.

Lemma uses_fetchAll this tickers : forall tickerData,
  uses (List.length tickers) (4 * List.length tickers)
       (fetchAll counted this tickers tickerData).
Proof.
  induction tickers as [| ticker rest IH]; intros tickerData; cbn [fetchAll].
  - apply uses_ret.
  - eapply uses_weaken;
      [apply uses_bind; [apply uses_fetchTickerData | intros data; apply IH] | |];
      cbn [List.length]; lia.
Qed.

Lemma uses_backtestStrategy this strategy :
  uses (List.length (tickers strategy)) (4 * List.length (tickers strategy))
       (backtestStrategy sqrt_pos pow_pos counted this strategy).
Proof.
  unfold backtestStrategy. apply uses_tryCatch.
  eapply uses_weaken.
  - apply uses_bind; [apply uses_fetchAll |].
    intros [| entry rest];
      [apply uses_generateMockBacktestResult | apply uses_performRealBacktest].
  - lia.
  - lia.
Qed.

(** The tickers of all the strategies, counted with repetition. *)
Definition tickerCount (todo : list Strategy) : nat :=
  fold_right (fun strategy n => (List.length (tickers strategy) + n)%nat) 0%nat todo.

Lemma uses_runLoop this todo : forall results,
  uses (tickerCount todo) (4 * tickerCount todo)
       (runLoop (backtestStrategy sqrt_pos pow_pos counted this) todo results).
Proof.
  induction todo as [| strategy rest IH]; intros results; cbn [runLoop tickerCount fold_right].
  - apply uses_ret.
  - fold (tickerCount rest).
    eapply uses_weaken;
      [apply uses_bind; [apply uses_backtestStrategy | intros r; apply IH] | |]; lia.
Qed.

(** The engine asks the data source for every ticker of every strategy, each
    time the ticker is listed (nothing is kept from one strategy to the
    next), and at most four times for each: a first attempt and up to three
    more after an answer 429.  Whatever the network answers, a run makes at
    least as many requests as tickers are listed and at most four times as
    many. *)
Theorem runBacktest_requests this (s : State (World * nat)) :
  exists results s',
    runBacktest sqrt_pos pow_pos counted this s = (Ret results, s')
    /\ (requests s + tickerCount (strategies this) <= requests s'
        <= requests s + 4 * tickerCount (strategies this))%nat.
Proof. apply uses_runLoop. Qed.

End Requests.

(** ** Without data *)

(** An answer of the network that gives [fetchMinuteData] no bars: a
    rejection, a status 429, a response that is not ok, a body that cannot be
    read or whose status is not OK, or no results. *)
Definition noBars (answer : outcome Response) : bool :=
  match answer with
  | Throw _ => true
  | Ret response =>
      (http_status response =? 429) || negb (ok response)
      || match json response with
         | Throw _ => true
         | Ret data =>
             negb (String.eqb (status data) "OK")
             || match results data with Some (_ :: _) => false | _ => true end
         end
  end.

Section WithoutData.

Variable sqrt_pos : Q -> Q.
Variable pow_pos : Q -> Q -> Q.
Variable World : Type.
Variable httpFetch : string -> IsoString -> IsoString -> World -> outcome Response * World.

Hypothesis no_data : forall ticker from to w, noBars (fst (httpFetch ticker from to w)) = true.

Lemma fetchMinuteDataFrom_no_data ticker from to fuel : forall retryCount (s : State World),
  exists out s',
    fetchMinuteDataFrom httpFetch fuel ticker from to retryCount s = (out, s')
    /\ seed s' = seed s
    /\ (out = Ret [] \/ exists e, out = Throw e).
Proof.
  assert (Hlast : forall response (s1 : State World),
            noBars (Ret response) = true ->
            (http_status response =? 429) = false ->
            exists out,
              (if negb (ok response) then throw "HTTP error"
               else match json response with
                    | Throw e => throw e
                    | Ret data =>
                        if negb (String.eqb (status data) "OK")
                        then throw "Polygon API error"
                        else ret (match results data with Some bars => bars | None => [] end)
                    end) s1 = (out, s1)
              /\ (out = Ret [] \/ exists e, out = Throw e)).
  { intros response s1 Hno E429. cbn [noBars] in Hno. rewrite E429 in Hno. cbn [orb] in Hno.
    destruct (negb (ok response)); [eexists; split; [reflexivity | right; eauto] |].
    cbn [orb] in Hno.
    destruct (json response) as [data | e]; [| eexists; split; [reflexivity | right; eauto]].
    destruct (negb (String.eqb (status data) "OK"));
      [eexists; split; [reflexivity | right; eauto] |].
    cbn [orb] in Hno.
    destruct (results data) as [[| bar bars] |]; try discriminate;
      eexists; (split; [reflexivity | left; reflexivity]). }
  induction fuel as [| fuel IH]; intros retryCount s;
    cbn [fetchMinuteDataFrom]; unfold bind, fetch;
    pose proof (no_data ticker from to (world s)) as Hno;
    destruct (httpFetch ticker from to (world s)) as [[response | e] w']; cbn [fst] in Hno.
  - destruct (http_status response =? 429) eqn:E429.
    + destruct (retryCount <? 3)%nat;
        eexists; eexists; (split; [reflexivity | split; [reflexivity | right; eauto]]).
    + destruct (Hlast response {| seed := seed s; world := w' |} Hno E429) as (out & -> & Hout).
      exists out. eexists. split; [reflexivity | split; [reflexivity | exact Hout]].
  - eexists. eexists. split; [reflexivity | split; [reflexivity | right; eauto]].
  - destruct (http_status response =? 429) eqn:E429.
    + destruct (retryCount <? 3)%nat.
      * destruct (IH (retryCount + 1)%nat {| seed := seed s; world := w' |})
          as (out & s' & E & Hseed & Hout).
        exists out, s'. split; [exact E | split; [exact Hseed | exact Hout]].
      * eexists. eexists. split; [reflexivity | split; [reflexivity | right; eauto]].
    + destruct (Hlast response {| seed := seed s; world := w' |} Hno E429) as (out & -> & Hout).
      exists out. eexists. split; [reflexivity | split; [reflexivity | exact Hout]].
  - eexists. eexists. split; [reflexivity | split; [reflexivity | right; eauto]].
Qed.

Lemma fetchTickerData_no_data this ticker (s : State World) :
  exists s', fetchTickerData httpFetch this ticker s = (Ret [], s') /\ seed s' = seed s.
Proof.
  unfold fetchTickerData, fetchMinuteData, tryCatch.
  destruct (@fetchMinuteDataFrom_no_data ticker (IsoDate (startDate this))
              (IsoDate (endDate this)) 3 0%nat s) as (out & s' & -> & Hseed & [-> | (e & ->)]);
    exists s'; split; auto.
Qed.

Lemma fetchAll_no_data this tickers : forall (s : State World),
  exists s', fetchAll httpFetch this tickers [] s = (Ret [], s') /\ seed s' = seed s.
Proof.
  induction tickers as [| ticker rest IH]; intros s; cbn [fetchAll].
  - exists s. split; reflexivity.
  - unfold bind. destruct (fetchTickerData_no_data this ticker s) as (s1 & -> & Hs1).
    destruct (IH s1) as (s' & E & Hs'). exists s'. split; [exact E | congruence].
Qed.

Lemma backtestStrategy_no_data this strategy :
  alike (fun _ _ : World => True)
    (backtestStrategy sqrt_pos pow_pos httpFetch this strategy)
    (generateMockBacktestResult this strategy).
Proof.
  intros s1 s2 [Hseed _]. unfold backtestStrategy, tryCatch, bind.
  destruct (fetchAll_no_data this (tickers strategy) s1) as (s1' & -> & Hs1').
  destruct (generateMockBacktestResult_returns this strategy s1') as (r & s1'' & E & _).
  assert (Hagree : agree (fun _ _ : World => True) s1' s2)
    by (split; [congruence | exact I]).
  pose proof (@alike_generateMockBacktestResult World World (fun _ _ => True) this strategy
                s1' s2 Hagree) as Halike.
  rewrite E in *. exact Halike.
Qed.

(** When the network gives no bars for any ticker, the engine that fetches
    reports exactly what the synthetic engine reports, and leaves the seed
    where the synthetic engine leaves it: every result is the generator's. *)
Theorem runBacktest_without_data this (s : State World) :
  fst (runBacktest sqrt_pos pow_pos httpFetch this s) = fst (runBacktestSynthetic this s)
  /\ seed (snd (runBacktest sqrt_pos pow_pos httpFetch this s))
     = seed (snd (runBacktestSynthetic this s)).
Proof.
  assert (Hagree : agree (fun _ _ : World => True) s s) by (split; [reflexivity | exact I]).
  destruct (@alike_runLoop World World (fun _ _ => True)
              (backtestStrategy sqrt_pos pow_pos httpFetch this)
              (backtestStrategySynthetic this)
              (backtestStrategy_no_data this) (strategies this) [] s s Hagree)
    as [Hout [Hseed _]].
  split; assumption.
Qed.

End WithoutData.

Lemma runBacktest_without_data_witness :
  fst (runBacktest sqrtDown powInterpolated offline
         (exEngine #50000 [microscalping1; meanReversion1] monday (monday + 4 * DAY))
         (construct (exEngine #50000 [microscalping1; meanReversion1] monday (monday + 4 * DAY))
            tt))
  = fst (runBacktestSynthetic
           (exEngine #50000 [microscalping1; meanReversion1] monday (monday + 4 * DAY))
           (construct (exEngine #50000 [microscalping1; meanReversion1] monday (monday + 4 * DAY))
              tt)).
Proof.
  refine (proj1 (@runBacktest_without_data sqrtDown powInterpolated unit offline _
                   (exEngine #50000 [microscalping1; meanReversion1] monday (monday + 4 * DAY))
                   (construct
                      (exEngine #50000 [microscalping1; meanReversion1] monday (monday + 4 * DAY))
                      tt))).
  intros ticker from to w. reflexivity.
Defined.

(** ** The fetched data *)

Lemma mapSet_In m k d k0 d0 :
  In (k0, d0) (mapSet m k d) -> (k0 = k /\ d0 = d) \/ In (k0, d0) m.
Proof.
  induction m as [| [k' d'] rest IH]; cbn [mapSet]; intros Hin.
  - destruct Hin as [E | []]. inversion E. auto.
  - destruct (String.eqb k' k) eqn:Ek.
    + apply String.eqb_eq in Ek. subst k'.
      destruct Hin as [E | Hin]; [inversion E; auto | right; right; exact Hin].
    + destruct Hin as [E | Hin]; [right; left; exact E |].
      destruct (IH Hin) as [H | H]; [left; exact H | right; right; exact H].
Qed.

Lemma mapSet_keys m k d x :
  In x (map fst (mapSet m k d)) -> x = k \/ In x (map fst m).
Proof.
  intros Hin. apply in_map_iff in Hin. destruct Hin as ([k0 d0] & <- & Hin).
  destruct (mapSet_In _ _ _ _ _ Hin) as [[-> _] | H]; [left; reflexivity |].
  right. apply in_map_iff. exists (k0, d0). auto.
Qed.

Lemma mapSet_NoDup m k d : NoDup (map fst m) -> NoDup (map fst (mapSet m k d)).
Proof.
  induction m as [| [k' d'] rest IH]; cbn [mapSet map fst]; intros Hnd.
  - constructor; [intros [] | constructor].
  - inversion Hnd as [| x xs Hnotin Hrest]; subst.
    destruct (String.eqb k' k) eqn:E; cbn [map fst]; [constructor; assumption |].
    constructor; [| apply IH; exact Hrest].
    intros Hin. destruct (mapSet_keys _ _ _ _ Hin) as [-> | H]; [| contradiction].
    rewrite String.eqb_refl in E. discriminate.
Qed.

(** A map of fetched bars for some tickers: one entry per ticker, none empty. *)
Definition wellKeyed (tickers : list string) (m : TickerData) : Prop :=
  NoDup (map fst m)
  /\ forall k d, In (k, d) m -> In k tickers /\ d <> [].

Section FetchedData.

Variable World : Type.
Variable httpFetch : string -> IsoString -> IsoString -> World -> outcome Response * World.

Lemma fetchAll_wellKeyed this tickers : forall seen tickerData,
  wellKeyed seen tickerData ->
  returns (fetchAll httpFetch this tickers tickerData) (wellKeyed (seen ++ tickers)).
Proof.
  induction tickers as [| ticker rest IH]; intros seen tickerData Hwk; cbn [fetchAll].
  - apply returns_ret. rewrite app_nil_r. exact Hwk.
  - eapply returns_bind; [apply fetchTickerData_returns | intros data _].
    replace (seen ++ ticker :: rest) with ((seen ++ [ticker]) ++ rest)
      by (rewrite <- app_assoc; reflexivity).
    apply IH. destruct Hwk as [Hnd Hall].
    destruct data as [| bar bars].
    + split; [exact Hnd |]. intros k d Hin. destruct (Hall k d Hin). split; auto using in_or_app.
    + split; [apply mapSet_NoDup; exact Hnd |].
      intros k d Hin. destruct (mapSet_In _ _ _ _ _ Hin) as [[-> ->] | H].
      * split; [apply in_or_app; right; left; reflexivity | discriminate].
      * destruct (Hall k d H). split; auto using in_or_app.
Qed.


End FetchedData.

(** ** What the simulation reads of a strategy *)

(** Two strategies that agree on what the simulation reads: the id and the
    type; of the parameters the position size, the stop-loss and take-profit
    percentages, the commission and the trading hours; of the entry
    conditions the two thresholds; of the exit conditions the time-based
    exit and the maximum hold time. *)
Definition readAlike (a b : Strategy) : Prop :=
  id a = id b /\ type a = type b
  /\ positionSize (parameters a) = positionSize (parameters b)
  /\ stopLoss (parameters a) = stopLoss (parameters b)
  /\ takeProfit (parameters a) = takeProfit (parameters b)
  /\ commissionPerTrade (parameters a) = commissionPerTrade (parameters b)
  /\ tradingHours (parameters a) = tradingHours (parameters b)
  /\ volumeThreshold (entryConditions (parameters a))
     = volumeThreshold (entryConditions (parameters b))
  /\ priceChangeThreshold (entryConditions (parameters a))
     = priceChangeThreshold (entryConditions (parameters b))
  /\ timeBasedExit (exitConditions (parameters a))
     = timeBasedExit (exitConditions (parameters b))
  /\ maxHoldTime (exitConditions (parameters a))
     = maxHoldTime (exitConditions (parameters b)).

Section ReadAlike.

Variables a b : Strategy.
Hypothesis alike_ab : readAlike a b.

Lemma shouldEnter_readAlike data index : shouldEnter a data index = shouldEnter b data index.
Proof.
  destruct alike_ab as (_ & Ety & _ & _ & _ & _ & _ & Evol & Echg & _).
  unfold shouldEnter. rewrite Ety, Evol, Echg. reflexivity.
Qed.

Lemma shouldExit_readAlike position bar time :
  shouldExit a position bar time = shouldExit b position bar time.
Proof.
  destruct alike_ab as (_ & _ & _ & Esl & Etp & _ & _ & _ & _ & Etime & Ehold).
  rewrite !shouldExit_firstMatch.
  unfold exitRules, stopLossBreach, takeProfitBreach, maxHoldBreach.
  rewrite Esl, Etp, Etime, Ehold. reflexivity.
Qed.

Lemma openPosition_readAlike ticker bar currentEquity :
  openPosition a ticker bar currentEquity = openPosition b ticker bar currentEquity.
Proof.
  destruct alike_ab as (_ & _ & Eps & _ & _ & Ecm & _).
  unfold openPosition. rewrite Eps, Ecm. reflexivity.
Qed.

Lemma tickerLoop_readAlike ticker dayData currentEquity bars : forall i st,
  tickerLoop a ticker dayData currentEquity bars i st
  = tickerLoop b ticker dayData currentEquity bars i st.
Proof.
  induction bars as [| bar rest IH]; intros i st; cbn [tickerLoop]; [reflexivity |].
  rewrite IH. f_equal. destruct st as [trades position]. unfold tickerStep.
  rewrite shouldEnter_readAlike, openPosition_readAlike.
  destruct (match position with
            | None => _
            | Some p => Some p
            end) as [p |]; [| reflexivity].
  rewrite shouldExit_readAlike. reflexivity.
Qed.

Lemma simulateTickerTrading_readAlike ticker dayData currentEquity :
  simulateTickerTrading a ticker dayData currentEquity
  = simulateTickerTrading b ticker dayData currentEquity.
Proof.
  unfold simulateTickerTrading. rewrite tickerLoop_readAlike. reflexivity.
Qed.

Lemma simulateTradingDay_readAlike tickerData date currentEquity :
  simulateTradingDay a tickerData date currentEquity
  = simulateTradingDay b tickerData date currentEquity.
Proof.
  destruct alike_ab as (_ & _ & _ & _ & _ & _ & Ehours & _).
  unfold simulateTradingDay. rewrite Ehours.
  destruct (negb (isMarketOpen date (tradingHours (parameters b)))); [reflexivity |].
  generalize (@nil Trade).
  induction tickerData as [| [ticker data] rest IH]; intros acc; cbn [fold_left];
    [reflexivity |].
  rewrite simulateTickerTrading_readAlike. apply IH.
Qed.

Lemma dayStep_readAlike this tickerData days : forall st,
  fold_left (dayStep this a tickerData) days st
  = fold_left (dayStep this b tickerData) days st.
Proof.
  induction days as [| d days IH]; intros st; cbn [fold_left]; [reflexivity |].
  rewrite IH. f_equal. destruct st as [[trades curve] eq]. unfold dayStep.
  rewrite simulateTradingDay_readAlike. reflexivity.
Qed.

End ReadAlike.

(** The strategy with other limits, risk settings and filters: the fields
    the simulation never reads. *)
Definition withUnreadSettings (strategy : Strategy)
    (positions dailyTrades drawdownLimit newsMinutes risk slip : num)
    (dollarStop atrStop dollarTarget relVolume spread : option num)
    (trailing : bool) (trailingPercent : num) : Strategy :=
  let p := parameters strategy in
  {| id := id strategy; name := name strategy; description := description strategy;
     type := type strategy;
     parameters :=
       {| maxPositions := positions; positionSize := positionSize p;
          riskPerTrade := risk; maxDailyTrades := dailyTrades;
          stopLoss := stopLoss p; stopLossDollar := dollarStop;
          stopLossATR := atrStop; takeProfit := takeProfit p;
          takeProfitDollar := dollarTarget; maxDrawdownLimit := drawdownLimit;
          entryConditions :=
            {| volumeThreshold := volumeThreshold (entryConditions p);
               relativeVolume := relVolume;
               priceChangeThreshold := priceChangeThreshold (entryConditions p);
               maxSpread := spread |};
          exitConditions :=
            {| timeBasedExit := timeBasedExit (exitConditions p);
               maxHoldTime := maxHoldTime (exitConditions p);
               trailingStop := trailing; trailingStopPercent := trailingPercent |};
          commissionPerTrade := commissionPerTrade p; slippageBuffer := slip;
          tradingHours := tradingHours p; avoidNewsMinutes := newsMinutes |};
     tickers := tickers strategy; isActive := isActive strategy |}.

(** The limits of a strategy are not enforced: the maximum number of
    positions, the maximum number of trades a day, the drawdown limit, the
    minutes to avoid around news, the risk per trade, the slippage buffer,
    the dollar and ATR stops, the dollar target, the relative-volume and
    spread filters and the trailing stop can be set to anything without
    changing the result of the simulation on fetched bars. *)
Theorem performRealBacktest_limits_not_enforced sqrt_pos pow_pos (World : Type)
    this strategy tickerData (s : State World)
    positions dailyTrades drawdownLimit newsMinutes risk slip
    dollarStop atrStop dollarTarget relVolume spread trailing trailingPercent :
  performRealBacktest sqrt_pos pow_pos this
    (withUnreadSettings strategy positions dailyTrades drawdownLimit newsMinutes risk slip
       dollarStop atrStop dollarTarget relVolume spread trailing trailingPercent)
    tickerData s
  = performRealBacktest sqrt_pos pow_pos this strategy tickerData s.
Proof.
  rewrite !performRealBacktest_unfold. cbv zeta.
  rewrite (@dayStep_readAlike
             (withUnreadSettings strategy positions dailyTrades drawdownLimit newsMinutes
                risk slip dollarStop atrStop dollarTarget relVolume spread trailing
                trailingPercent) strategy).
  - reflexivity.
  - unfold readAlike, withUnreadSettings. cbn. repeat split; reflexivity.
Qed.

(** ** What the synthetic engine reads *)

(** Two strategies with the same id, the same type and as many tickers. *)
Definition sameShape (a b : Strategy) : Prop :=
  id a = id b /\ type a = type b /\ List.length (tickers a) = List.length (tickers b).

(** The engine with other strategies. *)
Definition withStrategies (this : Engine) (others : list Strategy) : Engine :=
  {| capital := capital this; strategies := others; startDate := startDate this;
     endDate := endDate this; mode := mode this |}.

Section ShapeOnly.

Variable World : Type.

Lemma bind_cong {A B} (m1 m2 : M World A) (k1 k2 : A -> M World B) :
  (forall s, m1 s = m2 s) -> (forall a s, k1 a s = k2 a s) ->
  forall s, bind m1 k1 s = bind m2 k2 s.
Proof.
  intros Hm Hk s. unfold bind. rewrite Hm.
  destruct (m2 s) as [[a | e] s']; [apply Hk | reflexivity].
Qed.

Lemma mockEquityLoop_withStrategies this others n : forall i eq curve (s : State World),
  mockEquityLoop (withStrategies this others) n i eq curve s
  = mockEquityLoop this n i eq curve s.
Proof.
  induction n as [| n IH]; intros i eq curve s; cbn [mockEquityLoop]; [reflexivity |].
  apply bind_cong; [reflexivity |]. intros r s'. apply IH.
Qed.

Lemma generateMockBacktestResult_withStrategies this others a b (s : State World) :
  sameShape a b ->
  generateMockBacktestResult (withStrategies this others) b s
  = generateMockBacktestResult this a s.
Proof.
  intros (Eid & Ety & _). unfold generateMockBacktestResult.
  cbn [mode capital startDate endDate withStrategies]. rewrite Eid, Ety.
  do 9 (apply bind_cong; [reflexivity | intros ? ?]).
  apply bind_cong; [| reflexivity].
  intros s'. unfold generateMockEquityCurve.
  cbn [capital startDate endDate withStrategies]. apply mockEquityLoop_withStrategies.
Qed.

Lemma createSeed_withStrategies this others :
  Forall2 sameShape (strategies this) others ->
  createSeed (withStrategies this others) = createSeed this.
Proof.
  intros Hshape. unfold createSeed. cbn [capital startDate endDate strategies withStrategies].
  f_equal. f_equal. f_equal. generalize (Fin 0).
  induction Hshape as [| a b l1 l2 (Eid & _ & Elen) Hrest IH]; intros h; cbn [fold_left];
    [reflexivity |].
  unfold lengthNum. rewrite Eid, Elen. apply IH.
Qed.

Lemma runLoop_withStrategies this others todo1 todo2 :
  Forall2 sameShape todo1 todo2 ->
  forall results (s : State World),
    runLoop (backtestStrategySynthetic (withStrategies this others)) todo2 results s
    = runLoop (backtestStrategySynthetic this) todo1 results s.
Proof.
  induction 1 as [| a b l1 l2 Hab Hrest IH]; intros results s; cbn [runLoop];
    [reflexivity |].
  apply bind_cong.
  - intros s'. unfold backtestStrategySynthetic.
    apply generateMockBacktestResult_withStrategies. exact Hab.
  - intros r s'. apply IH.
Qed.

(** The synthetic engine reads of a strategy the id, the type and the number
    of tickers, nothing else: an input whose strategies have other
    parameters, other names and other ticker symbols gets the same seed and
    the same results. *)
Theorem runBacktestSynthetic_reads_shape_only this others (w : World) :
  Forall2 sameShape (strategies this) others ->
  runBacktestSynthetic (withStrategies this others) (construct (withStrategies this others) w)
  = runBacktestSynthetic this (construct this w).
Proof.
  intros Hshape. unfold runBacktestSynthetic, construct.
  rewrite (createSeed_withStrategies this Hshape).
  cbn [strategies withStrategies].
  apply runLoop_withStrategies. exact Hshape.
Qed.

End ShapeOnly.

Lemma runBacktestSynthetic_reads_shape_only_witness :
  runBacktestSynthetic
    (withStrategies (exEngine #50000 [meanReversion1] monday (monday + 4 * DAY))
       [withUnreadSettings
          (exStrategy "mean-reversion-1" mean_reversion ["TSLA"] #1) #1 #1 #1 #1 #1 #1
          None None None None None false #0])
    (construct
       (withStrategies (exEngine #50000 [meanReversion1] monday (monday + 4 * DAY))
          [withUnreadSettings
             (exStrategy "mean-reversion-1" mean_reversion ["TSLA"] #1) #1 #1 #1 #1 #1 #1
             None None None None None false #0]) tt)
  = runBacktestSynthetic (exEngine #50000 [meanReversion1] monday (monday + 4 * DAY))
      (construct (exEngine #50000 [meanReversion1] monday (monday + 4 * DAY)) tt).
Proof.
  refine (@runBacktestSynthetic_reads_shape_only unit
            (exEngine #50000 [meanReversion1] monday (monday + 4 * DAY))
            [withUnreadSettings
               (exStrategy "mean-reversion-1" mean_reversion ["TSLA"] #1) #1 #1 #1 #1 #1 #1
               None None None None None false #0] tt _).
  constructor; [| constructor]. repeat split.
Defined.

(** ** The synthetic equity curve *)

Section MockCurve.

Open Scope Q_scope.

Variable World : Type.

(** A curve that starts from [previous] and moves by at most one percent
    from each point to the next, with the return on [cap] at each point. *)
Fixpoint walk (cap previous : Q) (curve : list EquityPoint) : Prop :=
  match curve with
  | [] => True
  | point :: rest =>
      exists e,
        val (equity point) e
        /\ 0.99 * previous <= e < 1.01 * previous
        /\ val (ret_ point) ((e - cap) / cap)
        /\ walk cap e rest
  end.

Lemma mockEquityLoop_walk this cap n : forall i eq e curve,
  val (capital this) cap -> 0 < cap ->
  val eq e -> 0 < e ->
  draws (mockEquityLoop (World := World) this n i eq curve)
        (fun out => exists points,
                      out = curve ++ points
                      /\ map date points = calendarDays (addDays (startDate this) i) n
                      /\ walk cap e points).
Proof.
  induction n as [| n IH]; intros i eq e curve Hcap Hcap0 Heq He; cbn [mockEquityLoop].
  - apply draws_ret. exists []. rewrite app_nil_r. repeat split.
  - eapply draws_bind; [apply seededRandom_draws | intros r (q & -> & Hq)].
    set (e' := e * (1 + (q - 0.5) * 0.02)).
    assert (Hnext : val (mul eq (add (Fin 1) (mul (sub (Fin q) (Fin 0.5)) (Fin 0.02)))) e').
    { apply val_mul; [exact Heq |]. apply val_add; [apply val_Fin |].
      apply val_mul; [| apply val_Fin]. apply val_sub; apply val_Fin. }
    assert (He' : 0.99 * e <= e' < 1.01 * e) by (unfold e'; nra).
    eapply draws_weaken; [apply (IH (i + 1)%Z _ e' _ Hcap Hcap0 Hnext); lra |].
    intros out (points & -> & Hdates & Hwalk).
    eexists (_ :: points). split; [rewrite <- app_assoc; reflexivity |].
    cbn [map date calendarDays walk equity ret_]. split.
    + f_equal. rewrite Hdates. f_equal. unfold addDays. lia.
    + exists e'. repeat split; auto; try lra.
      apply val_div; [apply val_sub; assumption | exact Hcap | lra].
Qed.

(** On a seed that is a finite number and not negative and a positive
    capital, the equity curve of the synthetic result has one point for each
    calendar day from the start date on, weekends included; it starts within
    one percent of the capital, moves by at most one percent a day, and so
    stays positive; each point carries its return on the capital. *)
Theorem generateMockBacktestResult_curve_walk this strategy (s : State World) :
  seedOk s ->
  isFinite (capital this) = true -> lt (Fin 0) (capital this) = true ->
  exists r s',
    generateMockBacktestResult this strategy s = (Ret r, s')
    /\ map date (equityCurve r) = calendarDays (startDate this) (mockDays this)
    /\ walk (qval (capital this)) (qval (capital this)) (equityCurve r).
Proof.
  intros Hs Hfin Hpos.
  destruct (capital this) as [cap | | |] eqn:Ecap; try discriminate.
  apply lt_fin in Hpos. cbn [qval].
  assert (Hcap : val (capital this) cap) by (rewrite Ecap; apply val_Fin).
  assert (Hdraws : draws (generateMockBacktestResult (World := World) this strategy)
                     (fun r => map date (equityCurve r)
                               = calendarDays (startDate this) (mockDays this)
                               /\ walk cap cap (equityCurve r))).
  { unfold generateMockBacktestResult.
    eapply draws_bind; [apply getStrategyBaseReturn_draws | intros base _].
    do 7 (eapply draws_bind; [apply seededRandom_draws | intros ? _]).
    eapply draws_bind; [apply getStrategyHoldTime_draws | intros hold _].
    eapply draws_bind.
    - unfold generateMockEquityCurve.
      apply (@mockEquityLoop_walk this cap _ 0%Z (capital this) cap [] Hcap Hpos Hcap Hpos).
    - intros curve (points & -> & Hdates & Hwalk). apply draws_ret.
      cbn [equityCurve app]. split; [| exact Hwalk].
      rewrite Hdates. unfold mockDays, addDays. f_equal. lia. }
  destruct (Hdraws s Hs) as (r & s' & E & _ & Hr). exists r, s'. auto.
Qed.

End MockCurve.

Lemma generateMockBacktestResult_curve_walk_witness :
  exists r s',
    generateMockBacktestResult
      (exEngine #50000 [meanReversion1] monday (monday + 4 * DAY)) meanReversion1
      (construct (exEngine #50000 [meanReversion1] monday (monday + 4 * DAY)) tt)
    = (Ret r, s')
    /\ map date (equityCurve r)
       = calendarDays monday (mockDays (exEngine #50000 [meanReversion1] monday (monday + 4 * DAY)))
    /\ walk 50000 50000 (equityCurve r).
Proof.
  refine (@generateMockBacktestResult_curve_walk unit
            (exEngine #50000 [meanReversion1] monday (monday + 4 * DAY)) meanReversion1
            (construct (exEngine #50000 [meanReversion1] monday (monday + 4 * DAY)) tt)
            _ _ _).
  - apply construct_seedOk. reflexivity.
  - reflexivity.
  - reflexivity.
Defined.
